(** * The WebAssembly C API object layer of WasmEdge (lib/api/wasm_c.cpp)

    A shallow embedding of the C++ implementation of the [wasm.h] boundary:
    type descriptors, the vector family, references, values, and the
    engine/store shells.  The code manipulates raw pointers, so the embedding
    is a block memory with explicit state passing: every function of the
    source becomes a computation in a state-and-fault monad over that memory,
    and undefined behaviour of the C++ code (null dereference, use after
    free, reaching [__builtin_unreachable]) is an explicit [Fault]. *)

From Stdlib Require Import ZArith Lia.
From stdpp Require Import base option list gmap.

(** ** Memory model *)

(** A pointer is null or a block with a cell offset inside it.  Structures
    are laid out one cell per scalar member, base-class members first. *)
Inductive ptr : Type :=
| Null
| Ptr (b : positive) (o : nat).

(** Content of a memory cell.  The all-zero bit pattern [Vint 0] is both the
    integer zero and the null pointer, as [std::memset(_, 0, _)] relies on. *)
Inductive val : Type :=
| Vundef
| Vint (z : Z)
| Vptr (b : positive) (o : nat)
| Vfun (f : positive).

#[global] Instance ptr_eq_dec : EqDecision ptr.
Proof. solve_decision. Defined.
#[global] Instance val_eq_dec : EqDecision val.
Proof. solve_decision. Defined.

Definition nullptr : val := Vint 0.

Definition val_of_ptr (p : ptr) : val :=
  match p with
  | Null => nullptr
  | Ptr b o => Vptr b o
  end.

Definition is_null (p : ptr) : bool :=
  match p with
  | Null => true
  | Ptr _ _ => false
  end.

(** [&p[k]] and [&p->member]: address arithmetic inside a block. *)
Definition shift (p : ptr) (k : nat) : ptr :=
  match p with
  | Null => Null
  | Ptr b o => Ptr b (o + k)
  end.

Inductive fault : Type :=
| NullDeref       (* access through a null pointer *)
| InvalidAccess   (* dangling or out-of-bounds access *)
| Uninitialized   (* use of an indeterminate value *)
| BadValue        (* a cell used at the wrong type *)
| InvalidFree     (* delete of something that is not a live allocation *)
| Unreachable.    (* __builtin_unreachable() was reached *)

(** The machine state: live blocks, the next fresh block, the outcomes of
    the coming [new (std::nothrow)] requests ([true]: the request fails;
    when the list is exhausted requests succeed), and the log of callbacks
    run so far, as (function, argument) pairs. *)
Record state : Type := State {
  mem : gmap positive (list val);
  nextblock : positive;
  oom : list bool;
  finalized : list (val * val)
}.

Definition upd_mem (f : gmap positive (list val) → gmap positive (list val))
    (s : state) : state :=
  State (f (mem s)) (nextblock s) (oom s) (finalized s).

Inductive outcome (A : Type) : Type :=
| Ok (a : A) (s : state)
| Fault (f : fault).
Arguments Ok {A} a s.
Arguments Fault {A} f.

Definition M (A : Type) : Type := state → outcome A.

Definition ret {A} (a : A) : M A := fun s => Ok a s.

Definition bind {A B} (m : M A) (k : A → M B) : M B :=
  fun s =>
    match m s with
    | Ok a s' => k a s'
    | Fault f => Fault f
    end.

Definition raise {A} (f : fault) : M A := fun _ => Fault f.

Declare Scope cpp_scope.
Delimit Scope cpp_scope with cpp.
Notation "x <- m ;; k" := (bind m (fun x => k))
  (at level 100, m at next level, right associativity) : cpp_scope.
Notation "m ;; k" := (bind m (fun _ => k))
  (at level 100, right associativity) : cpp_scope.
Local Open Scope cpp_scope.

(** *** Primitive accesses *)

Definition load (p : ptr) : M val :=
  fun s =>
    match p with
    | Null => Fault NullDeref
    | Ptr b o =>
        match mem s !! b with
        | Some cells =>
            match cells !! o with
            | Some v => Ok v s
            | None => Fault InvalidAccess
            end
        | None => Fault InvalidAccess
        end
    end.

Definition store (p : ptr) (v : val) : M unit :=
  fun s =>
    match p with
    | Null => Fault NullDeref
    | Ptr b o =>
        match mem s !! b with
        | Some cells =>
            if (o <? length cells)%nat
            then Ok tt (upd_mem (insert b (<[o := v]> cells)) s)
            else Fault InvalidAccess
        | None => Fault InvalidAccess
        end
    end.

Definition as_int (v : val) : M Z :=
  match v with
  | Vint z => ret z
  | Vundef => raise Uninitialized
  | _ => raise BadValue
  end.

Definition as_ptr (v : val) : M ptr :=
  match v with
  | Vint 0 => ret Null
  | Vptr b o => ret (Ptr b o)
  | Vundef => raise Uninitialized
  | _ => raise BadValue
  end.

(** [p->member] for the member at cell offset [k]. *)
Definition loadf (p : ptr) (k : nat) : M val := load (shift p k).
Definition storef (p : ptr) (k : nat) (v : val) : M unit := store (shift p k) v.
Definition load_int (p : ptr) (k : nat) : M Z := v <- loadf p k ;; as_int v.
Definition load_ptr (p : ptr) (k : nat) : M ptr := v <- loadf p k ;; as_ptr v.

(** [&p->member] when the address leaves the expression. *)
Definition field (p : ptr) (k : nat) : M ptr :=
  match p with
  | Null => raise NullDeref
  | Ptr b o => ret (Ptr b (o + k))
  end.

(** [new (std::nothrow)]: a fresh block of [n] indeterminate cells, or null. *)
Definition alloc (n : nat) : M ptr :=
  fun s =>
    match oom s with
    | true :: rest =>
        Ok Null (State (mem s) (nextblock s) rest (finalized s))
    | _ =>
        Ok (Ptr (nextblock s) 0)
           (State (<[nextblock s := replicate n Vundef]> (mem s))
                  (Pos.succ (nextblock s)) (tail (oom s)) (finalized s))
    end.

(** Storage of the caller (locals, arrays): always granted. *)
Definition alloca (n : nat) : M ptr :=
  fun s =>
    Ok (Ptr (nextblock s) 0)
       (State (<[nextblock s := replicate n Vundef]> (mem s))
              (Pos.succ (nextblock s)) (oom s) (finalized s)).

(** [delete p] / [delete[] p] once destructors have run. *)
Definition free (p : ptr) : M unit :=
  fun s =>
    match p with
    | Null => Ok tt s
    | Ptr b 0 =>
        match mem s !! b with
        | Some _ => Ok tt (upd_mem (delete b) s)
        | None => Fault InvalidFree
        end
    | Ptr _ (S _) => Fault InvalidFree
    end.

(** Running a callback [f(arg)]: the only way a call reaches the log. *)
Definition invoke (f arg : val) : M unit :=
  fun s => Ok tt (State (mem s) (nextblock s) (oom s) (finalized s ++ [(f, arg)])).

(** [new (std::nothrow) T(args)]: the constructor runs only on success. *)
Definition new_nothrow (n : nat) (ctor : ptr → M unit) : M ptr :=
  p <- alloc n ;;
  if is_null p then ret Null else ctor p ;; ret p.

(** [for (size_t i = 0; i < n; i++) body(i)], counted upwards from [i]. *)
Fixpoint for_loop (n : nat) (i : nat) (body : nat → M unit) : M unit :=
  match n with
  | O => ret tt
  | S n' => body i ;; for_loop n' (S i) body
  end.

(** [std::memset(p, 0, n cells)] *)
Fixpoint memset0 (n : nat) (p : ptr) : M unit :=
  match n with
  | O => ret tt
  | S n' => store p (Vint 0) ;; memset0 n' (shift p 1)
  end.

(** [std::copy_n(src, n cells, dst)]; moving a scalar or a raw pointer out
    of [std::make_move_iterator(src)] is a plain copy. *)
Fixpoint copy_n (n : nat) (src dst : ptr) : M unit :=
  match n with
  | O => ret tt
  | S n' =>
      v <- load src ;;
      store dst v ;;
      copy_n n' (shift src 1) (shift dst 1)
  end.

(** ** Enumerations and layouts *)

(** Modelled from the spec: the closed enumerations ValueKind, Mutability and
    ExternKind (spec section 3) are declared in [wasm/wasm.h], which is not
    among the sources; the encodings below are the ones of that standard
    header.  They are [uint8_t] values on which the code does no arithmetic. *)
Definition WASM_I32 : Z := 0.
Definition WASM_I64 : Z := 1.
Definition WASM_F32 : Z := 2.
Definition WASM_F64 : Z := 3.
Definition WASM_ANYREF : Z := 128.
Definition WASM_FUNCREF : Z := 129.

Definition WASM_CONST : Z := 0.
Definition WASM_VAR : Z := 1.

Definition WASM_EXTERN_FUNC : Z := 0.
Definition WASM_EXTERN_GLOBAL : Z := 1.
Definition WASM_EXTERN_TABLE : Z := 2.
Definition WASM_EXTERN_MEMORY : Z := 3.

(** Cell offsets of the members, in declaration order.  A nested structure
    occupies consecutive cells; [wasm_ref_t] has a single dynamic type in
    this file, so its virtual calls are the ones of [wasm_ref_t] itself and
    no table pointer is kept. *)
Module Layout.
(* wasm_<name>_vec_t { size_t size; T* data; } *)
Definition vec_size := 0%nat.
Definition vec_data := 1%nat.
(* wasm_limits_t { uint32_t min, max; } *)
Definition limits_min := 0%nat.
Definition limits_max := 1%nat.
(* wasm_val_t { wasm_valkind_t kind; union {...} of; } *)
Definition val_kind := 0%nat.
Definition val_of := 1%nat.
Definition sizeof_val := 2%nat.
(* wasm_config_t *)
Definition config_conf := 0%nat.
Definition sizeof_config := 1%nat.
(* wasm_engine_t *)
Definition engine_conf := 0%nat.
Definition engine_interp := 1%nat.
Definition sizeof_engine := 2%nat.
(* wasm_store_t *)
Definition store_engine := 0%nat.
Definition store_load := 1%nat.
Definition store_valid := 2%nat.
Definition store_store := 3%nat.
Definition sizeof_store := 4%nat.
(* wasm_valtype_t *)
Definition valtype_kind := 0%nat.
Definition sizeof_valtype := 1%nat.
(* wasm_externtype_t, the common prefix of its four variants *)
Definition externtype_kind := 0%nat.
(* wasm_functype_t *)
Definition functype_params := 1%nat.
Definition functype_results := 3%nat.
Definition sizeof_functype := 5%nat.
(* wasm_globaltype_t *)
Definition globaltype_content := 1%nat.
Definition globaltype_mutability := 2%nat.
Definition sizeof_globaltype := 3%nat.
(* wasm_tabletype_t *)
Definition tabletype_valtype := 1%nat.
Definition tabletype_limits := 2%nat.
Definition sizeof_tabletype := 4%nat.
(* wasm_memorytype_t *)
Definition memorytype_limits := 1%nat.
Definition sizeof_memorytype := 3%nat.
(* wasm_importtype_t *)
Definition importtype_modname := 0%nat.
Definition importtype_name := 2%nat.
Definition importtype_type := 4%nat.
Definition sizeof_importtype := 5%nat.
(* wasm_exporttype_t *)
Definition exporttype_name := 0%nat.
Definition exporttype_type := 2%nat.
Definition sizeof_exporttype := 3%nat.
(* wasm_ref_t *)
Definition ref_host_info := 0%nat.
Definition ref_finalizer := 1%nat.
Definition sizeof_ref := 2%nat.
End Layout.
Import Layout.

(** The excluded engine components ([Configure], [Interpreter], [Loader],
    [Validator], [StoreManager]) are kept as one cell each, holding the
    configuration they were built from. *)
Definition Configure_default : val := Vint 0.
Definition StoreManager_new : val := Vint 0.

(** ** The vector family (WASM_DECLARE_VEC_*_IMPL) *)

Section Vec.
(** Cells per element: [sizeof(wasm_<name>_t ptr_or_none)]. *)
Variable width : nat.

Definition vec_new_empty (out : ptr) : M unit :=
  if is_null out then ret tt
  else
    storef out vec_size (Vint 0) ;;
    storef out vec_data nullptr.

Definition vec_new_uninitialized (out : ptr) (size : Z) : M unit :=
  if is_null out then ret tt
  else
    storef out vec_size (Vint size) ;;
    storef out vec_data nullptr ;;
    if (0 <? size)%Z then
      d <- alloc (Z.to_nat size * width) ;;
      storef out vec_data (val_of_ptr d) ;;
      d' <- load_ptr out vec_data ;;
      memset0 (Z.to_nat size * width) d'
    else ret tt.

Definition vec_new (out : ptr) (size : Z) (vals : ptr) : M unit :=
  if is_null out then ret tt
  else
    storef out vec_size (Vint size) ;;
    storef out vec_data nullptr ;;
    if (0 <? size)%Z then
      d <- alloc (Z.to_nat size * width) ;;
      storef out vec_data (val_of_ptr d) ;;
      d' <- load_ptr out vec_data ;;
      copy_n (Z.to_nat size * width) vals d'
    else ret tt.

(** WASM_DECLARE_VEC_SCALAR_IMPL *)
Definition scalar_vec_copy (out in_ : ptr) : M unit :=
  if is_null in_ || is_null out then ret tt
  else
    sz <- loadf in_ vec_size ;;
    storef out vec_size sz ;;
    n <- load_int in_ vec_size ;;
    if (0 <? n)%Z then
      n' <- load_int in_ vec_size ;;
      d <- alloc (Z.to_nat n' * width) ;;
      storef out vec_data (val_of_ptr d) ;;
      src <- load_ptr in_ vec_data ;;
      cnt <- load_int in_ vec_size ;;
      dst <- load_ptr out vec_data ;;
      copy_n (Z.to_nat cnt * width) src dst
    else ret tt.

Definition scalar_vec_delete (vec : ptr) : M unit :=
  if is_null vec then ret tt
  else
    n <- load_int vec vec_size ;;
    (if (0 <? n)%Z then
       d <- load_ptr vec vec_data ;;
       free d
     else ret tt) ;;
    storef vec vec_size (Vint 0) ;;
    storef vec vec_data nullptr.
End Vec.

(** WASM_DECLARE_VEC_PTR_IMPL: the element is a pointer (one cell), copied
    and destroyed through the element type's own functions.  The loop bound
    [size] is not written by the loop body and is read on entry. *)
Section PtrVec.
Variable elem_copy : ptr → M ptr.
Variable elem_delete : ptr → M unit.

Definition ptr_vec_copy (out in_ : ptr) : M unit :=
  if is_null in_ || is_null out then ret tt
  else
    sz <- loadf in_ vec_size ;;
    storef out vec_size sz ;;
    storef out vec_data nullptr ;;
    n <- load_int in_ vec_size ;;
    if (0 <? n)%Z then
      n' <- load_int in_ vec_size ;;
      d <- alloc (Z.to_nat n') ;;
      storef out vec_data (val_of_ptr d) ;;
      cnt <- load_int in_ vec_size ;;
      for_loop (Z.to_nat cnt) 0 (fun i =>
        src <- load_ptr in_ vec_data ;;
        e <- load_ptr src i ;;
        c <- elem_copy e ;;
        dst <- load_ptr out vec_data ;;
        storef dst i (val_of_ptr c))
    else ret tt.

Definition ptr_vec_delete (vec : ptr) : M unit :=
  if is_null vec then ret tt
  else
    n <- load_int vec vec_size ;;
    (if (0 <? n)%Z then
       cnt <- load_int vec vec_size ;;
       for_loop (Z.to_nat cnt) 0 (fun i =>
         d <- load_ptr vec vec_data ;;
         e <- load_ptr d i ;;
         elem_delete e) ;;
       d <- load_ptr vec vec_data ;;
       free d
     else ret tt) ;;
    storef vec vec_size (Vint 0) ;;
    storef vec vec_data nullptr.
End PtrVec.

(** ** wasm_byte_vec_t and names *)

Definition wasm_byte_vec_new_empty := vec_new_empty.
Definition wasm_byte_vec_new_uninitialized := vec_new_uninitialized 1.
Definition wasm_byte_vec_new := vec_new 1.
Definition wasm_byte_vec_copy := scalar_vec_copy 1.
Definition wasm_byte_vec_delete := scalar_vec_delete.

(** Modelled from the spec: the name buffers of ImportType and ExportType
    (spec section 3); [wasm/wasm.h], which is not among the sources, declares
    [wasm_name_t] and its functions as aliases of the byte vector. *)
Definition wasm_name_new := wasm_byte_vec_new.
Definition wasm_name_copy := wasm_byte_vec_copy.
Definition wasm_name_delete := wasm_byte_vec_delete.

(** ** wasm_config_t, wasm_engine_t, wasm_store_t *)

Definition wasm_config_delete (obj : ptr) : M unit :=
  if is_null obj then ret tt else free obj.

Definition wasm_config_new : M ptr :=
  new_nothrow sizeof_config (fun this =>
    storef this config_conf Configure_default).

Definition wasm_engine_delete (obj : ptr) : M unit :=
  if is_null obj then ret tt else free obj.

(* wasm_engine_t() : conf(), interp(conf, nullptr) *)
Definition wasm_engine_new : M ptr :=
  new_nothrow sizeof_engine (fun this =>
    storef this engine_conf Configure_default ;;
    c <- loadf this engine_conf ;;
    storef this engine_interp c).

(* wasm_engine_t(const wasm_config_t *c) : conf(c->conf), interp(c->conf, nullptr) *)
Definition wasm_engine_new_with_config (conf : ptr) : M ptr :=
  res <- new_nothrow sizeof_engine (fun this =>
           c <- loadf conf config_conf ;;
           storef this engine_conf c ;;
           c' <- loadf conf config_conf ;;
           storef this engine_interp c') ;;
  wasm_config_delete conf ;;
  ret res.

Definition wasm_store_delete (obj : ptr) : M unit :=
  if is_null obj then ret tt else free obj.

(* wasm_store_t(wasm_engine_t *e)
     : engine(e), load(e->conf), valid(e->conf), store() *)
Definition wasm_store_new (engine : ptr) : M ptr :=
  if is_null engine then ret Null
  else
    new_nothrow sizeof_store (fun this =>
      storef this store_engine (val_of_ptr engine) ;;
      c <- loadf engine engine_conf ;;
      storef this store_load c ;;
      c' <- loadf engine engine_conf ;;
      storef this store_valid c' ;;
      storef this store_store StoreManager_new).

(** ** wasm_valtype_t *)

Definition wasm_valtype_delete (obj : ptr) : M unit :=
  if is_null obj then ret tt else free obj.

(* wasm_valtype_t(const wasm_valtype_t *vt) : kind(vt->kind) *)
Definition valtype_ctor_copy (vt : ptr) (this : ptr) : M unit :=
  k <- loadf vt valtype_kind ;;
  storef this valtype_kind k.

Definition wasm_valtype_copy (in_ : ptr) : M ptr :=
  if is_null in_ then ret Null
  else new_nothrow sizeof_valtype (valtype_ctor_copy in_).

Definition wasm_valtype_vec_new_empty := vec_new_empty.
Definition wasm_valtype_vec_new_uninitialized := vec_new_uninitialized 1.
Definition wasm_valtype_vec_new := vec_new 1.
Definition wasm_valtype_vec_copy := ptr_vec_copy wasm_valtype_copy.
Definition wasm_valtype_vec_delete := ptr_vec_delete wasm_valtype_delete.

Definition wasm_valtype_new (kind : Z) : M ptr :=
  new_nothrow sizeof_valtype (fun this =>
    storef this valtype_kind (Vint kind)).

Definition wasm_valtype_kind (valtype : ptr) : M Z :=
  if is_null valtype then ret WASM_I32
  else load_int valtype valtype_kind.

(** ** Casts between wasm_externtype_t and its variants

    The base class is the first sub-object of every variant, so the implicit
    upcast and the [static_cast] downcast both keep the address. *)

Definition wasm_functype_as_externtype (functype : ptr) : M ptr := ret functype.
Definition wasm_globaltype_as_externtype (globaltype : ptr) : M ptr := ret globaltype.
Definition wasm_tabletype_as_externtype (tabletype : ptr) : M ptr := ret tabletype.
Definition wasm_memorytype_as_externtype (memorytype : ptr) : M ptr := ret memorytype.
Definition wasm_externtype_as_functype (externtype : ptr) : M ptr := ret externtype.
Definition wasm_externtype_as_globaltype (externtype : ptr) : M ptr := ret externtype.
Definition wasm_externtype_as_tabletype (externtype : ptr) : M ptr := ret externtype.
Definition wasm_externtype_as_memorytype (externtype : ptr) : M ptr := ret externtype.
Definition wasm_functype_as_externtype_const (functype : ptr) : M ptr := ret functype.
Definition wasm_globaltype_as_externtype_const (globaltype : ptr) : M ptr := ret globaltype.
Definition wasm_tabletype_as_externtype_const (tabletype : ptr) : M ptr := ret tabletype.
Definition wasm_memorytype_as_externtype_const (memorytype : ptr) : M ptr := ret memorytype.
Definition wasm_externtype_as_functype_const (externtype : ptr) : M ptr := ret externtype.
Definition wasm_externtype_as_globaltype_const (externtype : ptr) : M ptr := ret externtype.
Definition wasm_externtype_as_tabletype_const (externtype : ptr) : M ptr := ret externtype.
Definition wasm_externtype_as_memorytype_const (externtype : ptr) : M ptr := ret externtype.

(** ** wasm_functype_t *)

(* wasm_functype_t(const wasm_functype_t *functype) *)
Definition functype_ctor_copy (functype : ptr) (this : ptr) : M unit :=
  storef this externtype_kind (Vint WASM_EXTERN_FUNC) ;;
  dst <- field this functype_params ;;
  src <- field functype functype_params ;;
  wasm_valtype_vec_copy dst src ;;
  dst' <- field this functype_results ;;
  src' <- field functype functype_results ;;
  wasm_valtype_vec_copy dst' src'.

(** [std::swap(a, *b)] on two vector structures. *)
Definition swap_vec (a b : ptr) : M unit :=
  tmp_size <- loadf a vec_size ;;
  tmp_data <- loadf a vec_data ;;
  b_size <- loadf b vec_size ;;
  b_data <- loadf b vec_data ;;
  storef a vec_size b_size ;;
  storef a vec_data b_data ;;
  storef b vec_size tmp_size ;;
  storef b vec_data tmp_data.

(* wasm_functype_t(own wasm_valtype_vec_t *vp, own wasm_valtype_vec_t *vr) *)
Definition functype_ctor (vp vr : ptr) (this : ptr) : M unit :=
  storef this externtype_kind (Vint WASM_EXTERN_FUNC) ;;
  swap_vec (shift this functype_params) vp ;;
  swap_vec (shift this functype_results) vr.

(* ~wasm_functype_t() *)
Definition functype_dtor (this : ptr) : M unit :=
  p <- field this functype_params ;;
  wasm_valtype_vec_delete p ;;
  r <- field this functype_results ;;
  wasm_valtype_vec_delete r.

Definition functype_destroy (this : ptr) : M unit :=
  functype_dtor this ;; free this.

Definition wasm_functype_delete (obj : ptr) : M unit :=
  if is_null obj then ret tt else functype_destroy obj.

Definition wasm_functype_copy (in_ : ptr) : M ptr :=
  if is_null in_ then ret Null
  else new_nothrow sizeof_functype (functype_ctor_copy in_).

Definition wasm_functype_vec_new_empty := vec_new_empty.
Definition wasm_functype_vec_new_uninitialized := vec_new_uninitialized 1.
Definition wasm_functype_vec_new := vec_new 1.
Definition wasm_functype_vec_copy := ptr_vec_copy wasm_functype_copy.
Definition wasm_functype_vec_delete := ptr_vec_delete wasm_functype_delete.

Definition wasm_functype_new (params results : ptr) : M ptr :=
  new_nothrow sizeof_functype (functype_ctor params results).

Definition wasm_functype_params (functype : ptr) : M ptr :=
  if is_null functype then ret Null else field functype functype_params.

Definition wasm_functype_results (functype : ptr) : M ptr :=
  if is_null functype then ret Null else field functype functype_results.

(** ** wasm_globaltype_t *)

(* wasm_globaltype_t(const wasm_globaltype_t *globaltype) *)
Definition globaltype_ctor_copy (globaltype : ptr) (this : ptr) : M unit :=
  storef this externtype_kind (Vint WASM_EXTERN_GLOBAL) ;;
  k <- loadf globaltype (globaltype_content + valtype_kind) ;;
  storef this (globaltype_content + valtype_kind) k ;;
  m <- loadf globaltype globaltype_mutability ;;
  storef this globaltype_mutability m.

(* wasm_globaltype_t(own wasm_valtype_t *vt, const wasm_mutability_t mut)
     : wasm_externtype_t(WASM_EXTERN_GLOBAL), content(vt), mutability(mut)
   { wasm_valtype_delete(vt); } *)
Definition globaltype_ctor (vt : ptr) (mut : Z) (this : ptr) : M unit :=
  storef this externtype_kind (Vint WASM_EXTERN_GLOBAL) ;;
  valtype_ctor_copy vt (shift this globaltype_content) ;;
  storef this globaltype_mutability (Vint mut) ;;
  wasm_valtype_delete vt.

Definition wasm_globaltype_delete (obj : ptr) : M unit :=
  if is_null obj then ret tt else free obj.

Definition wasm_globaltype_copy (in_ : ptr) : M ptr :=
  if is_null in_ then ret Null
  else new_nothrow sizeof_globaltype (globaltype_ctor_copy in_).

Definition wasm_globaltype_vec_new_empty := vec_new_empty.
Definition wasm_globaltype_vec_new_uninitialized := vec_new_uninitialized 1.
Definition wasm_globaltype_vec_new := vec_new 1.
Definition wasm_globaltype_vec_copy := ptr_vec_copy wasm_globaltype_copy.
Definition wasm_globaltype_vec_delete := ptr_vec_delete wasm_globaltype_delete.

Definition wasm_globaltype_new (valtype : ptr) (mutability : Z) : M ptr :=
  new_nothrow sizeof_globaltype (globaltype_ctor valtype mutability).

Definition wasm_globaltype_content (globaltype : ptr) : M ptr :=
  if is_null globaltype then ret Null else field globaltype globaltype_content.

Definition wasm_globaltype_mutability (globaltype : ptr) : M Z :=
  if is_null globaltype then ret WASM_CONST
  else load_int globaltype globaltype_mutability.

(** ** wasm_tabletype_t *)

(** Copy-initialisation of a [wasm_limits_t] member from [lim]'s target:
    a member-wise copy. *)
Definition copy_limits (dst src : ptr) : M unit :=
  lo <- loadf src limits_min ;;
  hi <- loadf src limits_max ;;
  storef dst limits_min lo ;;
  storef dst limits_max hi.

(* wasm_tabletype_t(const wasm_tabletype_t *tabletype) *)
Definition tabletype_ctor_copy (tabletype : ptr) (this : ptr) : M unit :=
  storef this externtype_kind (Vint WASM_EXTERN_TABLE) ;;
  vt <- field tabletype tabletype_valtype ;;
  valtype_ctor_copy vt (shift this tabletype_valtype) ;;
  copy_limits (shift this tabletype_limits) (shift tabletype tabletype_limits).

(* wasm_tabletype_t(own wasm_valtype_t *vt, const wasm_limits_t *lim)
     : wasm_externtype_t(WASM_EXTERN_TABLE), valtype(vt), limits(lim's target)
   { wasm_valtype_delete(vt); } *)
Definition tabletype_ctor (vt lim : ptr) (this : ptr) : M unit :=
  storef this externtype_kind (Vint WASM_EXTERN_TABLE) ;;
  valtype_ctor_copy vt (shift this tabletype_valtype) ;;
  copy_limits (shift this tabletype_limits) lim ;;
  wasm_valtype_delete vt.

Definition wasm_tabletype_delete (obj : ptr) : M unit :=
  if is_null obj then ret tt else free obj.

Definition wasm_tabletype_copy (in_ : ptr) : M ptr :=
  if is_null in_ then ret Null
  else new_nothrow sizeof_tabletype (tabletype_ctor_copy in_).

Definition wasm_tabletype_vec_new_empty := vec_new_empty.
Definition wasm_tabletype_vec_new_uninitialized := vec_new_uninitialized 1.
Definition wasm_tabletype_vec_new := vec_new 1.
Definition wasm_tabletype_vec_copy := ptr_vec_copy wasm_tabletype_copy.
Definition wasm_tabletype_vec_delete := ptr_vec_delete wasm_tabletype_delete.

Definition wasm_tabletype_new (valtype limits : ptr) : M ptr :=
  new_nothrow sizeof_tabletype (tabletype_ctor valtype limits).

Definition wasm_tabletype_element (tabletype : ptr) : M ptr :=
  if is_null tabletype then ret Null else field tabletype tabletype_valtype.

Definition wasm_tabletype_limits (tabletype : ptr) : M ptr :=
  if is_null tabletype then ret Null else field tabletype tabletype_limits.

(** ** wasm_memorytype_t *)

(* wasm_memorytype_t(const wasm_memorytype_t *memorytype) *)
Definition memorytype_ctor_copy (memorytype : ptr) (this : ptr) : M unit :=
  storef this externtype_kind (Vint WASM_EXTERN_MEMORY) ;;
  copy_limits (shift this memorytype_limits) (shift memorytype memorytype_limits).

(* wasm_memorytype_t(const wasm_limits_t *lim)
     : wasm_externtype_t(WASM_EXTERN_MEMORY), limits(lim's target) *)
Definition memorytype_ctor (lim : ptr) (this : ptr) : M unit :=
  storef this externtype_kind (Vint WASM_EXTERN_MEMORY) ;;
  copy_limits (shift this memorytype_limits) lim.

Definition wasm_memorytype_delete (obj : ptr) : M unit :=
  if is_null obj then ret tt else free obj.

Definition wasm_memorytype_copy (in_ : ptr) : M ptr :=
  if is_null in_ then ret Null
  else new_nothrow sizeof_memorytype (memorytype_ctor_copy in_).

Definition wasm_memorytype_vec_new_empty := vec_new_empty.
Definition wasm_memorytype_vec_new_uninitialized := vec_new_uninitialized 1.
Definition wasm_memorytype_vec_new := vec_new 1.
Definition wasm_memorytype_vec_copy := ptr_vec_copy wasm_memorytype_copy.
Definition wasm_memorytype_vec_delete := ptr_vec_delete wasm_memorytype_delete.

Definition wasm_memorytype_new (limit : ptr) : M ptr :=
  new_nothrow sizeof_memorytype (memorytype_ctor limit).

Definition wasm_memorytype_limits (memorytype : ptr) : M ptr :=
  if is_null memorytype then ret Null else field memorytype memorytype_limits.

(** ** wasm_externtype_t: dispatch on the discriminant *)

(* wasm_externtype_t::copy() *)
Definition externtype_copy (this : ptr) : M ptr :=
  kind <- load_int this externtype_kind ;;
  if (kind =? WASM_EXTERN_FUNC)%Z then
    f <- wasm_externtype_as_functype_const this ;;
    new_nothrow sizeof_functype (functype_ctor_copy f)
  else if (kind =? WASM_EXTERN_GLOBAL)%Z then
    g <- wasm_externtype_as_globaltype_const this ;;
    new_nothrow sizeof_globaltype (globaltype_ctor_copy g)
  else if (kind =? WASM_EXTERN_TABLE)%Z then
    t <- wasm_externtype_as_tabletype_const this ;;
    new_nothrow sizeof_tabletype (tabletype_ctor_copy t)
  else if (kind =? WASM_EXTERN_MEMORY)%Z then
    m <- wasm_externtype_as_memorytype_const this ;;
    new_nothrow sizeof_memorytype (memorytype_ctor_copy m)
  else raise Unreachable.

(* wasm_externtype_t::destroy() *)
Definition externtype_destroy (this : ptr) : M unit :=
  kind <- load_int this externtype_kind ;;
  if (kind =? WASM_EXTERN_FUNC)%Z then
    f <- wasm_externtype_as_functype this ;;
    functype_dtor f ;; free f
  else if (kind =? WASM_EXTERN_GLOBAL)%Z then
    g <- wasm_externtype_as_globaltype this ;;
    free g
  else if (kind =? WASM_EXTERN_TABLE)%Z then
    t <- wasm_externtype_as_tabletype this ;;
    free t
  else if (kind =? WASM_EXTERN_MEMORY)%Z then
    m <- wasm_externtype_as_memorytype this ;;
    free m
  else raise Unreachable.

Definition wasm_externtype_delete (obj : ptr) : M unit :=
  if is_null obj then ret tt else externtype_destroy obj.

Definition wasm_externtype_copy (in_ : ptr) : M ptr :=
  if is_null in_ then ret Null else externtype_copy in_.

Definition wasm_externtype_vec_new_empty := vec_new_empty.
Definition wasm_externtype_vec_new_uninitialized := vec_new_uninitialized 1.
Definition wasm_externtype_vec_new := vec_new 1.
Definition wasm_externtype_vec_copy := ptr_vec_copy wasm_externtype_copy.
Definition wasm_externtype_vec_delete := ptr_vec_delete wasm_externtype_delete.

Definition wasm_externtype_kind (externtype : ptr) : M Z :=
  if is_null externtype then ret WASM_EXTERN_FUNC
  else load_int externtype externtype_kind.

(** ** wasm_importtype_t *)

(* wasm_importtype_t(const wasm_importtype_t *importtype) *)
Definition importtype_ctor_copy (importtype : ptr) (this : ptr) : M unit :=
  dst <- field this importtype_modname ;;
  src <- field importtype importtype_modname ;;
  wasm_name_copy dst src ;;
  dst' <- field this importtype_name ;;
  src' <- field importtype importtype_name ;;
  wasm_name_copy dst' src' ;;
  t <- load_ptr importtype importtype_type ;;
  c <- wasm_externtype_copy t ;;
  storef this importtype_type (val_of_ptr c).

(* wasm_importtype_t(own wasm_name_t *mod, own wasm_name_t *n,
                     own wasm_externtype_t *externtype) *)
Definition importtype_ctor (mod_ n externtype : ptr) (this : ptr) : M unit :=
  swap_vec (shift this importtype_modname) mod_ ;;
  swap_vec (shift this importtype_name) n ;;
  storef this importtype_type (val_of_ptr externtype).

(* ~wasm_importtype_t() *)
Definition importtype_dtor (this : ptr) : M unit :=
  m <- field this importtype_modname ;;
  wasm_name_delete m ;;
  n <- field this importtype_name ;;
  wasm_name_delete n ;;
  t <- load_ptr this importtype_type ;;
  wasm_externtype_delete t.

Definition wasm_importtype_delete (obj : ptr) : M unit :=
  if is_null obj then ret tt else importtype_dtor obj ;; free obj.

Definition wasm_importtype_copy (in_ : ptr) : M ptr :=
  if is_null in_ then ret Null
  else new_nothrow sizeof_importtype (importtype_ctor_copy in_).

Definition wasm_importtype_vec_new_empty := vec_new_empty.
Definition wasm_importtype_vec_new_uninitialized := vec_new_uninitialized 1.
Definition wasm_importtype_vec_new := vec_new 1.
Definition wasm_importtype_vec_copy := ptr_vec_copy wasm_importtype_copy.
Definition wasm_importtype_vec_delete := ptr_vec_delete wasm_importtype_delete.

Definition wasm_importtype_new (module name externtype : ptr) : M ptr :=
  new_nothrow sizeof_importtype (importtype_ctor module name externtype).

Definition wasm_importtype_module (importtype : ptr) : M ptr :=
  if is_null importtype then ret Null else field importtype importtype_modname.

Definition wasm_importtype_name (importtype : ptr) : M ptr :=
  if is_null importtype then ret Null else field importtype importtype_name.

Definition wasm_importtype_type (importtype : ptr) : M ptr :=
  if is_null importtype then ret Null else load_ptr importtype importtype_type.

(** ** wasm_exporttype_t *)

(* wasm_exporttype_t(const wasm_exporttype_t *exporttype) *)
Definition exporttype_ctor_copy (exporttype : ptr) (this : ptr) : M unit :=
  dst <- field this exporttype_name ;;
  src <- field exporttype exporttype_name ;;
  wasm_name_copy dst src ;;
  t <- load_ptr exporttype exporttype_type ;;
  c <- wasm_externtype_copy t ;;
  storef this exporttype_type (val_of_ptr c).

(* wasm_exporttype_t(own wasm_name_t *n, own wasm_externtype_t *externtype) *)
Definition exporttype_ctor (n externtype : ptr) (this : ptr) : M unit :=
  swap_vec (shift this exporttype_name) n ;;
  storef this exporttype_type (val_of_ptr externtype).

(* ~wasm_exporttype_t() *)
Definition exporttype_dtor (this : ptr) : M unit :=
  n <- field this exporttype_name ;;
  wasm_name_delete n ;;
  t <- load_ptr this exporttype_type ;;
  wasm_externtype_delete t.

Definition wasm_exporttype_delete (obj : ptr) : M unit :=
  if is_null obj then ret tt else exporttype_dtor obj ;; free obj.

Definition wasm_exporttype_copy (in_ : ptr) : M ptr :=
  if is_null in_ then ret Null
  else new_nothrow sizeof_exporttype (exporttype_ctor_copy in_).

Definition wasm_exporttype_vec_new_empty := vec_new_empty.
Definition wasm_exporttype_vec_new_uninitialized := vec_new_uninitialized 1.
Definition wasm_exporttype_vec_new := vec_new 1.
Definition wasm_exporttype_vec_copy := ptr_vec_copy wasm_exporttype_copy.
Definition wasm_exporttype_vec_delete := ptr_vec_delete wasm_exporttype_delete.

Definition wasm_exporttype_new (name externtype : ptr) : M ptr :=
  new_nothrow sizeof_exporttype (exporttype_ctor name externtype).

Definition wasm_exporttype_name (exporttype : ptr) : M ptr :=
  if is_null exporttype then ret Null else field exporttype exporttype_name.

Definition wasm_exporttype_type (exporttype : ptr) : M ptr :=
  if is_null exporttype then ret Null else load_ptr exporttype exporttype_type.

(** ** wasm_ref_t *)

(** [a == b] on two pointer-valued cells. *)
Definition ptr_eq (a b : val) : M bool :=
  match a, b with
  | Vundef, _ | _, Vundef => raise Uninitialized
  | _, _ => ret (bool_decide (a = b))
  end.

(* wasm_ref_t(void *host, finalizer fin)
     : host_info(host), finalizer(fin) *)
Definition ref_ctor (host fin : val) (this : ptr) : M unit :=
  storef this ref_host_info host ;;
  storef this ref_finalizer fin.

(* wasm_ref_t(const wasm_ref_t *ref) *)
Definition ref_ctor_copy (ref : ptr) (this : ptr) : M unit :=
  h <- loadf ref ref_host_info ;;
  storef this ref_host_info h ;;
  f <- loadf ref ref_finalizer ;;
  storef this ref_finalizer f.

(* wasm_ref_t::same(const wasm_ref_t *lhs) *)
Definition ref_same (this lhs : ptr) : M bool :=
  if is_null lhs then ret false
  else
    h1 <- loadf lhs ref_host_info ;;
    h2 <- loadf this ref_host_info ;;
    eq_host <- ptr_eq h1 h2 ;;
    if eq_host then
      f1 <- loadf lhs ref_finalizer ;;
      f2 <- loadf this ref_finalizer ;;
      ptr_eq f1 f2
    else ret false.

(* wasm_ref_t::destroy() { delete this; } with the empty ~wasm_ref_t() *)
Definition ref_destroy (this : ptr) : M unit := free this.

Definition wasm_ref_delete (obj : ptr) : M unit :=
  if is_null obj then ret tt else ref_destroy obj.

Definition wasm_ref_copy (in_ : ptr) : M ptr :=
  if is_null in_ then ret Null
  else new_nothrow sizeof_ref (ref_ctor_copy in_).

Definition wasm_ref_same (inst1 inst2 : ptr) : M bool :=
  if is_null inst1 then ret false else ref_same inst1 inst2.

Definition wasm_ref_get_host_info (inst : ptr) : M val :=
  if is_null inst then ret nullptr else loadf inst ref_host_info.

Definition wasm_ref_set_host_info (inst : ptr) (info : val) : M unit :=
  if is_null inst then ret tt else storef inst ref_host_info info.

Definition wasm_ref_set_host_info_with_finalizer (inst : ptr) (info fin : val)
    : M unit :=
  if is_null inst then ret tt
  else
    storef inst ref_host_info info ;;
    storef inst ref_finalizer fin.

(** ** wasm_val_t *)

Definition is_ref_kind (k : Z) : bool :=
  ((k =? WASM_ANYREF) || (k =? WASM_FUNCREF))%Z.

Definition wasm_val_delete (val_ : ptr) : M unit :=
  if is_null val_ then ret tt
  else
    kind <- load_int val_ val_kind ;;
    if is_ref_kind kind then
      r <- load_ptr val_ val_of ;;
      wasm_ref_delete r ;;
      storef val_ val_of nullptr
    else
      (* WASM_I32, WASM_I64, WASM_F32, WASM_F64 and default *)
      storef val_ val_of (Vint 0).

Definition wasm_val_copy (out val_ : ptr) : M unit :=
  if is_null out || is_null val_ then ret tt
  else
    k <- loadf val_ val_kind ;;
    storef out val_kind k ;;
    kind <- load_int out val_kind ;;
    if is_ref_kind kind then
      r <- load_ptr val_ val_of ;;
      c <- wasm_ref_copy r ;;
      storef out val_of (val_of_ptr c)
    else
      (* WASM_I32, WASM_I64, WASM_F32, WASM_F64 and default *)
      payload <- loadf val_ val_of ;;
      storef out val_of payload.

Definition wasm_val_vec_new_empty := vec_new_empty.
Definition wasm_val_vec_new_uninitialized := vec_new_uninitialized sizeof_val.
Definition wasm_val_vec_new := vec_new sizeof_val.
Definition wasm_val_vec_copy := scalar_vec_copy sizeof_val.
Definition wasm_val_vec_delete := scalar_vec_delete.

(** ** The families of destroyable types *)

(** The handle types with a [wasm_<name>_delete] (WASM_DECLARE_OWN_IMPL). *)
Inductive own_type : Type :=
| OwnConfig | OwnEngine | OwnStore
| OwnValtype | OwnFunctype | OwnGlobaltype | OwnTabletype | OwnMemorytype
| OwnExterntype | OwnImporttype | OwnExporttype
| OwnRef.

Definition wasm_delete (T : own_type) : ptr → M unit :=
  match T with
  | OwnConfig => wasm_config_delete
  | OwnEngine => wasm_engine_delete
  | OwnStore => wasm_store_delete
  | OwnValtype => wasm_valtype_delete
  | OwnFunctype => wasm_functype_delete
  | OwnGlobaltype => wasm_globaltype_delete
  | OwnTabletype => wasm_tabletype_delete
  | OwnMemorytype => wasm_memorytype_delete
  | OwnExterntype => wasm_externtype_delete
  | OwnImporttype => wasm_importtype_delete
  | OwnExporttype => wasm_exporttype_delete
  | OwnRef => wasm_ref_delete
  end.

(** The pointer vectors (WASM_DECLARE_VEC_PTR_IMPL through
    WASM_DECLARE_TYPE_IMPL). *)
Inductive ptr_vec_type : Type :=
| VecValtype | VecFunctype | VecGlobaltype | VecTabletype | VecMemorytype
| VecExterntype | VecImporttype | VecExporttype.

(** The scalar vectors (WASM_DECLARE_VEC_SCALAR_IMPL). *)
Inductive scalar_vec_type : Type :=
| VecByte | VecVal.

Definition wasm_ptr_vec_new (V : ptr_vec_type) : ptr → Z → ptr → M unit :=
  match V with
  | VecValtype => wasm_valtype_vec_new
  | VecFunctype => wasm_functype_vec_new
  | VecGlobaltype => wasm_globaltype_vec_new
  | VecTabletype => wasm_tabletype_vec_new
  | VecMemorytype => wasm_memorytype_vec_new
  | VecExterntype => wasm_externtype_vec_new
  | VecImporttype => wasm_importtype_vec_new
  | VecExporttype => wasm_exporttype_vec_new
  end.

Definition wasm_ptr_vec_delete (V : ptr_vec_type) : ptr → M unit :=
  match V with
  | VecValtype => wasm_valtype_vec_delete
  | VecFunctype => wasm_functype_vec_delete
  | VecGlobaltype => wasm_globaltype_vec_delete
  | VecTabletype => wasm_tabletype_vec_delete
  | VecMemorytype => wasm_memorytype_vec_delete
  | VecExterntype => wasm_externtype_vec_delete
  | VecImporttype => wasm_importtype_vec_delete
  | VecExporttype => wasm_exporttype_vec_delete
  end.

Definition wasm_scalar_vec_copy (V : scalar_vec_type) : ptr → ptr → M unit :=
  match V with
  | VecByte => wasm_byte_vec_copy
  | VecVal => wasm_val_vec_copy
  end.

Definition wasm_scalar_vec_delete (V : scalar_vec_type) : ptr → M unit :=
  match V with
  | VecByte => wasm_byte_vec_delete
  | VecVal => wasm_val_vec_delete
  end.

(** ** Callers of the interface *)

(** No allocation request is going to fail. *)
Definition no_oom (s : state) : Prop := Forall (fun b => b = false) (oom s).

(** A machine with no live block. *)
Definition initial_state : state := State ∅ 1 [] [].

(** Kinds of the elements [i], [i+1], ... of a vector of value types, read
    the way a caller does: [wasm_valtype_kind(vec->data[i])]. *)
Fixpoint valtype_vec_kinds (n : nat) (i : nat) (vec : ptr) : M (list Z) :=
  match n with
  | O => ret []
  | S n' =>
      d <- load_ptr vec vec_data ;;
      e <- load_ptr d i ;;
      k <- wasm_valtype_kind e ;;
      ks <- valtype_vec_kinds n' (S i) vec ;;
      ret (k :: ks)
  end.

(** Size and element kinds of a vector of value types. *)
Definition valtype_vec_read (vec : ptr) : M (Z * list Z) :=
  n <- load_int vec vec_size ;;
  ks <- valtype_vec_kinds (Z.to_nat n) 0 vec ;;
  ret (n, ks).

(** A vector of freshly built value types of the given kinds, in a vector
    structure of the caller. *)
Fixpoint fill_valtypes (kinds : list Z) (arr : ptr) (i : nat) : M unit :=
  match kinds with
  | [] => ret tt
  | k :: rest =>
      t <- wasm_valtype_new k ;;
      storef arr i (val_of_ptr t) ;;
      fill_valtypes rest arr (S i)
  end.

Definition make_valtype_vec (kinds : list Z) : M ptr :=
  arr <- alloca (length kinds) ;;
  fill_valtypes kinds arr 0 ;;
  vec <- alloca 2 ;;
  wasm_valtype_vec_new vec (Z.of_nat (length kinds)) arr ;;
  ret vec.

(** Build a function type and read its parameters and results back. *)
Definition functype_scenario (params results : list Z)
    : M ((Z * list Z) * (Z * list Z)) :=
  vp <- make_valtype_vec params ;;
  vr <- make_valtype_vec results ;;
  ft <- wasm_functype_new vp vr ;;
  p <- wasm_functype_params ft ;;
  rp <- valtype_vec_read p ;;
  r <- wasm_functype_results ft ;;
  rr <- valtype_vec_read r ;;
  ret (rp, rr).

(** Mutability and content kind of a global type, as a caller reads them. *)
Definition globaltype_read (g : ptr) : M (Z * Z) :=
  m <- wasm_globaltype_mutability g ;;
  c <- wasm_globaltype_content g ;;
  k <- wasm_valtype_kind c ;;
  ret (m, k).

(** Build two global types, then read both back. *)
Definition globaltype_scenario (k1 m1 k2 m2 : Z) : M ((Z * Z) * (Z * Z)) :=
  t1 <- wasm_valtype_new k1 ;;
  g1 <- wasm_globaltype_new t1 m1 ;;
  t2 <- wasm_valtype_new k2 ;;
  g2 <- wasm_globaltype_new t2 m2 ;;
  r1 <- globaltype_read g1 ;;
  r2 <- globaltype_read g2 ;;
  ret (r1, r2).


(** ** Shapes of objects in memory *)

(** A constructed reference at [p]: both members hold determinate values. *)
Definition ref_at (s : state) (p : ptr) (host fin : val) : Prop :=
  p ≠ Null
  ∧ loadf p ref_host_info s = Ok host s
  ∧ loadf p ref_finalizer s = Ok fin s
  ∧ host ≠ Vundef ∧ fin ≠ Vundef.

(** The closed sets of discriminants. *)
Definition extern_kinds : list Z :=
  [WASM_EXTERN_FUNC; WASM_EXTERN_GLOBAL; WASM_EXTERN_TABLE; WASM_EXTERN_MEMORY].

Definition value_kinds : list Z :=
  [WASM_I32; WASM_I64; WASM_F32; WASM_F64; WASM_ANYREF; WASM_FUNCREF].

(** ** Sample machines *)

(** Three references: the first two carry the same host data and finalizer,
    the third one another finalizer. *)
Definition ref_state : state :=
  State {[ 1%positive := [Vptr 9 0; Vfun 5];
           2%positive := [Vptr 9 0; Vfun 5];
           3%positive := [Vptr 9 0; Vfun 6];
           9%positive := [Vint 42] ]} 10 [] [].

(** A value type (block 1), a caller's array holding its address (block 2)
    and a caller's vector structure, not yet initialised (block 3). *)
Definition array_state : state :=
  State {[ 1%positive := [Vint WASM_I64];
           2%positive := [Vptr 1 0];
           3%positive := [Vundef; Vundef] ]} 4 [] [].

(** A byte vector holding three bytes (block 1, buffer in block 2), an
    empty byte vector (block 3) and a vector structure that was never
    initialised (block 4). *)
Definition bytes_state : state :=
  State {[ 1%positive := [Vint 3; Vptr 2 0];
           2%positive := [Vint 7; Vint 8; Vint 9];
           3%positive := [Vint 0; Vint 0];
           4%positive := [Vundef; Vundef] ]} 5 [] [].

(** A value whose kind, 7, is none of the six value kinds (block 1), an
    extern type whose kind, 9, is none of the four extern kinds (block 2),
    and room for a value (block 3). *)
Definition stray_kind_state : state :=
  State {[ 1%positive := [Vint 7; Vint 1234];
           2%positive := [Vint 9; Vint 0; Vint 0];
           3%positive := [Vundef; Vundef] ]} 4 [] [].

(** A default configuration (block 1), an engine (block 2) and a limits
    pair of the caller (block 3). *)
Definition engine_state : state :=
  State {[ 1%positive := [Vint 0];
           2%positive := [Vint 0; Vint 0];
           3%positive := [Vint 10; Vint 20] ]} 4 [] [].

(** A vector of two value types: the elements (blocks 1 and 2), the buffer
    (block 3) and the vector structure (block 4); and the same machine once
    the vector has been deleted. *)
Definition vec_state : state :=
  State {[ 1%positive := [Vint WASM_I32];
           2%positive := [Vint WASM_I64];
           3%positive := [Vptr 1 0; Vptr 2 0];
           4%positive := [Vint 2; Vptr 3 0] ]} 5 [] [].

Definition vec_state_deleted : state :=
  State {[ 4%positive := [Vint 0; Vint 0] ]} 5 [] [].


(** An import type whose two names are empty (block 1), over a global type
    (block 2). *)
Definition import_state : state :=
  State {[ 1%positive := [Vint 0; Vint 0; Vint 0; Vint 0; Vptr 2 0];
           2%positive := [Vint WASM_EXTERN_GLOBAL; Vint WASM_I32;
                          Vint WASM_CONST] ]} 3 [] [].


(** A value holding a reference (block 1) to a reference object (block 2)
    with host data (block 9), room for a value (block 3) and a numeric value
    (block 4). *)
Definition val_state : state :=
  State {[ 1%positive := [Vint WASM_ANYREF; Vptr 2 0];
           2%positive := [Vptr 9 0; Vfun 5];
           3%positive := [Vundef; Vundef];
           4%positive := [Vint WASM_I64; Vint 77];
           9%positive := [Vint 42] ]} 10 [] [].

(** A value type of kind FUNCREF (block 1), an array of the caller holding
    its address (block 2) and a limits pair of the caller (block 3). *)
Definition array_limits_state : state :=
  State {[ 1%positive := [Vint WASM_FUNCREF];
           2%positive := [Vptr 1 0];
           3%positive := [Vint 10; Vint 20] ]} 4 [] [].

(** Two vectors of value types of the caller: one element (block 1) in a
    buffer (block 2) with its vector structure (block 4), and an empty
    vector (block 5). *)
Definition two_vecs_state : state :=
  State {[ 1%positive := [Vint WASM_I32];
           2%positive := [Vptr 1 0];
           4%positive := [Vint 1; Vptr 2 0];
           5%positive := [Vint 0; Vint 0] ]} 6 [] [].

(** An import of a global: the module name (structure in block 1, bytes in
    block 2), the item name (structure in block 3, bytes in block 4) and the
    global type (block 5), all still owned by the caller. *)
Definition import_args_state : state :=
  State {[ 1%positive := [Vint 2; Vptr 2 0];
           2%positive := [Vint 109; Vint 111];
           3%positive := [Vint 1; Vptr 4 0];
           4%positive := [Vint 103];
           5%positive := [Vint WASM_EXTERN_GLOBAL; Vint WASM_I32;
                          Vint WASM_CONST] ]} 6 [] [].

(** The extern types whose destructor only releases the object. *)
Definition flat_extern_kind (kind : Z) : Prop :=
  kind = WASM_EXTERN_GLOBAL ∨ kind = WASM_EXTERN_TABLE
  ∨ kind = WASM_EXTERN_MEMORY.


(** The pointer vectors whose element destructor only releases the element
    (value, global, table and memory types). *)
Definition flat_ptr_vec (V : ptr_vec_type) : Prop :=
  V = VecValtype ∨ V = VecGlobaltype ∨ V = VecTabletype ∨ V = VecMemorytype.

(** The buffer of a pointer vector whose slots point at the given blocks. *)
Definition ptrs_of (bs : list positive) : list val :=
  (fun b => Vptr b 0) <$> bs.

(** The live blocks once the given ones have been released, in order. *)
Definition release (bs : list positive) (m : gmap positive (list val))
    : gmap positive (list val) :=
  foldl (fun m b => delete b m) m bs.

(** The block given to the [j]-th allocation made after block [nb] was
    handed out. *)
Definition block_after (nb : positive) (j : nat) : positive :=
  (nb + Pos.of_succ_nat j)%positive.

(** A vector of two value types as in [vec_state], and a vector structure of
    the caller that was never initialised (block 5). *)
Definition vec_copy_state : state :=
  State {[ 1%positive := [Vint WASM_I32];
           2%positive := [Vint WASM_I64];
           3%positive := [Vptr 1 0; Vptr 2 0];
           4%positive := [Vint 2; Vptr 3 0];
           5%positive := [Vundef; Vundef] ]} 6 [] [].

(** A vector of value types in memory: the structure at offset [o] of block
    [b] holds the number of elements and, unless the vector is empty, the
    address of a buffer [bd] whose slots point at the element objects; each
    element is a value type object with its kind.  [elems] lists the element
    blocks with their kinds, in order. *)
Definition valtype_vec_at (m : gmap positive (list val))
    (b : positive) (o : nat) (bd : positive) (elems : list (positive * Z))
    : Prop :=
  ∃ cells,
    m !! b = Some cells
    ∧ cells !! (o + vec_size) = Some (Vint (Z.of_nat (length elems)))
    ∧ (elems ≠ [] →
       cells !! (o + vec_data) = Some (Vptr bd 0)
       ∧ m !! bd = Some (ptrs_of elems.*1))
    ∧ ∀ j e k, elems !! j = Some (e, k) → m !! e = Some [Vint k].

(** No block from [nb] on is live. *)
Definition fresh_from (m : gmap positive (list val)) (nb : positive) : Prop :=
  ∀ b, (nb ≤ b)%positive → m !! b = None.

(** The blocks a vector of value types owns: its buffer and its elements;
    an empty vector owns none. *)
Definition valtype_vec_blocks (bd : positive) (elems : list (positive * Z))
    : list positive :=
  match elems with
  | [] => []
  | _ => bd :: elems.*1
  end.

(** A function type (block 4) with parameters [I32, I64] (blocks 1 and 2,
    buffer in block 3) and no result. *)
Definition functype_state : state :=
  State {[ 1%positive := [Vint WASM_I32];
           2%positive := [Vint WASM_I64];
           3%positive := [Vptr 1 0; Vptr 2 0];
           4%positive := [Vint WASM_EXTERN_FUNC; Vint 2; Vptr 3 0;
                          Vint 0; Vint 0] ]}
        5 [] [].

(** * Verification *)

(** ** Reasoning about computations *)

Lemma bind_Ok_inv {A B} (c : M A) (k : A → M B) s b s' :
  (x <- c ;; k x) s = Ok b s' →
  ∃ a s1, c s = Ok a s1 ∧ k a s1 = Ok b s'.
Proof.
  unfold bind. destruct (c s) as [a s1|]; [|discriminate].
  intros H. by exists a, s1.
Qed.

Lemma alloc_ok n m nb o f :
  head o ≠ Some true →
  alloc n (State m nb o f)
  = Ok (Ptr nb 0)
       (State (<[nb := replicate n Vundef]> m) (Pos.succ nb) (tail o) f).
Proof. unfold alloc; cbn. by destruct o as [|[] ?]. Qed.

Lemma alloc_fail n m nb o f :
  alloc n (State m nb (true :: o) f) = Ok Null (State m nb o f).
Proof. reflexivity. Qed.

Lemma no_oom_head o : Forall (λ b : bool, b = false) o → head o ≠ Some true.
Proof. destruct 1; cbn; congruence. Qed.

Lemma no_oom_tail o :
  Forall (λ b : bool, b = false) o → Forall (λ b : bool, b = false) (tail o).
Proof. destruct 1; cbn; auto. Qed.

#[local] Hint Resolve no_oom_head no_oom_tail : core.

(** Unfolding of the member offsets. *)
Ltac layout :=
  unfold vec_size, vec_data, limits_min, limits_max, val_kind, val_of,
    sizeof_val, config_conf, sizeof_config, engine_conf, engine_interp,
    sizeof_engine, store_engine, store_load, store_valid, store_store,
    sizeof_store, valtype_kind, sizeof_valtype, externtype_kind,
    functype_params, functype_results, sizeof_functype, globaltype_content,
    globaltype_mutability, sizeof_globaltype, tabletype_valtype,
    tabletype_limits, sizeof_tabletype, memorytype_limits, sizeof_memorytype,
    importtype_modname, importtype_name, importtype_type, sizeof_importtype,
    exporttype_name, exporttype_type, sizeof_exporttype, ref_host_info,
    ref_finalizer, sizeof_ref, nullptr, Configure_default, StoreManager_new
    in *.

(** Unfolding of the primitive accesses (allocation is rewritten instead). *)
Ltac prims :=
  unfold new_nothrow, load_int, load_ptr, loadf, storef, field, bind, ret,
    raise, load, store, free, as_int, as_ptr, shift, upd_mem, is_null,
    val_of_ptr in *.

#[local] Arguments Nat.ltb : simpl never.

(** One round of symbolic execution on a state given by its components. *)
Ltac maps :=
  repeat first
    [ rewrite lookup_insert_eq
    | rewrite lookup_insert_ne by lia
    | rewrite lookup_delete_eq
    | rewrite lookup_delete_ne by lia
    | rewrite insert_insert_eq
    | rewrite alloc_ok by auto 20
    | rewrite Nat.add_0_r
    | rewrite length_insert
    | rewrite list_lookup_insert_eq by (rewrite ?length_insert; lia)
    | rewrite list_lookup_insert_ne by lia
    | match goal with
      | |- context [(?a <? ?b)%nat] =>
          rewrite (proj2 (Nat.ltb_lt a b)) by (rewrite ?length_insert; lia)
      end
    | match goal with
      | H : ?m !! ?b = _ |- context [?m !! ?b] => rewrite H
      end
    | match goal with
      | |- context [Z.to_nat (Zpos ?p)] =>
          is_ground p;
          let n := eval vm_compute in (Z.to_nat (Zpos p)) in
          change (Z.to_nat (Zpos p)) with n
      end
    | progress cbn ].

Ltac exec := layout; prims; maps.

(** Lookups through a stack of inserts and deletes. *)
Ltac lookups :=
  repeat first
    [ rewrite lookup_insert_eq
    | rewrite lookup_insert_ne by (done || lia)
    | rewrite lookup_delete_eq
    | rewrite lookup_delete_ne by (done || lia) ];
  try done.

(** ** Casts *)

(** C7: for each of the four variants, the upcast to the base followed by
    the downcast returns the pointer it was given, in the mutable and in the
    const forms; the casts return without touching the machine state, so
    nothing is allocated. *)
Theorem externtype_cast_roundtrip (v : ptr) (s : state) :
  (e <- wasm_functype_as_externtype v ;; wasm_externtype_as_functype e) s
    = Ok v s
  ∧ (e <- wasm_globaltype_as_externtype v ;; wasm_externtype_as_globaltype e) s
    = Ok v s
  ∧ (e <- wasm_tabletype_as_externtype v ;; wasm_externtype_as_tabletype e) s
    = Ok v s
  ∧ (e <- wasm_memorytype_as_externtype v ;; wasm_externtype_as_memorytype e) s
    = Ok v s
  ∧ (e <- wasm_functype_as_externtype_const v ;;
     wasm_externtype_as_functype_const e) s = Ok v s
  ∧ (e <- wasm_globaltype_as_externtype_const v ;;
     wasm_externtype_as_globaltype_const e) s = Ok v s
  ∧ (e <- wasm_tabletype_as_externtype_const v ;;
     wasm_externtype_as_tabletype_const e) s = Ok v s
  ∧ (e <- wasm_memorytype_as_externtype_const v ;;
     wasm_externtype_as_memorytype_const e) s = Ok v s.
Proof. repeat split. Qed.

(** ** References *)

Lemma ptr_eq_defined a b s :
  a ≠ Vundef → b ≠ Vundef → ptr_eq a b s = Ok (bool_decide (a = b)) s.
Proof. by destruct a, b. Qed.

(** C8: [wasm_ref_same] answers false as soon as one argument is null, and on
    two constructed references it answers whether both the [host_info]
    pointers and the [finalizer] pointers are equal; so it is true exactly
    when both are non-null with equal [host_info] and equal [finalizer]. *)
Theorem wasm_ref_same_spec (s : state) :
  (∀ b, wasm_ref_same Null b s = Ok false s)
  ∧ (∀ a ha fa, ref_at s a ha fa → wasm_ref_same a Null s = Ok false s)
  ∧ (∀ a b ha fa hb fb,
       ref_at s a ha fa → ref_at s b hb fb →
       wasm_ref_same a b s = Ok (bool_decide (ha = hb ∧ fa = fb)) s).
Proof.
  split; [done|]. split.
  - intros a ha fa (Ha & _). by destruct a.
  - intros a b ha fa hb fb (Ha & Hha & Hfa & ? & ?) (Hb & Hhb & Hfb & ? & ?).
    destruct a as [|ba oa]; [done|]. destruct b as [|bb ob]; [done|].
    unfold wasm_ref_same, ref_same, bind; cbn [is_null].
    rewrite Hhb, Hha, ptr_eq_defined by done.
    case_bool_decide as Hh.
    + rewrite Hfb, Hfa, ptr_eq_defined by done.
      f_equal. apply bool_decide_ext. split; [intros ->|intros [_ ?]]; auto.
    + f_equal. symmetry. apply bool_decide_eq_false. intros [? _]. auto.
Qed.

Lemma wasm_ref_same_spec_witness :
  ref_at ref_state (Ptr 1 0) (Vptr 9 0) (Vfun 5)
  ∧ ref_at ref_state (Ptr 2 0) (Vptr 9 0) (Vfun 5)
  ∧ wasm_ref_same (Ptr 1 0) (Ptr 2 0) ref_state = Ok true ref_state.
Proof.
  assert (H1 : ref_at ref_state (Ptr 1 0) (Vptr 9 0) (Vfun 5))
    by (repeat split; discriminate).
  assert (H2 : ref_at ref_state (Ptr 2 0) (Vptr 9 0) (Vfun 5))
    by (repeat split; discriminate).
  split; [exact H1|]. split; [exact H2|].
  exact (proj2 (proj2 (wasm_ref_same_spec ref_state)) _ _ _ _ _ _ H1 H2).
Defined.

(** C4: deleting a constructed reference, whatever its [host_info] and its
    finalizer (null or not), releases the block of the reference and nothing
    else: no callback is run (the log of calls is the same) and every other
    block, the embedder's host data included, is as before. *)
Theorem wasm_ref_delete_frame (s : state) (b : positive) (host fin : val) :
  mem s !! b = Some [host; fin] →
  wasm_ref_delete (Ptr b 0) s = Ok tt (upd_mem (delete b) s)
  ∧ finalized (upd_mem (delete b) s) = finalized s
  ∧ mem (upd_mem (delete b) s) !! b = None
  ∧ ∀ b', b' ≠ b → mem (upd_mem (delete b) s) !! b' = mem s !! b'.
Proof.
  intros Hb. destruct s as [m nb o f]; cbn in *.
  unfold wasm_ref_delete, ref_destroy. exec.
  repeat split. intros b' Hne. by rewrite lookup_delete_ne.
Qed.

Lemma wasm_ref_delete_frame_witness :
  mem ref_state !! 1%positive = Some [Vptr 9 0; Vfun 5]
  ∧ wasm_ref_delete (Ptr 1 0) ref_state = Ok tt (upd_mem (delete 1%positive) ref_state)
  ∧ mem (upd_mem (delete 1%positive) ref_state) !! 9%positive = Some [Vint 42].
Proof.
  split; [reflexivity|].
  destruct (wasm_ref_delete_frame ref_state 1 (Vptr 9 0) (Vfun 5) eq_refl)
    as (Hdel & _ & _ & Hframe).
  split; [exact Hdel|].
  rewrite Hframe by discriminate. reflexivity.
Defined.

(** ** Constructors and null arguments *)

(** C1: when the allocation succeeds, the constructors taking a
    configuration, a value type or a limits pair read through that argument
    without testing it, so a null argument is a null dereference: for
    [wasm_engine_new_with_config], [wasm_globaltype_new],
    [wasm_tabletype_new] (null value type, or null limits next to a live
    value type) and [wasm_memorytype_new]. *)
Theorem constructors_fault_on_null (s : state) (mut : Z) (lim : ptr) :
  head (oom s) ≠ Some true →
  wasm_engine_new_with_config Null s = Fault NullDeref
  ∧ wasm_globaltype_new Null mut s = Fault NullDeref
  ∧ wasm_tabletype_new Null lim s = Fault NullDeref
  ∧ wasm_memorytype_new Null s = Fault NullDeref
  ∧ (∀ bv k, mem s !! bv = Some [Vint k] → bv ≠ nextblock s →
       wasm_tabletype_new (Ptr bv 0) Null s = Fault NullDeref).
Proof.
  intros Hoom. destruct s as [m nb o f]; cbn in *.
  unfold wasm_engine_new_with_config, wasm_globaltype_new, wasm_tabletype_new,
    wasm_memorytype_new, globaltype_ctor, tabletype_ctor, memorytype_ctor,
    valtype_ctor_copy, copy_limits.
  repeat split; try (intros bv k Hbv Hne); exec; reflexivity.
Qed.

Lemma constructors_fault_on_null_witness :
  head (oom engine_state) ≠ Some true
  ∧ wasm_engine_new_with_config Null engine_state = Fault NullDeref
  ∧ wasm_globaltype_new Null WASM_VAR engine_state = Fault NullDeref
  ∧ wasm_tabletype_new Null (Ptr 3 0) engine_state = Fault NullDeref
  ∧ wasm_memorytype_new Null engine_state = Fault NullDeref.
Proof.
  assert (H : head (oom engine_state) ≠ Some true) by discriminate.
  split; [exact H|].
  destruct (constructors_fault_on_null engine_state WASM_VAR (Ptr 3 0) H)
    as (H1 & H2 & H3 & H4 & _).
  repeat split; assumption.
Defined.

(** The guard the sibling constructor has: [wasm_store_new] tests its
    argument first. *)
Lemma wasm_store_new_null s : wasm_store_new Null s = Ok Null s.
Proof. reflexivity. Qed.

(** ** Engine and store *)

(** C10: [wasm_store_new] on a null engine returns null and leaves the
    machine state as it is.  On a live engine it returns null only when the
    allocation request fails, live blocks unchanged; otherwise it returns a
    fresh store whose [engine] member is the address of the engine.  The
    engine is only referred to: it is unchanged by the construction, and
    deleting the store releases the store's block and leaves the engine
    live. *)
Theorem wasm_store_new_spec (s : state) :
  wasm_store_new Null s = Ok Null s
  ∧ ∀ be oe cells c,
      mem s !! be = Some cells →
      cells !! (oe + engine_conf) = Some c →
      be ≠ nextblock s →
      (head (oom s) = Some true →
         ∃ s', wasm_store_new (Ptr be oe) s = Ok Null s' ∧ mem s' = mem s)
      ∧ (head (oom s) ≠ Some true →
         ∃ s' s'',
           wasm_store_new (Ptr be oe) s = Ok (Ptr (nextblock s) 0) s'
           ∧ load_ptr (Ptr (nextblock s) 0) store_engine s' = Ok (Ptr be oe) s'
           ∧ mem s' !! be = Some cells
           ∧ wasm_store_delete (Ptr (nextblock s) 0) s' = Ok tt s''
           ∧ mem s'' !! nextblock s = None
           ∧ mem s'' !! be = Some cells).
Proof.
  split; [done|]. intros be oe cells c Hbe Hc Hne.
  destruct s as [m nb o f]; cbn in *. split; intros Hoom.
  - destruct o as [|[] o]; try discriminate.
    eexists. unfold wasm_store_new. exec. done.
  - unfold wasm_store_new, wasm_store_delete. layout.
    rewrite Nat.add_0_r in Hc.
    eexists
      (State (<[nb := [Vptr be oe; c; c; Vint 0]]> m) (Pos.succ nb) (tail o) f),
      (State (delete nb (<[nb := [Vptr be oe; c; c; Vint 0]]> m))
         (Pos.succ nb) (tail o) f).
    prims. maps. repeat split.
Qed.

Lemma wasm_store_new_spec_witness :
  mem engine_state !! 2%positive = Some [Vint 0; Vint 0]
  ∧ ∃ s' s'',
      wasm_store_new (Ptr 2 0) engine_state = Ok (Ptr 4 0) s'
      ∧ load_ptr (Ptr 4 0) store_engine s' = Ok (Ptr 2 0) s'
      ∧ mem s' !! 2%positive = Some [Vint 0; Vint 0]
      ∧ wasm_store_delete (Ptr 4 0) s' = Ok tt s''
      ∧ mem s'' !! 4%positive = None
      ∧ mem s'' !! 2%positive = Some [Vint 0; Vint 0].
Proof.
  split; [reflexivity|].
  refine (proj2 (proj2 (wasm_store_new_spec engine_state)
                   2%positive 0 [Vint 0; Vint 0] (Vint 0) eq_refl eq_refl _) _);
    discriminate.
Defined.

(** ** Dispatch on discriminants *)

Lemma not_extern_kind k :
  k ∉ extern_kinds →
  (k =? WASM_EXTERN_FUNC)%Z = false ∧ (k =? WASM_EXTERN_GLOBAL)%Z = false
  ∧ (k =? WASM_EXTERN_TABLE)%Z = false ∧ (k =? WASM_EXTERN_MEMORY)%Z = false.
Proof.
  unfold extern_kinds. rewrite !not_elem_of_cons.
  intros (? & ? & ? & ? & _). by rewrite !Z.eqb_neq.
Qed.

Lemma not_value_kind k : k ∉ value_kinds → is_ref_kind k = false.
Proof.
  unfold value_kinds, is_ref_kind. rewrite !not_elem_of_cons.
  intros (_ & _ & _ & _ & ? & ? & _).
  apply orb_false_iff. by rewrite !Z.eqb_neq.
Qed.

(** A value of numeric kind is handled the same way as one of stray kind. *)
Lemma numeric_kind_not_ref k :
  k ∈ [WASM_I32; WASM_I64; WASM_F32; WASM_F64] → is_ref_kind k = false.
Proof.
  rewrite !elem_of_cons, elem_of_nil.
  by intros [->|[->|[->|[->|[]]]]].
Qed.

(** C6 (as the code has it): on an extern type whose kind is none of the
    four extern kinds, [wasm_externtype_copy] and [wasm_externtype_delete]
    reach the unreachable default of their dispatch.  On a value whose kind is
    none of the six value kinds, [wasm_val_delete] and [wasm_val_copy] take
    the branch of the numeric kinds and return normally: the payload is
    zeroed, respectively the kind and the payload are copied as they are. *)
Theorem invalid_discriminant_dispatch (s : state) :
  (∀ b o cells k,
     mem s !! b = Some cells →
     cells !! (o + externtype_kind) = Some (Vint k) →
     k ∉ extern_kinds →
     wasm_externtype_copy (Ptr b o) s = Fault Unreachable
     ∧ wasm_externtype_delete (Ptr b o) s = Fault Unreachable)
  ∧ (∀ b o cells k payload,
       mem s !! b = Some cells →
       cells !! (o + val_kind) = Some (Vint k) →
       cells !! (o + val_of) = Some payload →
       k ∉ value_kinds →
       wasm_val_delete (Ptr b o) s
       = Ok tt (upd_mem (insert b (<[o + val_of := Vint 0]> cells)) s)
       ∧ ∀ bo oo ocells,
           bo ≠ b →
           mem s !! bo = Some ocells →
           oo + val_of < length ocells →
           wasm_val_copy (Ptr bo oo) (Ptr b o) s
           = Ok tt (upd_mem
                      (insert bo (<[oo + val_of := payload]>
                                    (<[oo + val_kind := Vint k]> ocells))) s)).
Proof.
  destruct s as [m nb o f]; cbn. split.
  - intros b off cells k Hb Hk Hkind.
    apply not_extern_kind in Hkind as (E1 & E2 & E3 & E4).
    unfold wasm_externtype_copy, wasm_externtype_delete, externtype_copy,
      externtype_destroy.
    layout. rewrite Nat.add_0_r in Hk. prims. maps.
    rewrite E1, E2, E3, E4. done.
  - intros b off cells k payload Hb Hk Hp Hkind.
    apply not_value_kind in Hkind.
    pose proof (lookup_lt_Some _ _ _ Hp) as Hlen.
    unfold wasm_val_delete, wasm_val_copy.
    layout. rewrite Nat.add_0_r in Hk. split.
    + prims. maps. rewrite Hkind. maps. done.
    + intros bo oo ocells Hne Hbo Holen.
      prims. maps. rewrite Hkind. maps. done.
Qed.

Lemma invalid_discriminant_dispatch_witness :
  (7%Z ∉ value_kinds) ∧ (9%Z ∉ extern_kinds)
  ∧ wasm_externtype_copy (Ptr 2 0) stray_kind_state = Fault Unreachable
  ∧ wasm_externtype_delete (Ptr 2 0) stray_kind_state = Fault Unreachable
  ∧ wasm_val_delete (Ptr 1 0) stray_kind_state
    = Ok tt (upd_mem (insert 1%positive [Vint 7; Vint 0]) stray_kind_state)
  ∧ wasm_val_copy (Ptr 3 0) (Ptr 1 0) stray_kind_state
    = Ok tt (upd_mem (insert 3%positive [Vint 7; Vint 1234]) stray_kind_state).
Proof.
  assert (H7 : 7%Z ∉ value_kinds).
  { unfold value_kinds. rewrite !not_elem_of_cons.
    repeat split; try discriminate. apply not_elem_of_nil. }
  assert (H9 : 9%Z ∉ extern_kinds).
  { unfold extern_kinds. rewrite !not_elem_of_cons.
    repeat split; try discriminate. apply not_elem_of_nil. }
  split; [exact H7|]. split; [exact H9|].
  destruct (invalid_discriminant_dispatch stray_kind_state) as [He Hv].
  destruct (He 2%positive 0 [Vint 9; Vint 0; Vint 0] 9%Z eq_refl eq_refl H9)
    as [Hc Hd].
  destruct (Hv 1%positive 0 [Vint 7; Vint 1234] 7%Z (Vint 1234)
              eq_refl eq_refl eq_refl H7) as [Hdel Hcopy].
  split; [exact Hc|]. split; [exact Hd|]. split; [exact Hdel|].
  refine (Hcopy 3%positive 0 [Vundef; Vundef] _ eq_refl _).
  - discriminate.
  - unfold val_of. cbn. lia.
Defined.

(** C6 as the specification words it fails for values: a value of stray
    kind is deleted without any fault. *)
Lemma val_delete_stray_kind_no_fault :
  ¬ (∀ s v k,
       load_int v val_kind s = Ok k s → k ∉ value_kinds →
       ∃ f, wasm_val_delete v s = Fault f).
Proof.
  intros H.
  destruct (H stray_kind_state (Ptr 1 0) 7%Z eq_refl) as [f Hf].
  - unfold value_kinds. rewrite !not_elem_of_cons.
    repeat split; try discriminate. apply not_elem_of_nil.
  - vm_compute in Hf. discriminate.
Qed.

(** ** Vectors *)

(** C3 (what the scalar copy does): copying an empty source with
    [wasm_byte_vec_copy] or [wasm_val_vec_copy] stores size 0 in [out] and
    does not write [out->data], which keeps whatever it held before, null or
    not. *)
Theorem scalar_vec_copy_empty_keeps_data (V : scalar_vec_type) (s : state)
    (bo : positive) (oo : nat) (ocells : list val) (stale : val)
    (bi : positive) (oi : nat) (icells : list val) :
  mem s !! bo = Some ocells →
  ocells !! (oo + vec_data) = Some stale →
  mem s !! bi = Some icells →
  icells !! (oi + vec_size) = Some (Vint 0) →
  bo ≠ bi →
  ∃ s',
    wasm_scalar_vec_copy V (Ptr bo oo) (Ptr bi oi) s = Ok tt s'
    ∧ loadf (Ptr bo oo) vec_size s' = Ok (Vint 0) s'
    ∧ loadf (Ptr bo oo) vec_data s' = Ok stale s'.
Proof.
  intros Hbo Hstale Hbi Hsz Hne. destruct s as [m nb o f]; cbn in *.
  pose proof (lookup_lt_Some _ _ _ Hstale) as Hlen.
  exists (State (<[bo := <[oo := Vint 0]> ocells]> m) nb o f).
  layout. rewrite Nat.add_0_r in Hsz.
  destruct V; unfold wasm_scalar_vec_copy, wasm_byte_vec_copy,
    wasm_val_vec_copy, scalar_vec_copy; exec; done.
Qed.

Lemma scalar_vec_copy_empty_keeps_data_witness :
  (∃ s',
     wasm_byte_vec_copy (Ptr 4 0) (Ptr 3 0) bytes_state = Ok tt s'
     ∧ loadf (Ptr 4 0) vec_size s' = Ok (Vint 0) s'
     ∧ loadf (Ptr 4 0) vec_data s' = Ok Vundef s')
  ∧ (∃ s',
       wasm_byte_vec_copy (Ptr 1 0) (Ptr 3 0) bytes_state = Ok tt s'
       ∧ loadf (Ptr 1 0) vec_size s' = Ok (Vint 0) s'
       ∧ loadf (Ptr 1 0) vec_data s' = Ok (Vptr 2 0) s').
Proof.
  split.
  - refine (scalar_vec_copy_empty_keeps_data VecByte bytes_state
              4%positive 0 [Vundef; Vundef] Vundef
              3%positive 0 [Vint 0; Vint 0] eq_refl eq_refl eq_refl eq_refl _).
    discriminate.
  - refine (scalar_vec_copy_empty_keeps_data VecByte bytes_state
              1%positive 0 [Vint 3; Vptr 2 0] (Vptr 2 0)
              3%positive 0 [Vint 0; Vint 0] eq_refl eq_refl eq_refl eq_refl _).
    discriminate.
Defined.

(** The same path inside the file: the copy constructor of
    [wasm_importtype_t] hands its own, not yet initialised name members to
    [wasm_name_copy]; copying an import type with empty names gives names
    of size 0 whose data pointer is indeterminate. *)
Lemma importtype_copy_empty_names_indeterminate :
  ∃ s',
    wasm_importtype_copy (Ptr 1 0) import_state = Ok (Ptr 3 0) s'
    ∧ mem s' !! 3%positive
      = Some [Vint 0; Vundef; Vint 0; Vundef; Vptr 4 0].
Proof. eexists. split; vm_compute; reflexivity. Qed.

(** The sibling path: the copy of pointer vectors resets [out->data] before
    it looks at the size, so an empty source leaves size 0 and data null. *)
Lemma ptr_vec_copy_empty_resets_data elem_copy (s : state)
    (bo : positive) (oo : nat) (ocells : list val)
    (bi : positive) (oi : nat) (icells : list val) :
  mem s !! bo = Some ocells →
  oo + vec_data < length ocells →
  mem s !! bi = Some icells →
  icells !! (oi + vec_size) = Some (Vint 0) →
  bo ≠ bi →
  ∃ s',
    ptr_vec_copy elem_copy (Ptr bo oo) (Ptr bi oi) s = Ok tt s'
    ∧ loadf (Ptr bo oo) vec_size s' = Ok (Vint 0) s'
    ∧ loadf (Ptr bo oo) vec_data s' = Ok nullptr s'.
Proof.
  intros Hbo Hlen Hbi Hsz Hne. destruct s as [m nb o f]; cbn in *.
  exists (State (<[bo := <[oo + 1 := Vint 0]> (<[oo := Vint 0]> ocells)]> m)
            nb o f).
  layout. rewrite Nat.add_0_r in Hsz.
  unfold ptr_vec_copy; exec; done.
Qed.

(** [std::copy_n] between two distinct blocks overwrites [n] cells of the
    destination with the [n] source cells and changes nothing else. *)
Lemma copy_n_spec n :
  ∀ m nb o f bs os cs bd od cd,
    bs ≠ bd →
    m !! bs = Some cs →
    m !! bd = Some cd →
    os + n ≤ length cs →
    od + n ≤ length cd →
    copy_n n (Ptr bs os) (Ptr bd od) (State m nb o f)
    = Ok tt (State (<[bd := take od cd ++ take n (drop os cs)
                              ++ drop (od + n) cd]> m) nb o f).
Proof.
  induction n as [|n IH]; intros m nb o f bs os cs bd od cd Hne Hs Hd Hls Hld.
  - cbn [copy_n]. unfold ret. rewrite Nat.add_0_r, take_0. cbn [app].
    rewrite take_drop, insert_id; done.
  - destruct (lookup_lt_is_Some_2 cs os) as [v Hv]; [lia|].
    cbn [copy_n]. prims. cbn. rewrite Hs, Hv. cbn. rewrite Hd.
    rewrite (proj2 (Nat.ltb_lt od (length cd))) by lia. cbn.
    rewrite (IH _ _ _ _ bs (os + 1) cs bd (od + 1) (<[od := v]> cd));
      rewrite ?length_insert, ?lookup_insert_eq, ?lookup_insert_ne by done;
      try done; try lia.
    rewrite insert_insert_eq. do 3 f_equal.
    rewrite !Nat.add_1_r.
    rewrite (take_S_r _ _ v) by (apply list_lookup_insert_eq; lia).
    rewrite take_insert_ge by lia.
    rewrite drop_insert_lt by lia.
    rewrite (drop_S cs v os) by done.
    rewrite <- app_assoc. cbn [take app].
    by replace (S od + n) with (od + S n) by lia.
Qed.

(** C2 (as the code has it): for every pointer-vector type and every size
    above zero, when the allocation succeeds [wasm_<name>_vec_new] copies
    the source slots into a fresh buffer and leaves the caller's array as it
    was: after the call, slot [i] of the source still holds the pointer it
    held before, and slot [i] of the vector holds the same pointer. *)
Theorem ptr_vec_new_keeps_source (V : ptr_vec_type) (s : state)
    (bo : positive) (oo : nat) (ocells : list val)
    (bv : positive) (ov : nat) (vcells : list val) (size : Z) :
  mem s !! bo = Some ocells →
  oo + vec_data < length ocells →
  mem s !! bv = Some vcells →
  ov + Z.to_nat size ≤ length vcells →
  (0 < size)%Z →
  bo ≠ bv →
  mem s !! nextblock s = None →
  head (oom s) ≠ Some true →
  ∃ s',
    wasm_ptr_vec_new V (Ptr bo oo) size (Ptr bv ov) s = Ok tt s'
    ∧ loadf (Ptr bo oo) vec_size s' = Ok (Vint size) s'
    ∧ loadf (Ptr bo oo) vec_data s' = Ok (Vptr (nextblock s) 0) s'
    ∧ mem s' !! bv = Some vcells
    ∧ ∀ i v,
        i < Z.to_nat size →
        load (Ptr bv (ov + i)) s = Ok v s →
        load (Ptr bv (ov + i)) s' = Ok v s'
        ∧ load (Ptr (nextblock s) i) s' = Ok v s'.
Proof.
  intros Hbo Holen Hbv Hvlen Hsize Hne Hfresh Hoom.
  destruct s as [m nb o f]; cbn in *.
  assert (bo ≠ nb) by congruence. assert (bv ≠ nb) by congruence.
  set (n := Z.to_nat size) in *.
  eexists. split.
  - assert (wasm_ptr_vec_new V = vec_new 1) as -> by (by destruct V).
    unfold vec_new. layout. prims. maps.
    rewrite (proj2 (Z.ltb_lt 0 size)) by done. maps.
    fold n. rewrite Nat.mul_1_r.
    rewrite (copy_n_spec n _ _ _ _ bv ov vcells nb 0 (replicate n Vundef));
      [|done|by lookups|by lookups|lia|rewrite length_replicate; lia].
    rewrite take_0, drop_replicate, Nat.sub_diag. cbn [app replicate plus].
    rewrite app_nil_r. reflexivity.
  - split; [by exec|]. split; [by exec|]. split; [by exec|].
    intros i v Hi Hv. unfold load in *. cbn in *. rewrite Hbv in Hv.
    destruct (vcells !! (ov + i)) as [v'|] eqn:Hcell; [|done].
    injection Hv as ->. lookups. rewrite Hbv, Hcell.
    by rewrite lookup_take_lt, lookup_drop, Hcell.
Qed.

Lemma ptr_vec_new_keeps_source_witness :
  ∃ s',
    wasm_valtype_vec_new (Ptr 3 0) 1 (Ptr 2 0) array_state = Ok tt s'
    ∧ loadf (Ptr 3 0) vec_size s' = Ok (Vint 1) s'
    ∧ loadf (Ptr 3 0) vec_data s' = Ok (Vptr 4 0) s'
    ∧ load (Ptr 2 0) s' = Ok (Vptr 1 0) s'
    ∧ load (Ptr 4 0) s' = Ok (Vptr 1 0) s'.
Proof.
  destruct (ptr_vec_new_keeps_source VecValtype array_state
              3%positive 0 [Vundef; Vundef] 2%positive 0 [Vptr 1 0] 1%Z)
    as (s' & Hnew & Hsize & Hdata & _ & Hslots);
    try reflexivity; try discriminate.
  - unfold vec_data. cbn. lia.
  - exists s'. repeat split; try assumption;
      apply (Hslots 0 (Vptr 1 0)); (cbn; lia) || reflexivity.
Defined.

(** C2 as the specification words it fails: after the vector is built, the
    source slot still holds the pointer that was moved out of it. *)
Lemma vec_new_source_not_cleared :
  ¬ (∀ V s out size vals s',
       (0 < size)%Z →
       wasm_ptr_vec_new V out size vals s = Ok tt s' →
       ∀ i, i < Z.to_nat size → load (shift vals i) s' = Ok nullptr s').
Proof.
  intros H.
  destruct (wasm_ptr_vec_new VecValtype (Ptr 3 0) 1 (Ptr 2 0) array_state)
    as [[] s'|] eqn:E; [|vm_compute in E; discriminate].
  assert (Hi : 0 < Z.to_nat 1) by (cbn; lia).
  specialize (H VecValtype array_state (Ptr 3 0) 1%Z (Ptr 2 0) s' eq_refl E 0 Hi).
  vm_compute in E. injection E as <-. vm_compute in H. discriminate.
Qed.

(** ** Destruction *)

Lemma store_Ok_inv p v s s' :
  store p v s = Ok tt s' →
  ∃ b o cells,
    p = Ptr b o ∧ mem s !! b = Some cells ∧ o < length cells
    ∧ s' = upd_mem (insert b (<[o := v]> cells)) s.
Proof.
  unfold store. destruct p as [|b o]; [discriminate|].
  destruct (mem s !! b) as [cells|] eqn:Hb; [|discriminate].
  destruct (o <? length cells)%nat eqn:Hlt; [|discriminate].
  intros [= <-]. apply Nat.ltb_lt in Hlt. by exists b, o, cells.
Qed.

(** Any computation that ends with the two stores [vec->size = 0;
    vec->data = nullptr] leaves a vector that reads as empty. *)
Lemma reset_tail_inv (body : M unit) (vec : ptr) s s' :
  (body ;; storef vec vec_size (Vint 0) ;; storef vec vec_data nullptr) s
    = Ok tt s' →
  ∃ b o cells,
    vec = Ptr b o ∧ mem s' !! b = Some cells
    ∧ cells !! o = Some (Vint 0) ∧ cells !! (o + 1) = Some (Vint 0).
Proof.
  intros H.
  apply bind_Ok_inv in H as (? & s1 & _ & H).
  apply bind_Ok_inv in H as ([] & s2 & H1 & H2).
  unfold storef in *.
  apply store_Ok_inv in H1 as (b1 & o1 & c1 & Hp1 & Hb1 & Hl1 & ->).
  apply store_Ok_inv in H2 as (b2 & o2 & c2 & Hp2 & Hb2 & Hl2 & ->).
  destruct vec as [|b o]; [discriminate|].
  layout. cbn in Hp1, Hp2. injection Hp1 as <- <-. injection Hp2 as <- <-.
  cbn in Hb2. rewrite lookup_insert_eq in Hb2. injection Hb2 as <-.
  rewrite length_insert in Hl2.
  exists b, o, (<[o + 1 := nullptr]> (<[o + 0 := Vint 0]> c1)).
  split; [done|]. cbn. rewrite lookup_insert_eq. split; [done|].
  rewrite Nat.add_0_r in *. split.
  - rewrite list_lookup_insert_ne by lia.
    by rewrite list_lookup_insert_eq.
  - rewrite list_lookup_insert_eq; [done|]. by rewrite length_insert.
Qed.

(** Storing what a cell already holds changes nothing. *)
Lemma store_same b o cells v s :
  mem s !! b = Some cells → cells !! o = Some v →
  store (Ptr b o) v s = Ok tt s.
Proof.
  intros Hb Hv. unfold store. rewrite Hb.
  rewrite (proj2 (Nat.ltb_lt o (length cells)))
    by eauto using lookup_lt_Some.
  destruct s as [m nb oo f]; cbn in *. unfold upd_mem; cbn.
  by rewrite list_insert_id, insert_id.
Qed.

Lemma load_cell b o cells v s :
  mem s !! b = Some cells → cells !! o = Some v →
  load (Ptr b o) s = Ok v s.
Proof. intros Hb Hv. unfold load. by rewrite Hb, Hv. Qed.

(** Deleting a vector that reads as empty is a no-op. *)
Lemma vec_delete_empty elem_delete b o cells s :
  mem s !! b = Some cells →
  cells !! o = Some (Vint 0) → cells !! (o + 1) = Some (Vint 0) →
  ptr_vec_delete elem_delete (Ptr b o) s = Ok tt s
  ∧ scalar_vec_delete (Ptr b o) s = Ok tt s.
Proof.
  intros Hb H0 H1.
  unfold ptr_vec_delete, scalar_vec_delete, load_int, loadf, storef, bind.
  layout. cbn [is_null shift]. rewrite Nat.add_0_r.
  rewrite (load_cell b o cells (Vint 0)) by done. cbn -[store].
  rewrite (store_same b o cells) by done.
  by rewrite (store_same b (o + 1) cells).
Qed.

Lemma ptr_vec_delete_twice elem_delete vec s s' :
  ptr_vec_delete elem_delete vec s = Ok tt s' →
  ptr_vec_delete elem_delete vec s' = Ok tt s'
  ∧ (vec ≠ Null →
     loadf vec vec_size s' = Ok (Vint 0) s'
     ∧ loadf vec vec_data s' = Ok nullptr s').
Proof.
  destruct vec as [|b o]; [by intros [= <-]|].
  unfold ptr_vec_delete at 1. cbn [is_null]. intros H.
  apply bind_Ok_inv in H as (n & s0 & _ & H).
  apply reset_tail_inv in H as (b' & o' & cells & [= <- <-] & Hb & H0 & H1).
  split; [by eapply vec_delete_empty|].
  intros _. unfold loadf. layout. cbn [shift]. rewrite Nat.add_0_r.
  split; by eapply load_cell.
Qed.

Lemma scalar_vec_delete_twice vec s s' :
  scalar_vec_delete vec s = Ok tt s' →
  scalar_vec_delete vec s' = Ok tt s'
  ∧ (vec ≠ Null →
     loadf vec vec_size s' = Ok (Vint 0) s'
     ∧ loadf vec vec_data s' = Ok nullptr s').
Proof.
  destruct vec as [|b o]; [by intros [= <-]|].
  unfold scalar_vec_delete at 1. cbn [is_null]. intros H.
  apply bind_Ok_inv in H as (n & s0 & _ & H).
  apply reset_tail_inv in H as (b' & o' & cells & [= <- <-] & Hb & H0 & H1).
  split; [exact (proj2 (vec_delete_empty (λ _, ret tt) b o cells s' Hb H0 H1))|].
  intros _. unfold loadf. layout. cbn [shift]. rewrite Nat.add_0_r.
  split; by eapply load_cell.
Qed.

(** A computation that ends with [delete p] and returns has released the
    block of [p]. *)
Lemma free_Ok_inv b o s s' :
  free (Ptr b o) s = Ok tt s' → o = 0 ∧ mem s' !! b = None.
Proof.
  unfold free. destruct o; [|discriminate].
  destruct (mem s !! b); [|discriminate].
  intros [= <-]. split; [done|]. cbn. by rewrite lookup_delete_eq.
Qed.

Lemma free_tail_inv {A} (body : M A) b o s s' :
  (body ;; free (Ptr b o)) s = Ok tt s' → o = 0 ∧ mem s' !! b = None.
Proof.
  intros H. apply bind_Ok_inv in H as (? & s1 & _ & H).
  by apply free_Ok_inv in H.
Qed.

(** A handle delete that returned has released the object. *)
Lemma handle_deleted_is_dead T b o s s' :
  wasm_delete T (Ptr b o) s = Ok tt s' → o = 0 ∧ mem s' !! b = None.
Proof.
  destruct T; cbn [wasm_delete];
    unfold wasm_config_delete, wasm_engine_delete, wasm_store_delete,
      wasm_valtype_delete, wasm_functype_delete, functype_destroy,
      wasm_globaltype_delete, wasm_tabletype_delete, wasm_memorytype_delete,
      wasm_externtype_delete, wasm_importtype_delete, wasm_exporttype_delete,
      wasm_ref_delete, ref_destroy;
    cbn [is_null]; intros H;
    try (by apply free_Ok_inv in H); try (by apply free_tail_inv in H).
  unfold externtype_destroy in H.
  apply bind_Ok_inv in H as (kind & s1 & _ & H).
  destruct (kind =? WASM_EXTERN_FUNC)%Z.
  { apply bind_Ok_inv in H as (x & s2 & [= <- <-] & H).
    by apply free_tail_inv in H. }
  repeat (destruct (kind =? _)%Z;
          [apply bind_Ok_inv in H as (x & s2 & [= <- <-] & H);
           by apply free_Ok_inv in H|]).
  discriminate.
Qed.

(** Deleting a handle whose block is not live faults. *)
Lemma delete_dead_faults T b o s :
  mem s !! b = None → ∃ f, wasm_delete T (Ptr b o) s = Fault f.
Proof.
  intros Hdead. destruct s as [m nb oo fl]; cbn in Hdead.
  destruct T; cbn [wasm_delete];
    unfold wasm_config_delete, wasm_engine_delete, wasm_store_delete,
      wasm_valtype_delete, wasm_functype_delete, functype_destroy,
      functype_dtor, wasm_valtype_vec_delete, ptr_vec_delete,
      wasm_globaltype_delete, wasm_tabletype_delete, wasm_memorytype_delete,
      wasm_externtype_delete, externtype_destroy, wasm_importtype_delete,
      importtype_dtor, wasm_exporttype_delete, exporttype_dtor,
      wasm_name_delete, wasm_byte_vec_delete, scalar_vec_delete,
      wasm_ref_delete, ref_destroy;
    exec; try destruct o; eauto.
Qed.

(** C5 (as the code has it): for every handle type and every vector type,
    delete of null is a no-op.  For every vector type, a delete that
    returned leaves the vector with size 0 and null data, and deleting the
    same vector again changes nothing.  For every handle type, a delete that
    returned has released the object, and deleting the same handle again
    is a fault instead of a no-op. *)
Theorem delete_null_and_vec_delete_twice :
  (∀ T s, wasm_delete T Null s = Ok tt s)
  ∧ (∀ V s, wasm_ptr_vec_delete V Null s = Ok tt s)
  ∧ (∀ V s, wasm_scalar_vec_delete V Null s = Ok tt s)
  ∧ (∀ V vec s s',
       wasm_ptr_vec_delete V vec s = Ok tt s' →
       wasm_ptr_vec_delete V vec s' = Ok tt s'
       ∧ (vec ≠ Null →
          loadf vec vec_size s' = Ok (Vint 0) s'
          ∧ loadf vec vec_data s' = Ok nullptr s'))
  ∧ (∀ V vec s s',
       wasm_scalar_vec_delete V vec s = Ok tt s' →
       wasm_scalar_vec_delete V vec s' = Ok tt s'
       ∧ (vec ≠ Null →
          loadf vec vec_size s' = Ok (Vint 0) s'
          ∧ loadf vec vec_data s' = Ok nullptr s'))
  ∧ (∀ T b o s s',
       wasm_delete T (Ptr b o) s = Ok tt s' →
       mem s' !! b = None
       ∧ ∃ f, wasm_delete T (Ptr b o) s' = Fault f).
Proof.
  split; [by intros []|]. split; [by intros []|]. split; [by intros []|].
  split; [|split].
  - intros [] vec s s'; apply ptr_vec_delete_twice.
  - intros [] vec s s'; apply scalar_vec_delete_twice.
  - intros T b o s s' H. apply handle_deleted_is_dead in H as [_ Hdead].
    split; [done|]. by apply delete_dead_faults.
Qed.

Lemma delete_null_and_vec_delete_twice_witness :
  wasm_valtype_vec_delete (Ptr 4 0) vec_state = Ok tt vec_state_deleted
  ∧ wasm_valtype_vec_delete (Ptr 4 0) vec_state_deleted
    = Ok tt vec_state_deleted.
Proof.
  assert (H : wasm_ptr_vec_delete VecValtype (Ptr 4 0) vec_state
              = Ok tt vec_state_deleted) by (vm_compute; reflexivity).
  split; [exact H|].
  destruct delete_null_and_vec_delete_twice as (_ & _ & _ & Hptr & _ & _).
  exact (proj1 (Hptr VecValtype (Ptr 4 0) vec_state vec_state_deleted H)).
Defined.

(** C5 as the specification words it fails for handles: the second delete
    of the same value type finds its block released already. *)
Lemma handle_delete_twice_faults :
  ¬ (∀ T x s s',
       wasm_delete T x s = Ok tt s' → wasm_delete T x s' = Ok tt s').
Proof.
  intros H.
  specialize (H OwnValtype (Ptr 1 0) array_state
                (upd_mem (delete 1%positive) array_state) eq_refl).
  vm_compute in H. discriminate.
Qed.

(** What the second delete of a handle does. *)
Lemma handle_delete_twice_invalid_free :
  (wasm_valtype_delete (Ptr 1 0) ;; wasm_valtype_delete (Ptr 1 0)) array_state
  = Fault InvalidFree.
Proof. reflexivity. Qed.

(** ** Construction and accessors *)

(** C9: when no allocation fails, a function type built from parameters
    [I32, I64] and results [F32] reports a parameter vector of size 2 with
    kinds I32, I64 in that order and a result vector of size 1 with kind
    F32; and of two global types built one after the other from any value
    kinds and mutabilities, each reports the mutability and the content kind
    it was built from. *)
Theorem construct_then_read_back (s : state) :
  no_oom s →
  (∃ s', functype_scenario [WASM_I32; WASM_I64] [WASM_F32] s
         = Ok ((2%Z, [WASM_I32; WASM_I64]), (1%Z, [WASM_F32])) s')
  ∧ ∀ k1 m1 k2 m2,
      ∃ s', globaltype_scenario k1 m1 k2 m2 s = Ok ((m1, k1), (m2, k2)) s'.
Proof.
  destruct s as [m nb o f]. unfold no_oom; cbn [oom]. intros Hoom.
  split; [|intros k1 m1 k2 m2]; eexists.
  - unfold functype_scenario, make_valtype_vec, valtype_vec_read,
      wasm_functype_new, functype_ctor, swap_vec, wasm_functype_params,
      wasm_functype_results, wasm_valtype_vec_new, vec_new.
    cbn [fill_valtypes length].
    change (Z.of_nat 2) with 2%Z. change (Z.of_nat 1) with 1%Z.
    unfold wasm_valtype_new, alloca.
    repeat (progress (unfold wasm_valtype_kind; exec)). reflexivity.
  - unfold globaltype_scenario, globaltype_read, wasm_globaltype_new,
      globaltype_ctor, valtype_ctor_copy, wasm_valtype_delete,
      wasm_valtype_new, wasm_globaltype_mutability, wasm_globaltype_content,
      wasm_valtype_kind. exec. reflexivity.
Qed.

Lemma construct_then_read_back_witness :
  no_oom initial_state
  ∧ (∃ s', functype_scenario [WASM_I32; WASM_I64] [WASM_F32] initial_state
           = Ok ((2%Z, [WASM_I32; WASM_I64]), (1%Z, [WASM_F32])) s')
  ∧ (∃ s', globaltype_scenario WASM_I64 WASM_VAR WASM_F32 WASM_CONST
             initial_state
           = Ok ((WASM_VAR, WASM_I64), (WASM_CONST, WASM_F32)) s').
Proof.
  assert (H : no_oom initial_state) by constructor.
  split; [exact H|].
  destruct (construct_then_read_back initial_state H) as [Hf Hg].
  split; [exact Hf|]. exact (Hg WASM_I64 WASM_VAR WASM_F32 WASM_CONST).
Defined.

(** * Further properties of the object layer *)

(** ** References: identity, copies and host data *)

#[local] Arguments ptr_eq : simpl never.

Lemma ref_same_eval s a b ha fa hb fb :
  ref_at s a ha fa → ref_at s b hb fb →
  wasm_ref_same a b s = Ok (bool_decide (ha = hb ∧ fa = fb)) s.
Proof.
  intros (Ha & Hha & Hfa & ? & ?) (Hb & Hhb & Hfb & ? & ?).
  destruct a as [|ba oa]; [done|]. destruct b as [|bb ob]; [done|].
  unfold wasm_ref_same, ref_same, bind; cbn [is_null].
  rewrite Hhb, Hha, ptr_eq_defined by done.
  case_bool_decide as Hh.
  - rewrite Hfb, Hfa, ptr_eq_defined by done.
    f_equal. apply bool_decide_ext. split; [intros ->|intros [_ ?]]; auto.
  - f_equal. symmetry. apply bool_decide_eq_false. intros [? _]. auto.
Qed.

(** X1: on constructed references [wasm_ref_same] is an equivalence: it is
    reflexive, symmetric and transitive, whatever the addresses of the
    reference objects themselves. *)
Theorem wasm_ref_same_equivalence (s : state) (a b c : ptr)
    (ha fa hb fb hc fc : val) :
  ref_at s a ha fa → ref_at s b hb fb → ref_at s c hc fc →
  wasm_ref_same a a s = Ok true s
  ∧ wasm_ref_same a b s = wasm_ref_same b a s
  ∧ (wasm_ref_same a b s = Ok true s →
     wasm_ref_same b c s = Ok true s →
     wasm_ref_same a c s = Ok true s).
Proof.
  intros Ha Hb Hc.
  rewrite (ref_same_eval s a a ha fa ha fa), (ref_same_eval s a b ha fa hb fb),
    (ref_same_eval s b a hb fb ha fa), (ref_same_eval s b c hb fb hc fc),
    (ref_same_eval s a c ha fa hc fc) by done.
  split; [by rewrite bool_decide_eq_true_2|]. split.
  - f_equal. apply bool_decide_ext. split; intros [-> ->]; done.
  - intros Hab Hbc. f_equal. apply bool_decide_eq_true.
    assert (ha = hb ∧ fa = fb) as [-> ->]
      by (apply (bool_decide_eq_true_1 _); congruence).
    apply (bool_decide_eq_true_1 _); congruence.
Qed.

Lemma wasm_ref_same_equivalence_witness :
  wasm_ref_same (Ptr 1 0) (Ptr 1 0) ref_state = Ok true ref_state
  ∧ wasm_ref_same (Ptr 1 0) (Ptr 3 0) ref_state
    = wasm_ref_same (Ptr 3 0) (Ptr 1 0) ref_state.
Proof.
  assert (H1 : ref_at ref_state (Ptr 1 0) (Vptr 9 0) (Vfun 5))
    by (repeat split; discriminate).
  assert (H2 : ref_at ref_state (Ptr 2 0) (Vptr 9 0) (Vfun 5))
    by (repeat split; discriminate).
  assert (H3 : ref_at ref_state (Ptr 3 0) (Vptr 9 0) (Vfun 6))
    by (repeat split; discriminate).
  destruct (wasm_ref_same_equivalence ref_state (Ptr 1 0) (Ptr 3 0) (Ptr 2 0)
              _ _ _ _ _ _ H1 H3 H2) as (Hr & Hs & _).
  split; assumption.
Defined.

(** X2: when the allocation succeeds, [wasm_ref_copy] of a constructed
    reference returns a new object that is the same reference as the
    original ([wasm_ref_same] answers true both ways) and leaves the
    original as it was; deleting the copy afterwards leaves the original
    reference live and unchanged. *)
Theorem wasm_ref_copy_same (s : state) (b : positive) (host fin : val) :
  mem s !! b = Some [host; fin] →
  host ≠ Vundef → fin ≠ Vundef →
  b ≠ nextblock s →
  head (oom s) ≠ Some true →
  ∃ s' s'',
    wasm_ref_copy (Ptr b 0) s = Ok (Ptr (nextblock s) 0) s'
    ∧ mem s' !! nextblock s = Some [host; fin]
    ∧ mem s' !! b = Some [host; fin]
    ∧ wasm_ref_same (Ptr b 0) (Ptr (nextblock s) 0) s' = Ok true s'
    ∧ wasm_ref_same (Ptr (nextblock s) 0) (Ptr b 0) s' = Ok true s'
    ∧ wasm_ref_delete (Ptr (nextblock s) 0) s' = Ok tt s''
    ∧ mem s'' !! b = Some [host; fin]
    ∧ mem s'' !! nextblock s = None.
Proof.
  intros Hb Hh Hf Hne Hoom. destruct s as [m nb o f]; cbn in *.
  eexists (State (<[nb := [host; fin]]> m) (Pos.succ nb) (tail o) f),
    (State (delete nb (<[nb := [host; fin]]> m)) (Pos.succ nb) (tail o) f).
  unfold wasm_ref_copy, ref_ctor_copy, wasm_ref_same, ref_same,
    wasm_ref_delete, ref_destroy.
  split; [by exec|]. split; [by exec|]. split; [by exec|].
  split; [|split].
  - exec. rewrite ptr_eq_defined, bool_decide_eq_true_2 by done. maps.
    by rewrite ptr_eq_defined, bool_decide_eq_true_2.
  - exec. rewrite ptr_eq_defined, bool_decide_eq_true_2 by done. maps.
    by rewrite ptr_eq_defined, bool_decide_eq_true_2.
  - by exec.
Qed.

Lemma wasm_ref_copy_same_witness :
  ∃ s',
    wasm_ref_copy (Ptr 1 0) ref_state = Ok (Ptr 10 0) s'
    ∧ wasm_ref_same (Ptr 1 0) (Ptr 10 0) s' = Ok true s'.
Proof.
  destruct (wasm_ref_copy_same ref_state 1%positive (Vptr 9 0) (Vfun 5))
    as (s' & s'' & Hc & _ & _ & Hs & _); try reflexivity; try discriminate.
  exists s'. split; assumption.
Defined.

(** X3: setting the host data of a reference and reading it back returns
    what was set; [wasm_ref_set_host_info] keeps the finalizer that was
    recorded, [wasm_ref_set_host_info_with_finalizer] replaces it as well. *)
Theorem wasm_ref_host_info_roundtrip (s : state) (b : positive) (o : nat)
    (cells : list val) (old_fin info fin : val) :
  mem s !! b = Some cells →
  cells !! (o + ref_finalizer) = Some old_fin →
  (∃ s1,
     wasm_ref_set_host_info (Ptr b o) info s = Ok tt s1
     ∧ wasm_ref_get_host_info (Ptr b o) s1 = Ok info s1
     ∧ loadf (Ptr b o) ref_finalizer s1 = Ok old_fin s1)
  ∧ (∃ s2,
       wasm_ref_set_host_info_with_finalizer (Ptr b o) info fin s = Ok tt s2
       ∧ wasm_ref_get_host_info (Ptr b o) s2 = Ok info s2
       ∧ loadf (Ptr b o) ref_finalizer s2 = Ok fin s2).
Proof.
  intros Hb Hfin. destruct s as [m nb oo f]; cbn in *.
  pose proof (lookup_lt_Some _ _ _ Hfin) as Hlen.
  unfold wasm_ref_set_host_info, wasm_ref_set_host_info_with_finalizer,
    wasm_ref_get_host_info.
  layout. split; eexists; (split; [by prims; maps|]); by prims; maps.
Qed.

Lemma wasm_ref_host_info_roundtrip_witness :
  ∃ s1,
    wasm_ref_set_host_info (Ptr 3 0) (Vptr 9 0) ref_state = Ok tt s1
    ∧ wasm_ref_get_host_info (Ptr 3 0) s1 = Ok (Vptr 9 0) s1
    ∧ loadf (Ptr 3 0) ref_finalizer s1 = Ok (Vfun 6) s1.
Proof.
  exact (proj1 (wasm_ref_host_info_roundtrip ref_state 3%positive 0
                  [Vptr 9 0; Vfun 6] (Vfun 6) (Vptr 9 0) (Vfun 7)
                  eq_refl eq_refl)).
Defined.

(** ** Values *)

Lemma load_Ok_inv p v s s' :
  load p s = Ok v s' →
  s' = s ∧ ∃ b o cells,
    p = Ptr b o ∧ mem s !! b = Some cells ∧ cells !! o = Some v.
Proof.
  unfold load. destruct p as [|b o]; [discriminate|].
  destruct (mem s !! b) as [cells|] eqn:Hb; [|discriminate].
  destruct (cells !! o) as [v'|] eqn:Hv; [|discriminate].
  intros [= <- <-]. split; [done|]. by exists b, o, cells.
Qed.

Lemma as_int_Ok_inv v z s s' : as_int v s = Ok z s' → s' = s ∧ v = Vint z.
Proof. destruct v; try discriminate. by intros [= <- <-]. Qed.

Lemma as_ptr_Ok_inv v p s s' :
  as_ptr v s = Ok p s' → s' = s ∧ v = val_of_ptr p.
Proof.
  destruct v as [|[]| |]; try discriminate; by intros [= <- <-].
Qed.

Lemma load_int_Ok_inv b o k z s s' :
  load_int (Ptr b o) k s = Ok z s' →
  s' = s ∧ ∃ cells, mem s !! b = Some cells ∧ cells !! (o + k) = Some (Vint z).
Proof.
  unfold load_int, loadf. intros H.
  apply bind_Ok_inv in H as (v & s1 & Hl & Hi).
  apply load_Ok_inv in Hl as (-> & b' & o' & cells & [= <- <-] & Hb & Hv).
  apply as_int_Ok_inv in Hi as (-> & ->). split; [done|]. by exists cells.
Qed.

Lemma load_ptr_Ok_inv b o k p s s' :
  load_ptr (Ptr b o) k s = Ok p s' →
  s' = s
  ∧ ∃ cells, mem s !! b = Some cells ∧ cells !! (o + k) = Some (val_of_ptr p).
Proof.
  unfold load_ptr, loadf. intros H.
  apply bind_Ok_inv in H as (v & s1 & Hl & Hi).
  apply load_Ok_inv in Hl as (-> & b' & o' & cells & [= <- <-] & Hb & Hv).
  apply as_ptr_Ok_inv in Hi as (-> & ->). split; [done|]. by exists cells.
Qed.

Lemma load_int_cell b o k cells z s :
  mem s !! b = Some cells → cells !! (o + k) = Some (Vint z) →
  load_int (Ptr b o) k s = Ok z s.
Proof.
  intros Hb Hz. unfold load_int, loadf, bind. cbn [shift].
  by rewrite (load_cell b (o + k) cells (Vint z)).
Qed.

Lemma load_ptr_cell b o k cells p s :
  mem s !! b = Some cells → cells !! (o + k) = Some (val_of_ptr p) →
  load_ptr (Ptr b o) k s = Ok p s.
Proof.
  intros Hb Hz. unfold load_ptr, loadf, bind. cbn [shift].
  rewrite (load_cell b (o + k) cells (val_of_ptr p)) by done.
  by destruct p.
Qed.

(** What survives the release of a reference was there before it. *)
Lemma wasm_ref_delete_preserves r s s' b cells :
  wasm_ref_delete r s = Ok tt s' →
  mem s' !! b = Some cells → mem s !! b = Some cells.
Proof.
  destruct r as [|br o]; [by intros [= <-]|].
  unfold wasm_ref_delete, ref_destroy, free. cbn [is_null].
  destruct o; [|discriminate].
  destruct (mem s !! br); [|discriminate]. intros [= <-]. cbn.
  intros H. destruct (decide (b = br)) as [->|Hne].
  - by rewrite lookup_delete_eq in H.
  - by rewrite lookup_delete_ne in H.
Qed.

(** X4: [wasm_val_delete] can be repeated: whatever the kind of the value, a
    delete that returned leaves a zero payload (a null reference for the
    reference kinds), and deleting the same value again changes nothing. *)
Theorem wasm_val_delete_twice (v : ptr) (s s' : state) :
  wasm_val_delete v s = Ok tt s' →
  wasm_val_delete v s' = Ok tt s'
  ∧ (v ≠ Null → loadf v val_of s' = Ok (Vint 0) s').
Proof.
  destruct v as [|b o]; [by intros [= <-]|].
  unfold wasm_val_delete at 1. cbn [is_null]. intros H.
  apply bind_Ok_inv in H as (k & s0 & Hk & H).
  apply load_int_Ok_inv in Hk as (-> & cells & Hb & Hkind).
  assert (∃ c1, mem s' !! b = Some (<[o + val_of := Vint 0]> c1)
                ∧ o + val_of < length c1
                ∧ c1 !! (o + val_kind) = Some (Vint k)) as (c1 & Hb' & Hl & Hk').
  { destruct (is_ref_kind k).
    - apply bind_Ok_inv in H as (r & s1 & Hr & H).
      apply load_ptr_Ok_inv in Hr as (-> & _).
      apply bind_Ok_inv in H as ([] & s2 & Hdel & H).
      unfold storef in H. cbn [shift] in H.
      apply store_Ok_inv in H as (b' & o' & c1 & [= <- <-] & Hb1 & Hl1 & ->).
      exists c1. cbn. rewrite lookup_insert_eq. split; [done|]. split; [done|].
      pose proof (wasm_ref_delete_preserves _ _ _ _ _ Hdel Hb1) as Hb0.
      by simplify_eq.
    - unfold storef in H. cbn [shift] in H.
      apply store_Ok_inv in H as (b' & o' & c1 & [= <- <-] & Hb1 & Hl1 & ->).
      exists c1. cbn. rewrite lookup_insert_eq. by simplify_eq. }
  assert (Hof : <[o + val_of := Vint 0]> c1 !! (o + val_of) = Some (Vint 0))
    by (by apply list_lookup_insert_eq).
  assert (Hkd : <[o + val_of := Vint 0]> c1 !! (o + val_kind) = Some (Vint k))
    by (rewrite list_lookup_insert_ne; [done|unfold val_of, val_kind; lia]).
  split.
  - unfold wasm_val_delete, bind. cbn [is_null].
    rewrite (load_int_cell _ _ _ _ k s' Hb' Hkd).
    destruct (is_ref_kind k).
    + rewrite (load_ptr_cell _ _ _ _ Null s' Hb' Hof). cbn [wasm_ref_delete is_null ret].
      unfold storef. cbn [shift]. by eapply store_same.
    + unfold storef. cbn [shift]. by eapply store_same.
  - intros _. unfold loadf. cbn [shift]. by eapply load_cell.
Qed.

Lemma wasm_val_delete_twice_witness :
  ∃ s1,
    wasm_val_delete (Ptr 1 0) val_state = Ok tt s1
    ∧ wasm_val_delete (Ptr 1 0) s1 = Ok tt s1
    ∧ mem s1 !! 2%positive = None.
Proof.
  destruct (wasm_val_delete (Ptr 1 0) val_state) as [[] s1|] eqn:H;
    [|vm_compute in H; discriminate].
  exists s1. split; [reflexivity|]. split.
  - exact (proj1 (wasm_val_delete_twice (Ptr 1 0) val_state s1 H)).
  - vm_compute in H. injection H as <-. reflexivity.
Defined.

Lemma is_ref_kind_true k :
  k = WASM_ANYREF ∨ k = WASM_FUNCREF → is_ref_kind k = true.
Proof. by intros [-> | ->]. Qed.

(** X5: when the allocation succeeds, [wasm_val_copy] of a value of kind
    ANYREF or FUNCREF that holds a reference gives [out] the same kind and a
    reference object of its own, equal in host data and finalizer to the
    source's; the source value and its reference are unchanged, and
    deleting the copy releases only the copy's reference. *)
Theorem wasm_val_copy_ref_independent (s : state)
    (bv : positive) (k : Z) (br : positive) (host fin : val)
    (bo : positive) (oo : nat) (ocells : list val) :
  k = WASM_ANYREF ∨ k = WASM_FUNCREF →
  mem s !! bv = Some [Vint k; Vptr br 0] →
  mem s !! br = Some [host; fin] →
  mem s !! bo = Some ocells →
  oo + val_of < length ocells →
  bo ≠ bv → bo ≠ br → bv ≠ br →
  mem s !! nextblock s = None →
  head (oom s) ≠ Some true →
  ∃ s' s'',
    wasm_val_copy (Ptr bo oo) (Ptr bv 0) s = Ok tt s'
    ∧ loadf (Ptr bo oo) val_kind s' = Ok (Vint k) s'
    ∧ loadf (Ptr bo oo) val_of s' = Ok (Vptr (nextblock s) 0) s'
    ∧ mem s' !! nextblock s = Some [host; fin]
    ∧ mem s' !! bv = Some [Vint k; Vptr br 0]
    ∧ mem s' !! br = Some [host; fin]
    ∧ wasm_val_delete (Ptr bo oo) s' = Ok tt s''
    ∧ mem s'' !! nextblock s = None
    ∧ mem s'' !! bv = Some [Vint k; Vptr br 0]
    ∧ mem s'' !! br = Some [host; fin].
Proof.
  intros Hk Hbv Hbr Hbo Hlen Hne1 Hne2 Hne3 Hfresh Hoom.
  apply is_ref_kind_true in Hk.
  destruct s as [m nb o f]; cbn in *.
  assert (bv ≠ nb) by congruence. assert (br ≠ nb) by congruence.
  assert (bo ≠ nb) by congruence.
  unfold wasm_val_copy, wasm_val_delete, wasm_ref_copy, ref_ctor_copy,
    wasm_ref_delete, ref_destroy. layout.
  eexists _, _. split.
  { prims. maps. rewrite Hk. maps. reflexivity. }
  split; [by prims; maps|]. split; [by prims; maps|].
  cbn [mem].
  split; [by lookups|]. split; [by lookups|]. split; [by lookups|].
  split.
  { prims. maps. rewrite Hk. maps. reflexivity. }
  cbn [mem]. split; [by lookups|]. split; by lookups.
Qed.

Lemma wasm_val_copy_ref_independent_witness :
  ∃ s' s'',
    wasm_val_copy (Ptr 3 0) (Ptr 1 0) val_state = Ok tt s'
    ∧ mem s' !! 10%positive = Some [Vptr 9 0; Vfun 5]
    ∧ wasm_val_delete (Ptr 3 0) s' = Ok tt s''
    ∧ mem s'' !! 2%positive = Some [Vptr 9 0; Vfun 5].
Proof.
  destruct (wasm_val_copy_ref_independent val_state 1%positive WASM_ANYREF
              2%positive (Vptr 9 0) (Vfun 5) 3%positive 0 [Vundef; Vundef])
    as (s' & s'' & H1 & _ & _ & H2 & _ & _ & H3 & _ & _ & H4);
    try reflexivity; try discriminate.
  - by left.
  - unfold val_of. cbn. lia.
  - by exists s', s''.
Defined.

(** ** Vectors: construction *)

(** [std::memset] to zero overwrites [n] cells and changes nothing else. *)
Lemma memset0_spec n :
  ∀ m nb o f b off cells,
    m !! b = Some cells →
    off + n ≤ length cells →
    memset0 n (Ptr b off) (State m nb o f)
    = Ok tt (State (<[b := take off cells ++ replicate n (Vint 0)
                            ++ drop (off + n) cells]> m) nb o f).
Proof.
  induction n as [|n IH]; intros m nb o f b off cells Hb Hlen.
  - cbn [memset0 replicate]. unfold ret. rewrite Nat.add_0_r. cbn [app].
    by rewrite take_drop, insert_id.
  - cbn [memset0]. prims. cbn. rewrite Hb.
    rewrite (proj2 (Nat.ltb_lt off (length cells))) by lia. cbn.
    rewrite (IH _ _ _ _ b (off + 1) (<[off := Vint 0]> cells));
      [|by rewrite lookup_insert_eq|rewrite length_insert; lia].
    rewrite insert_insert_eq. do 3 f_equal.
    rewrite !Nat.add_1_r.
    rewrite (take_S_r _ _ (Vint 0)) by (apply list_lookup_insert_eq; lia).
    rewrite take_insert_ge by lia.
    rewrite drop_insert_lt by lia.
    rewrite <- app_assoc. cbn [replicate app].
    by replace (S off + n) with (off + S n) by lia.
Qed.

(** [vec_new_uninitialized] with a size above zero and a successful
    allocation, as a state transformer. *)
Lemma vec_new_uninitialized_exact (width : nat) m nb o f
    (bo : positive) (oo : nat) (ocells : list val) (size : Z) :
  m !! bo = Some ocells →
  oo + vec_data < length ocells →
  (0 < size)%Z →
  bo ≠ nb →
  head o ≠ Some true →
  vec_new_uninitialized width (Ptr bo oo) size (State m nb o f)
  = Ok tt (State
             (<[nb := replicate (Z.to_nat size * width) (Vint 0)]>
                (<[bo := <[oo + vec_data := Vptr nb 0]>
                           (<[oo + vec_size := Vint size]> ocells)]> m))
             (Pos.succ nb) (tail o) f).
Proof.
  intros Hbo Hlen Hsize Hne Hoom.
  set (n := Z.to_nat size * width).
  unfold vec_new_uninitialized. layout. prims. maps.
  rewrite (proj2 (Z.ltb_lt 0 size)) by done. maps. fold n.
  rewrite (memset0_spec n _ _ _ _ nb 0 (replicate n Vundef));
    [|by lookups|rewrite length_replicate; lia].
  rewrite take_0, drop_replicate, Nat.sub_diag. cbn [app replicate plus].
  rewrite app_nil_r. do 2 f_equal.
  apply map_eq. intros k.
  destruct (decide (k = nb)) as [->|]; [by lookups|].
  destruct (decide (k = bo)) as [->|]; lookups.
  by rewrite list_insert_insert_eq.
Qed.

(** X6: for every element width, [vec_new_uninitialized] with a size above
    zero and a successful allocation stores the size and the address of a
    fresh buffer in [out], and every cell of the buffer is zero, so every
    slot of a pointer vector is null; no block that was live is changed
    except the one of [out]. *)
Theorem vec_new_uninitialized_zeroed (width : nat) (s : state)
    (bo : positive) (oo : nat) (ocells : list val) (size : Z) :
  mem s !! bo = Some ocells →
  oo + vec_data < length ocells →
  (0 < size)%Z →
  mem s !! nextblock s = None →
  head (oom s) ≠ Some true →
  ∃ s',
    vec_new_uninitialized width (Ptr bo oo) size s = Ok tt s'
    ∧ loadf (Ptr bo oo) vec_size s' = Ok (Vint size) s'
    ∧ loadf (Ptr bo oo) vec_data s' = Ok (Vptr (nextblock s) 0) s'
    ∧ mem s' !! nextblock s
      = Some (replicate (Z.to_nat size * width) (Vint 0))
    ∧ ∀ b, b ≠ bo → b ≠ nextblock s → mem s' !! b = mem s !! b.
Proof.
  intros Hbo Hlen Hsize Hfresh Hoom. destruct s as [m nb o f]; cbn in *.
  assert (bo ≠ nb) by congruence.
  eexists. split; [by apply vec_new_uninitialized_exact|].
  layout. split; [by exec|]. split; [by exec|]. cbn [mem].
  split; [by lookups|]. intros b ? ?. by lookups.
Qed.

Lemma vec_new_uninitialized_zeroed_witness :
  ∃ s',
    wasm_valtype_vec_new_uninitialized (Ptr 3 0) 5 array_state = Ok tt s'
    ∧ loadf (Ptr 3 0) vec_size s' = Ok (Vint 5) s'
    ∧ loadf (Ptr 3 0) vec_data s' = Ok (Vptr 4 0) s'
    ∧ mem s' !! 4%positive = Some (replicate 5 (Vint 0)).
Proof.
  destruct (vec_new_uninitialized_zeroed 1 array_state 3%positive 0
              [Vundef; Vundef] 5%Z)
    as (s' & H1 & H2 & H3 & H4 & _); try reflexivity; try discriminate.
  - unfold vec_data. cbn. lia.
  - by exists s'.
Defined.

(** X7: a request of size zero never allocates: [vec_new_empty],
    [vec_new_uninitialized] with size 0 and [vec_new] with size 0 (whatever
    the source pointer, null included) all leave [out] with size 0 and null
    data, and change nothing else in the machine state. *)
Theorem vec_new_zero_size (width : nat) (s : state)
    (bo : positive) (oo : nat) (ocells : list val) (vals : ptr) :
  mem s !! bo = Some ocells →
  oo + vec_data < length ocells →
  let s' := upd_mem (insert bo (<[oo + vec_data := nullptr]>
                                  (<[oo + vec_size := Vint 0]> ocells))) s in
  vec_new_empty (Ptr bo oo) s = Ok tt s'
  ∧ vec_new_uninitialized width (Ptr bo oo) 0 s = Ok tt s'
  ∧ vec_new width (Ptr bo oo) 0 vals s = Ok tt s'
  ∧ loadf (Ptr bo oo) vec_size s' = Ok (Vint 0) s'
  ∧ loadf (Ptr bo oo) vec_data s' = Ok nullptr s'.
Proof.
  intros Hbo Hlen. destruct s as [m nb o f]; cbn in *.
  unfold vec_new_empty, vec_new_uninitialized, vec_new.
  repeat split; by exec.
Qed.

Lemma vec_new_zero_size_witness :
  wasm_byte_vec_new (Ptr 4 0) 0 Null bytes_state
  = wasm_byte_vec_new_empty (Ptr 4 0) bytes_state
  ∧ wasm_byte_vec_new_uninitialized (Ptr 4 0) 0 bytes_state
    = wasm_byte_vec_new_empty (Ptr 4 0) bytes_state.
Proof.
  destruct (vec_new_zero_size 1 bytes_state 4%positive 0 [Vundef; Vundef] Null
              eq_refl) as (H1 & H2 & H3 & _).
  - unfold vec_data. cbn. lia.
  - unfold wasm_byte_vec_new, wasm_byte_vec_new_empty,
      wasm_byte_vec_new_uninitialized.
    split; congruence.
Defined.

(** X8: the vector constructors do not test the buffer they asked for: with
    a size above zero, when the allocation request fails
    [vec_new_uninitialized] zeroes through the null buffer and [vec_new]
    copies into it, a null dereference in both, after [out] was already
    given the size and a null data pointer. *)
Theorem vec_new_alloc_failure_faults (width : nat) (s : state)
    (bo : positive) (oo : nat) (ocells : list val) (size : Z) :
  mem s !! bo = Some ocells →
  oo + vec_data < length ocells →
  (0 < size)%Z → 0 < width →
  head (oom s) = Some true →
  vec_new_uninitialized width (Ptr bo oo) size s = Fault NullDeref
  ∧ ∀ bv ov vcells v,
      bv ≠ bo →
      mem s !! bv = Some vcells →
      vcells !! ov = Some v →
      vec_new width (Ptr bo oo) size (Ptr bv ov) s = Fault NullDeref.
Proof.
  intros Hbo Hlen Hsize Hw Hoom. destruct s as [m nb o f]; cbn in *.
  destruct o as [|[] o]; try discriminate.
  assert (∃ n, Z.to_nat size * width = S n) as [n Hn].
  { destruct (Z.to_nat size * width) eqn:E; [nia|eauto]. }
  unfold vec_new_uninitialized, vec_new. split.
  - layout. prims. maps. rewrite (proj2 (Z.ltb_lt 0 size)) by done.
    unfold alloc. maps. rewrite Hn. by maps.
  - intros bv ov vcells v Hne Hbv Hv.
    layout. prims. maps. rewrite (proj2 (Z.ltb_lt 0 size)) by done.
    unfold alloc. maps. rewrite Hn. cbn [copy_n]. by exec.
Qed.

Lemma vec_new_alloc_failure_faults_witness :
  wasm_byte_vec_new_uninitialized (Ptr 4 0) 3
    (State (mem bytes_state) 5 [true] [])
  = Fault NullDeref
  ∧ wasm_byte_vec_new (Ptr 4 0) 3 (Ptr 2 0)
      (State (mem bytes_state) 5 [true] [])
    = Fault NullDeref.
Proof.
  destruct (vec_new_alloc_failure_faults 1
              (State (mem bytes_state) 5 [true] []) 4%positive 0
              [Vundef; Vundef] 3%Z) as (H1 & H2);
    try reflexivity; try (unfold vec_data; cbn; lia).
  split; [exact H1|].
  apply (H2 2%positive 0 [Vint 7; Vint 8; Vint 9] (Vint 7));
    reflexivity || discriminate.
Defined.

(** ** Vectors: copies and deletion *)

(** X9: when the allocation succeeds, the copy of a non-empty scalar vector
    is a flat copy into a fresh buffer: [out] gets the size of the source
    and a buffer holding the same cells, the source vector and its buffer
    are unchanged, and deleting the copy releases the copy's buffer only. *)
Theorem scalar_vec_copy_deep (width : nat) (s : state)
    (bo : positive) (oo : nat) (ocells : list val)
    (bi : positive) (oi : nat) (icells : list val)
    (bs : positive) (os : nat) (scells : list val) (size : Z) :
  mem s !! bi = Some icells →
  icells !! (oi + vec_size) = Some (Vint size) →
  icells !! (oi + vec_data) = Some (Vptr bs os) →
  mem s !! bs = Some scells →
  os + Z.to_nat size * width ≤ length scells →
  (0 < size)%Z →
  mem s !! bo = Some ocells →
  oo + vec_data < length ocells →
  bo ≠ bi → bo ≠ bs →
  mem s !! nextblock s = None →
  head (oom s) ≠ Some true →
  ∃ s' s'',
    scalar_vec_copy width (Ptr bo oo) (Ptr bi oi) s = Ok tt s'
    ∧ loadf (Ptr bo oo) vec_size s' = Ok (Vint size) s'
    ∧ loadf (Ptr bo oo) vec_data s' = Ok (Vptr (nextblock s) 0) s'
    ∧ mem s' !! nextblock s
      = Some (take (Z.to_nat size * width) (drop os scells))
    ∧ mem s' !! bi = Some icells
    ∧ mem s' !! bs = Some scells
    ∧ scalar_vec_delete (Ptr bo oo) s' = Ok tt s''
    ∧ mem s'' !! nextblock s = None
    ∧ mem s'' !! bi = Some icells
    ∧ mem s'' !! bs = Some scells.
Proof.
  intros Hbi Hsz Hdata Hbs Hslen Hsize Hbo Holen Hne1 Hne2 Hfresh Hoom.
  destruct s as [m nb o f]; cbn in *.
  assert (bo ≠ nb) by congruence. assert (bi ≠ nb) by congruence.
  assert (bs ≠ nb) by congruence.
  set (n := Z.to_nat size * width) in *.
  layout. rewrite Nat.add_0_r in Hsz.
  eexists _, _. split.
  { unfold scalar_vec_copy. prims. maps.
    rewrite (proj2 (Z.ltb_lt 0 size)) by done. maps. fold n.
    rewrite (copy_n_spec n _ _ _ _ bs os scells nb 0 (replicate n Vundef));
      [|done|by lookups|by lookups|lia|rewrite length_replicate; lia].
    rewrite take_0, drop_replicate, Nat.sub_diag. cbn [app replicate plus].
    rewrite app_nil_r. reflexivity. }
  split; [by prims; maps|]. split; [by prims; maps|]. cbn [mem].
  split; [by lookups|]. split; [by lookups|]. split; [by lookups|].
  split.
  { unfold scalar_vec_delete. prims. maps.
    rewrite (proj2 (Z.ltb_lt 0 size)) by done. maps. reflexivity. }
  cbn [mem]. split; [by lookups|]. split; by lookups.
Qed.

Lemma scalar_vec_copy_deep_witness :
  ∃ s' s'',
    wasm_byte_vec_copy (Ptr 4 0) (Ptr 1 0) bytes_state = Ok tt s'
    ∧ mem s' !! 5%positive = Some [Vint 7; Vint 8; Vint 9]
    ∧ wasm_byte_vec_delete (Ptr 4 0) s' = Ok tt s''
    ∧ mem s'' !! 2%positive = Some [Vint 7; Vint 8; Vint 9].
Proof.
  destruct (scalar_vec_copy_deep 1 bytes_state 4%positive 0 [Vundef; Vundef]
              1%positive 0 [Vint 3; Vptr 2 0]
              2%positive 0 [Vint 7; Vint 8; Vint 9] 3%Z)
    as (s' & s'' & H1 & _ & _ & H2 & _ & _ & H3 & _ & _ & H4);
    try reflexivity; try discriminate; try (unfold vec_data; cbn; lia).
  by exists s', s''.
Defined.

(** The deletion loop over slots that are all null does nothing, for an
    element destructor that accepts null. *)
Lemma for_loop_null_slots (elem_delete : ptr → M unit) (vec : ptr)
    bv ov vcells bd dcells s :
  (∀ s0, elem_delete Null s0 = Ok tt s0) →
  vec = Ptr bv ov →
  mem s !! bv = Some vcells →
  vcells !! (ov + vec_data) = Some (Vptr bd 0) →
  mem s !! bd = Some dcells →
  ∀ n i,
    (∀ j, i ≤ j < i + n → dcells !! j = Some (Vint 0)) →
    for_loop n i (fun i =>
      d <- load_ptr vec vec_data ;;
      e <- load_ptr d i ;;
      elem_delete e) s = Ok tt s.
Proof.
  intros Hnull -> Hbv Hdata Hbd. induction n as [|n IH]; intros i Hcells.
  - reflexivity.
  - cbn [for_loop]. unfold bind at 1 2.
    rewrite (load_ptr_cell bv ov vec_data vcells (Ptr bd 0) s Hbv Hdata).
    unfold bind at 1.
    rewrite (load_ptr_cell bd 0 i dcells Null s Hbd)
      by (cbn; apply Hcells; lia).
    rewrite Hnull. apply IH. intros j Hj. apply Hcells. lia.
Qed.

Lemma elem_delete_null (V : ptr_vec_type) :
  ∃ elem_delete,
    wasm_ptr_vec_delete V = ptr_vec_delete elem_delete
    ∧ ∀ s, elem_delete Null s = Ok tt s.
Proof. destruct V; eexists; split; reflexivity. Qed.

(** X10: for every pointer-vector type, a vector made by
    [vec_new_uninitialized] with a size above zero can be deleted at once:
    the slots are null, so no element destructor touches memory, the buffer
    is released, [out] is left with size 0 and null data, and every block
    other than the one of [out] is as it was before the construction. *)
Theorem ptr_vec_uninitialized_then_delete (V : ptr_vec_type) (s : state)
    (bo : positive) (oo : nat) (ocells : list val) (size : Z) :
  mem s !! bo = Some ocells →
  oo + vec_data < length ocells →
  (0 < size)%Z →
  mem s !! nextblock s = None →
  head (oom s) ≠ Some true →
  ∃ s' s'',
    vec_new_uninitialized 1 (Ptr bo oo) size s = Ok tt s'
    ∧ wasm_ptr_vec_delete V (Ptr bo oo) s' = Ok tt s''
    ∧ loadf (Ptr bo oo) vec_size s'' = Ok (Vint 0) s''
    ∧ loadf (Ptr bo oo) vec_data s'' = Ok nullptr s''
    ∧ ∀ b, b ≠ bo → mem s'' !! b = mem s !! b.
Proof.
  intros Hbo Hlen Hsize Hfresh Hoom. destruct s as [m nb o f]; cbn [mem nextblock oom] in *.
  assert (Hne : bo ≠ nb) by congruence.
  destruct (elem_delete_null V) as (elem_delete & -> & Hnull).
  set (c' := <[oo + vec_data := Vptr nb 0]>
               (<[oo + vec_size := Vint size]> ocells)).
  set (m' := <[nb := replicate (Z.to_nat size) (Vint 0)]> (<[bo := c']> m)).
  assert (Hbo' : m' !! bo = Some c') by (subst m'; by lookups).
  assert (Hbuf : m' !! nb = Some (replicate (Z.to_nat size) (Vint 0)))
    by (subst m'; by lookups).
  assert (Hsz : c' !! (oo + vec_size) = Some (Vint size)).
  { subst c'. unfold vec_size, vec_data in *.
    rewrite list_lookup_insert_ne by lia.
    apply list_lookup_insert_eq. lia. }
  assert (Hdata : c' !! (oo + vec_data) = Some (Vptr nb 0)).
  { subst c'. apply list_lookup_insert_eq. by rewrite length_insert. }
  assert (Hl1 : oo + vec_data < length c')
    by (subst c'; by rewrite !length_insert).
  set (s' := State m' (Pos.succ nb) (tail o) f).
  assert (Hdel : ptr_vec_delete elem_delete (Ptr bo oo) s'
                 = ((d <- load_ptr (Ptr bo oo) vec_data ;; free d) ;;
                    storef (Ptr bo oo) vec_size (Vint 0) ;;
                    storef (Ptr bo oo) vec_data nullptr) s').
  { unfold ptr_vec_delete. cbn [is_null]. unfold bind at 1.
    rewrite (load_int_cell bo oo vec_size c' size s' Hbo' Hsz).
    rewrite (proj2 (Z.ltb_lt 0 size)) by done.
    unfold bind at 1 2 3.
    rewrite (load_int_cell bo oo vec_size c' size s' Hbo' Hsz).
    rewrite (for_loop_null_slots elem_delete (Ptr bo oo) bo oo c'
               nb (replicate (Z.to_nat size) (Vint 0)) s'
               Hnull eq_refl Hbo' Hdata Hbuf (Z.to_nat size) 0);
      [reflexivity|].
    intros j Hj. apply lookup_replicate_2. lia. }
  exists s'. eexists. split.
  { rewrite (vec_new_uninitialized_exact 1 m nb o f bo oo ocells size)
      by done.
    by rewrite Nat.mul_1_r. }
  rewrite Hdel. clear Hdel Hnull elem_delete. subst s'.
  layout. rewrite Nat.add_0_r in Hsz.
  split; [exec; reflexivity|].
  split; [by exec|]. split; [by exec|].
  intros b Hb. cbn [mem]. lookups. subst m'.
  destruct (decide (b = nb)) as [->|Hnb]; by lookups.
Qed.

Lemma ptr_vec_uninitialized_then_delete_witness :
  ∃ s' s'',
    wasm_valtype_vec_new_uninitialized (Ptr 3 0) 5 array_state = Ok tt s'
    ∧ wasm_valtype_vec_delete (Ptr 3 0) s' = Ok tt s''
    ∧ mem s'' !! 4%positive = None.
Proof.
  destruct (ptr_vec_uninitialized_then_delete VecValtype array_state
              3%positive 0 [Vundef; Vundef] 5%Z)
    as (s' & s'' & H1 & H2 & _ & _ & H3);
    try reflexivity; try discriminate; try (unfold vec_data; cbn; lia).
  exists s', s''. split; [exact H1|]. split; [exact H2|].
  rewrite H3 by discriminate. reflexivity.
Defined.

(** ** Type constructors and their accessors *)

(** X11: when the allocation succeeds, [wasm_tabletype_new] builds a table
    type whose kind is TABLE and whose accessors report the element kind of
    the value type and the limits it was given; the value type is consumed
    (its object is released) and the caller's limits are only read. *)
Theorem wasm_tabletype_new_read_back (s : state)
    (bv : positive) (k : Z)
    (bl : positive) (ol : nat) (lcells : list val) (lo hi : Z) :
  mem s !! bv = Some [Vint k] →
  mem s !! bl = Some lcells →
  lcells !! (ol + limits_min) = Some (Vint lo) →
  lcells !! (ol + limits_max) = Some (Vint hi) →
  bv ≠ bl →
  mem s !! nextblock s = None →
  head (oom s) ≠ Some true →
  ∃ s',
    wasm_tabletype_new (Ptr bv 0) (Ptr bl ol) s = Ok (Ptr (nextblock s) 0) s'
    ∧ wasm_externtype_kind (Ptr (nextblock s) 0) s' = Ok WASM_EXTERN_TABLE s'
    ∧ (e <- wasm_tabletype_element (Ptr (nextblock s) 0) ;;
       wasm_valtype_kind e) s' = Ok k s'
    ∧ (l <- wasm_tabletype_limits (Ptr (nextblock s) 0) ;;
       a <- load_int l limits_min ;;
       b <- load_int l limits_max ;;
       ret (a, b)) s' = Ok (lo, hi) s'
    ∧ mem s' !! bv = None
    ∧ mem s' !! bl = Some lcells.
Proof.
  intros Hbv Hbl Hlo Hhi Hne Hfresh Hoom. destruct s as [m nb o f]; cbn in *.
  assert (bv ≠ nb) by congruence. assert (bl ≠ nb) by congruence.
  unfold wasm_tabletype_new, tabletype_ctor, valtype_ctor_copy, copy_limits,
    wasm_valtype_delete, wasm_externtype_kind, wasm_tabletype_element,
    wasm_tabletype_limits, wasm_valtype_kind.
  layout. rewrite Nat.add_0_r in Hlo.
  eexists. split; [exec; reflexivity|].
  split; [by exec|]. split; [by exec|]. split; [by exec|].
  cbn [mem]. split; by lookups.
Qed.

Lemma wasm_tabletype_new_read_back_witness :
  ∃ s',
    wasm_tabletype_new (Ptr 1 0) (Ptr 3 0) array_limits_state = Ok (Ptr 4 0) s'
    ∧ wasm_externtype_kind (Ptr 4 0) s' = Ok WASM_EXTERN_TABLE s'
    ∧ mem s' !! 1%positive = None.
Proof.
  destruct (wasm_tabletype_new_read_back array_limits_state 1%positive
              WASM_FUNCREF 3%positive 0 [Vint 10; Vint 20] 10 20)
    as (s' & H1 & H2 & _ & _ & H3 & _); try reflexivity; try discriminate.
  by exists s'.
Defined.

(** X12: when the allocation succeeds, [wasm_memorytype_new] builds a memory
    type of kind MEMORY holding its own copy of the limits: the accessor
    returns the address of the member inside the new object, where the given
    minimum and maximum are found, and the caller's limits are unchanged. *)
Theorem wasm_memorytype_new_read_back (s : state)
    (bl : positive) (ol : nat) (lcells : list val) (lo hi : Z) :
  mem s !! bl = Some lcells →
  lcells !! (ol + limits_min) = Some (Vint lo) →
  lcells !! (ol + limits_max) = Some (Vint hi) →
  mem s !! nextblock s = None →
  head (oom s) ≠ Some true →
  ∃ s',
    wasm_memorytype_new (Ptr bl ol) s = Ok (Ptr (nextblock s) 0) s'
    ∧ wasm_externtype_kind (Ptr (nextblock s) 0) s' = Ok WASM_EXTERN_MEMORY s'
    ∧ wasm_memorytype_limits (Ptr (nextblock s) 0) s'
      = Ok (Ptr (nextblock s) memorytype_limits) s'
    ∧ mem s' !! nextblock s = Some [Vint WASM_EXTERN_MEMORY; Vint lo; Vint hi]
    ∧ mem s' !! bl = Some lcells.
Proof.
  intros Hbl Hlo Hhi Hfresh Hoom. destruct s as [m nb o f]; cbn in *.
  assert (bl ≠ nb) by congruence.
  unfold wasm_memorytype_new, memorytype_ctor, copy_limits,
    wasm_externtype_kind, wasm_memorytype_limits.
  layout. rewrite Nat.add_0_r in Hlo.
  eexists. split; [exec; reflexivity|].
  split; [by exec|]. split; [by exec|].
  cbn [mem]. split; by lookups.
Qed.

Lemma wasm_memorytype_new_read_back_witness :
  ∃ s',
    wasm_memorytype_new (Ptr 3 0) array_limits_state = Ok (Ptr 4 0) s'
    ∧ mem s' !! 4%positive
      = Some [Vint WASM_EXTERN_MEMORY; Vint 10; Vint 20].
Proof.
  destruct (wasm_memorytype_new_read_back array_limits_state
              3%positive 0 [Vint 10; Vint 20] 10 20)
    as (s' & H1 & _ & _ & H2 & _); try reflexivity; try discriminate.
  by exists s'.
Defined.

(** X13: what becomes of a taken argument when the allocation request
    fails.  [wasm_globaltype_new] and [wasm_tabletype_new] return null
    without running the constructor, so the value type they were to consume
    is still live and no block has changed; [wasm_engine_new_with_config]
    returns null as well but has released the configuration. *)
Theorem taken_argument_on_alloc_failure (s : state)
    (bv : positive) (vcells : list val) (mut : Z) (lim : ptr) :
  mem s !! bv = Some vcells →
  head (oom s) = Some true →
  (∃ s', wasm_globaltype_new (Ptr bv 0) mut s = Ok Null s' ∧ mem s' = mem s)
  ∧ (∃ s', wasm_tabletype_new (Ptr bv 0) lim s = Ok Null s' ∧ mem s' = mem s)
  ∧ (∃ s', wasm_engine_new_with_config (Ptr bv 0) s = Ok Null s'
           ∧ mem s' = delete bv (mem s)).
Proof.
  intros Hbv Hoom. destruct s as [m nb o f]; cbn in *.
  destruct o as [|[] o]; try discriminate.
  unfold wasm_globaltype_new, wasm_tabletype_new, wasm_engine_new_with_config,
    wasm_config_delete.
  repeat split; eexists; (split; [unfold alloc; exec; reflexivity|done]).
Qed.

Lemma taken_argument_on_alloc_failure_witness :
  (∃ s', wasm_globaltype_new (Ptr 1 0) WASM_VAR
           (State (mem engine_state) 4 [true] []) = Ok Null s'
         ∧ mem s' = mem engine_state)
  ∧ (∃ s', wasm_engine_new_with_config (Ptr 1 0)
             (State (mem engine_state) 4 [true] []) = Ok Null s'
           ∧ mem s' = delete 1%positive (mem engine_state)).
Proof.
  destruct (taken_argument_on_alloc_failure
              (State (mem engine_state) 4 [true] []) 1%positive [Vint 0]
              WASM_VAR Null eq_refl eq_refl) as (H1 & _ & H3).
  split; assumption.
Defined.

(** X14: when the allocations succeed, an engine built by
    [wasm_engine_new_with_config] holds the configuration of the object it
    was given, which it releases; a store built on that engine gets the
    same configuration for its loader and its validator, and the engine is
    still the one block it was. *)
Theorem engine_with_config_then_store (s : state) (bc : positive) (c : val) :
  mem s !! bc = Some [c] →
  mem s !! nextblock s = None →
  no_oom s →
  ∃ s' s'',
    wasm_engine_new_with_config (Ptr bc 0) s = Ok (Ptr (nextblock s) 0) s'
    ∧ mem s' !! nextblock s = Some [c; c]
    ∧ mem s' !! bc = None
    ∧ wasm_store_new (Ptr (nextblock s) 0) s'
      = Ok (Ptr (Pos.succ (nextblock s)) 0) s''
    ∧ mem s'' !! Pos.succ (nextblock s)
      = Some [Vptr (nextblock s) 0; c; c; StoreManager_new]
    ∧ mem s'' !! nextblock s = Some [c; c].
Proof.
  intros Hbc Hfresh Hoom. destruct s as [m nb o f]; cbn in *.
  unfold no_oom in Hoom; cbn in Hoom.
  assert (bc ≠ nb) by congruence.
  unfold wasm_engine_new_with_config, wasm_config_delete, wasm_store_new.
  layout. eexists _, _.
  split; [exec; reflexivity|]. cbn [mem].
  split; [by lookups|]. split; [by lookups|].
  split; [exec; reflexivity|]. cbn [mem]. split; by lookups.
Qed.

Lemma engine_with_config_then_store_witness :
  ∃ s' s'',
    wasm_engine_new_with_config (Ptr 1 0) engine_state = Ok (Ptr 4 0) s'
    ∧ wasm_store_new (Ptr 4 0) s' = Ok (Ptr 5 0) s''
    ∧ mem s'' !! 5%positive = Some [Vptr 4 0; Vint 0; Vint 0; Vint 0].
Proof.
  destruct (engine_with_config_then_store engine_state 1%positive (Vint 0))
    as (s' & s'' & H1 & _ & _ & H2 & H3 & _);
    try reflexivity; try constructor.
  by exists s', s''.
Defined.

(** X15: when the allocation succeeds, [wasm_functype_new] moves the two
    vectors into the new function type by swapping them with its own, not
    yet initialised members: [params()] and [results()] point into the new
    object and hold the size and the buffer the caller's vectors had, and
    the caller's vector structures are left holding indeterminate values,
    not an empty vector, so that deleting one of them afterwards is a use
    of an indeterminate value. *)
Theorem wasm_functype_new_moves (s : state)
    (bp : positive) (op : nat) (pcells : list val) (psize pdata : val)
    (br : positive) (or : nat) (rcells : list val) (rsize rdata : val) :
  mem s !! bp = Some pcells →
  pcells !! (op + vec_size) = Some psize →
  pcells !! (op + vec_data) = Some pdata →
  mem s !! br = Some rcells →
  rcells !! (or + vec_size) = Some rsize →
  rcells !! (or + vec_data) = Some rdata →
  bp ≠ br →
  mem s !! nextblock s = None →
  head (oom s) ≠ Some true →
  ∃ s',
    wasm_functype_new (Ptr bp op) (Ptr br or) s = Ok (Ptr (nextblock s) 0) s'
    ∧ wasm_functype_params (Ptr (nextblock s) 0) s'
      = Ok (Ptr (nextblock s) functype_params) s'
    ∧ wasm_functype_results (Ptr (nextblock s) 0) s'
      = Ok (Ptr (nextblock s) functype_results) s'
    ∧ mem s' !! nextblock s
      = Some [Vint WASM_EXTERN_FUNC; psize; pdata; rsize; rdata]
    ∧ loadf (Ptr bp op) vec_size s' = Ok Vundef s'
    ∧ loadf (Ptr bp op) vec_data s' = Ok Vundef s'
    ∧ loadf (Ptr br or) vec_size s' = Ok Vundef s'
    ∧ loadf (Ptr br or) vec_data s' = Ok Vundef s'
    ∧ wasm_valtype_vec_delete (Ptr bp op) s' = Fault Uninitialized
    ∧ wasm_valtype_vec_delete (Ptr br or) s' = Fault Uninitialized.
Proof.
  intros Hbp Hps Hpd Hbr Hrs Hrd Hne Hfresh Hoom.
  destruct s as [m nb o f]; cbn in *.
  assert (bp ≠ nb) by congruence. assert (br ≠ nb) by congruence.
  pose proof (lookup_lt_Some _ _ _ Hpd). pose proof (lookup_lt_Some _ _ _ Hrd).
  unfold wasm_functype_new, functype_ctor, swap_vec, wasm_functype_params,
    wasm_functype_results, wasm_valtype_vec_delete, ptr_vec_delete.
  layout. rewrite Nat.add_0_r in Hps, Hrs.
  eexists. split; [exec; reflexivity|].
  split; [by exec|]. split; [by exec|]. split; [cbn [mem]; by lookups|].
  repeat split; by exec.
Qed.

Lemma wasm_functype_new_moves_witness :
  ∃ s',
    wasm_functype_new (Ptr 4 0) (Ptr 5 0) two_vecs_state = Ok (Ptr 6 0) s'
    ∧ mem s' !! 6%positive
      = Some [Vint WASM_EXTERN_FUNC; Vint 1; Vptr 2 0; Vint 0; Vint 0]
    ∧ wasm_valtype_vec_delete (Ptr 4 0) s' = Fault Uninitialized.
Proof.
  destruct (wasm_functype_new_moves two_vecs_state
              4%positive 0 [Vint 1; Vptr 2 0] (Vint 1) (Vptr 2 0)
              5%positive 0 [Vint 0; Vint 0] (Vint 0) (Vint 0))
    as (s' & H1 & _ & _ & H2 & _ & _ & _ & _ & H3 & _);
    try reflexivity; try discriminate.
  by exists s'.
Defined.

Lemma bind_Ok {A B} (c : M A) (k : A → M B) s a s' :
  c s = Ok a s' → (x <- c ;; k x) s = k a s'.
Proof. unfold bind. by intros ->. Qed.

(** X16: on an extern type whose kind is one of the four variants, the
    operations of the base agree with the operations of that variant:
    [wasm_externtype_copy] and [wasm_externtype_delete] behave as the copy
    and the delete of the function, global, table or memory type. *)
Theorem externtype_dispatch_agrees (s : state) (b : positive) (o : nat)
    (cells : list val) (kind : Z) :
  mem s !! b = Some cells →
  cells !! (o + externtype_kind) = Some (Vint kind) →
  (kind = WASM_EXTERN_FUNC →
     wasm_externtype_copy (Ptr b o) s = wasm_functype_copy (Ptr b o) s
     ∧ wasm_externtype_delete (Ptr b o) s = wasm_functype_delete (Ptr b o) s)
  ∧ (kind = WASM_EXTERN_GLOBAL →
     wasm_externtype_copy (Ptr b o) s = wasm_globaltype_copy (Ptr b o) s
     ∧ wasm_externtype_delete (Ptr b o) s
       = wasm_globaltype_delete (Ptr b o) s)
  ∧ (kind = WASM_EXTERN_TABLE →
     wasm_externtype_copy (Ptr b o) s = wasm_tabletype_copy (Ptr b o) s
     ∧ wasm_externtype_delete (Ptr b o) s
       = wasm_tabletype_delete (Ptr b o) s)
  ∧ (kind = WASM_EXTERN_MEMORY →
     wasm_externtype_copy (Ptr b o) s = wasm_memorytype_copy (Ptr b o) s
     ∧ wasm_externtype_delete (Ptr b o) s
       = wasm_memorytype_delete (Ptr b o) s).
Proof.
  intros Hb Hk.
  assert (Hload : load_int (Ptr b o) externtype_kind s = Ok kind s)
    by (by eapply load_int_cell).
  unfold wasm_externtype_copy, wasm_externtype_delete, externtype_copy,
    externtype_destroy, wasm_functype_copy, wasm_functype_delete,
    functype_destroy, wasm_globaltype_copy, wasm_globaltype_delete,
    wasm_tabletype_copy, wasm_tabletype_delete, wasm_memorytype_copy,
    wasm_memorytype_delete.
  cbn [is_null].
  rewrite !(bind_Ok _ _ _ _ _ Hload).
  split; [|split; [|split]]; intros ->; split; reflexivity.
Qed.

Lemma externtype_dispatch_agrees_witness :
  wasm_externtype_copy (Ptr 2 0) import_state
  = wasm_globaltype_copy (Ptr 2 0) import_state
  ∧ wasm_externtype_delete (Ptr 2 0) import_state
    = wasm_globaltype_delete (Ptr 2 0) import_state.
Proof.
  exact (proj1 (proj2 (externtype_dispatch_agrees import_state 2%positive 0
                         [Vint WASM_EXTERN_GLOBAL; Vint WASM_I32;
                          Vint WASM_CONST] WASM_EXTERN_GLOBAL
                         eq_refl eq_refl)) eq_refl).
Defined.

(** ** Import and export descriptors *)

(** Symbolic execution for states with many blocks: block disequalities
    are looked up in the context instead of being left to arithmetic, and
    the size tests are decided from the context. *)
Ltac hide_blocks :=
  repeat match goal with
         | H : ?a ≠ ?b |- _ =>
             match type of a with positive => clear H end
         end.

Ltac index := hide_blocks; rewrite ?length_insert; lia.

Ltac block_maps :=
  repeat first
    [ rewrite lookup_insert_eq
    | rewrite lookup_insert_ne by congruence
    | rewrite lookup_delete_eq
    | rewrite lookup_delete_ne by congruence
    | rewrite insert_insert_eq
    | rewrite alloc_ok by auto 20
    | rewrite Nat.add_0_r
    | rewrite length_insert
    | rewrite list_lookup_insert_eq by index
    | rewrite list_lookup_insert_ne by index
    | match goal with
      | |- context [(?a <? ?b)%nat] =>
          rewrite (proj2 (Nat.ltb_lt a b)) by index
      end
    | match goal with
      | H : ?m !! ?b = _ |- context [?m !! ?b] => rewrite H
      end
    | match goal with
      | H : (0 < ?z)%Z |- context [(0 <? ?z)%Z] =>
          rewrite (proj2 (Z.ltb_lt 0 z) H)
      end
    | progress cbn ].

Ltac block_exec := layout; prims; block_maps.

Ltac block_lookups :=
  repeat first
    [ rewrite lookup_insert_eq
    | rewrite lookup_insert_ne by congruence
    | rewrite lookup_delete_eq
    | rewrite lookup_delete_ne by congruence ];
  try done.

(** X17: when the allocation succeeds, [wasm_importtype_new] takes over the
    two names and the extern type: [module()] and [name()] point at members
    of the new object that hold the sizes and byte buffers of the caller's
    names, [type()] is the extern type pointer that was passed, and the
    caller's name structures are left indeterminate.  Deleting the import
    type then releases both byte buffers, the extern type (global, table or
    memory type) and the object itself. *)
Theorem wasm_importtype_new_owns (s : state)
    (bm : positive) (om : nat) (mcells : list val) (msize : Z) (bmd : positive)
    (bn : positive) (on : nat) (ncells : list val) (nsize : Z) (bnd : positive)
    (be : positive) (ecells mdcells ndcells : list val) (kind : Z) :
  mem s !! bm = Some mcells →
  mcells !! (om + vec_size) = Some (Vint msize) →
  mcells !! (om + vec_data) = Some (Vptr bmd 0) →
  mem s !! bn = Some ncells →
  ncells !! (on + vec_size) = Some (Vint nsize) →
  ncells !! (on + vec_data) = Some (Vptr bnd 0) →
  mem s !! bmd = Some mdcells →
  mem s !! bnd = Some ndcells →
  mem s !! be = Some ecells →
  ecells !! externtype_kind = Some (Vint kind) →
  flat_extern_kind kind →
  (0 < msize)%Z → (0 < nsize)%Z →
  NoDup [bm; bn; bmd; bnd; be] →
  mem s !! nextblock s = None →
  head (oom s) ≠ Some true →
  ∃ s' s'',
    wasm_importtype_new (Ptr bm om) (Ptr bn on) (Ptr be 0) s
    = Ok (Ptr (nextblock s) 0) s'
    ∧ wasm_importtype_module (Ptr (nextblock s) 0) s'
      = Ok (Ptr (nextblock s) importtype_modname) s'
    ∧ wasm_importtype_name (Ptr (nextblock s) 0) s'
      = Ok (Ptr (nextblock s) importtype_name) s'
    ∧ wasm_importtype_type (Ptr (nextblock s) 0) s' = Ok (Ptr be 0) s'
    ∧ mem s' !! nextblock s
      = Some [Vint msize; Vptr bmd 0; Vint nsize; Vptr bnd 0; Vptr be 0]
    ∧ loadf (Ptr bm om) vec_data s' = Ok Vundef s'
    ∧ loadf (Ptr bn on) vec_data s' = Ok Vundef s'
    ∧ wasm_importtype_delete (Ptr (nextblock s) 0) s' = Ok tt s''
    ∧ mem s'' !! nextblock s = None
    ∧ mem s'' !! bmd = None
    ∧ mem s'' !! bnd = None
    ∧ mem s'' !! be = None.
Proof.
  intros Hbm Hms Hmd Hbn Hns Hnd Hbmd Hbnd Hbe Hkind Hflat Hm Hn Hdup
    Hfresh Hoom.
  destruct s as [m nb o f]; cbn in *.
  apply NoDup_cons in Hdup as [H1 Hdup]. apply NoDup_cons in Hdup as [H2 Hdup].
  apply NoDup_cons in Hdup as [H3 Hdup]. apply NoDup_cons in Hdup as [H4 _].
  repeat rewrite not_elem_of_cons in H1.
  repeat rewrite not_elem_of_cons in H2.
  repeat rewrite not_elem_of_cons in H3.
  repeat rewrite not_elem_of_cons in H4.
  destruct H1 as (? & ? & ? & ? & _). destruct H2 as (? & ? & ? & _).
  destruct H3 as (? & ? & _). destruct H4 as (? & _).
  assert (bm ≠ nb) by congruence. assert (bn ≠ nb) by congruence.
  assert (bmd ≠ nb) by congruence. assert (bnd ≠ nb) by congruence.
  assert (be ≠ nb) by congruence.
  pose proof (lookup_lt_Some _ _ _ Hmd). pose proof (lookup_lt_Some _ _ _ Hnd).
  unfold wasm_importtype_new, importtype_ctor, swap_vec,
    wasm_importtype_module, wasm_importtype_name, wasm_importtype_type,
    wasm_importtype_delete, importtype_dtor, wasm_name_delete,
    wasm_byte_vec_delete, scalar_vec_delete, wasm_externtype_delete,
    externtype_destroy, wasm_externtype_as_functype,
    wasm_externtype_as_globaltype, wasm_externtype_as_tabletype,
    wasm_externtype_as_memorytype.
  layout. rewrite Nat.add_0_r in Hms, Hns.
  eexists _, _. split; [block_exec; reflexivity|].
  split; [by block_exec|]. split; [by block_exec|]. split; [by block_exec|].
  split; [cbn [mem]; by block_lookups|].
  split; [by block_exec|]. split; [by block_exec|].
  split.
  { destruct Hflat as [-> | [-> | ->]]; prims; block_maps; reflexivity. }
  cbn [mem]. repeat split; by block_lookups.
Qed.

Lemma wasm_importtype_new_owns_witness :
  ∃ s' s'',
    wasm_importtype_new (Ptr 1 0) (Ptr 3 0) (Ptr 5 0) import_args_state
    = Ok (Ptr 6 0) s'
    ∧ mem s' !! 6%positive
      = Some [Vint 2; Vptr 2 0; Vint 1; Vptr 4 0; Vptr 5 0]
    ∧ wasm_importtype_delete (Ptr 6 0) s' = Ok tt s''
    ∧ mem s'' !! 5%positive = None.
Proof.
  destruct (wasm_importtype_new_owns import_args_state
              1%positive 0 [Vint 2; Vptr 2 0] 2 2%positive
              3%positive 0 [Vint 1; Vptr 4 0] 1 4%positive
              5%positive
              [Vint WASM_EXTERN_GLOBAL; Vint WASM_I32; Vint WASM_CONST]
              [Vint 109; Vint 111] [Vint 103] WASM_EXTERN_GLOBAL)
    as (s' & s'' & H1 & _ & _ & _ & H2 & _ & _ & H3 & _ & _ & _ & H4);
    try reflexivity; try discriminate.
  - by left.
  - apply (bool_decide_unpack _). reflexivity.
  - by exists s', s''.
Defined.

(** X18: when the allocation succeeds, [wasm_exporttype_new] takes over the
    name and the extern type: [name()] points at the member of the new
    object holding the size and byte buffer of the caller's name, [type()]
    is the extern type pointer that was passed, and the caller's name
    structure is left indeterminate.  Deleting the export type releases the
    byte buffer, the extern type (global, table or memory type) and the
    object itself. *)
Theorem wasm_exporttype_new_owns (s : state)
    (bn : positive) (on : nat) (ncells : list val) (nsize : Z) (bnd : positive)
    (be : positive) (ecells ndcells : list val) (kind : Z) :
  mem s !! bn = Some ncells →
  ncells !! (on + vec_size) = Some (Vint nsize) →
  ncells !! (on + vec_data) = Some (Vptr bnd 0) →
  mem s !! bnd = Some ndcells →
  mem s !! be = Some ecells →
  ecells !! externtype_kind = Some (Vint kind) →
  flat_extern_kind kind →
  (0 < nsize)%Z →
  NoDup [bn; bnd; be] →
  mem s !! nextblock s = None →
  head (oom s) ≠ Some true →
  ∃ s' s'',
    wasm_exporttype_new (Ptr bn on) (Ptr be 0) s = Ok (Ptr (nextblock s) 0) s'
    ∧ wasm_exporttype_name (Ptr (nextblock s) 0) s'
      = Ok (Ptr (nextblock s) exporttype_name) s'
    ∧ wasm_exporttype_type (Ptr (nextblock s) 0) s' = Ok (Ptr be 0) s'
    ∧ mem s' !! nextblock s = Some [Vint nsize; Vptr bnd 0; Vptr be 0]
    ∧ loadf (Ptr bn on) vec_data s' = Ok Vundef s'
    ∧ wasm_exporttype_delete (Ptr (nextblock s) 0) s' = Ok tt s''
    ∧ mem s'' !! nextblock s = None
    ∧ mem s'' !! bnd = None
    ∧ mem s'' !! be = None.
Proof.
  intros Hbn Hns Hnd Hbnd Hbe Hkind Hflat Hn Hdup Hfresh Hoom.
  destruct s as [m nb o f]; cbn in *.
  apply NoDup_cons in Hdup as [H1 Hdup]. apply NoDup_cons in Hdup as [H2 _].
  repeat rewrite not_elem_of_cons in H1.
  repeat rewrite not_elem_of_cons in H2.
  destruct H1 as (? & ? & _). destruct H2 as (? & _).
  assert (bn ≠ nb) by congruence. assert (bnd ≠ nb) by congruence.
  assert (be ≠ nb) by congruence.
  pose proof (lookup_lt_Some _ _ _ Hnd).
  unfold wasm_exporttype_new, exporttype_ctor, swap_vec,
    wasm_exporttype_name, wasm_exporttype_type,
    wasm_exporttype_delete, exporttype_dtor, wasm_name_delete,
    wasm_byte_vec_delete, scalar_vec_delete, wasm_externtype_delete,
    externtype_destroy, wasm_externtype_as_functype,
    wasm_externtype_as_globaltype, wasm_externtype_as_tabletype,
    wasm_externtype_as_memorytype.
  layout. rewrite Nat.add_0_r in Hns.
  eexists _, _. split; [block_exec; reflexivity|].
  split; [by block_exec|]. split; [by block_exec|].
  split; [cbn [mem]; by block_lookups|].
  split; [by block_exec|].
  split.
  { destruct Hflat as [-> | [-> | ->]]; prims; block_maps; reflexivity. }
  cbn [mem]. repeat split; by block_lookups.
Qed.

Lemma wasm_exporttype_new_owns_witness :
  ∃ s' s'',
    wasm_exporttype_new (Ptr 3 0) (Ptr 5 0) import_args_state
    = Ok (Ptr 6 0) s'
    ∧ mem s' !! 6%positive = Some [Vint 1; Vptr 4 0; Vptr 5 0]
    ∧ wasm_exporttype_delete (Ptr 6 0) s' = Ok tt s''
    ∧ mem s'' !! 5%positive = None.
Proof.
  destruct (wasm_exporttype_new_owns import_args_state
              3%positive 0 [Vint 1; Vptr 4 0] 1 4%positive
              5%positive
              [Vint WASM_EXTERN_GLOBAL; Vint WASM_I32; Vint WASM_CONST]
              [Vint 103] WASM_EXTERN_GLOBAL)
    as (s' & s'' & H1 & _ & _ & H2 & _ & H3 & _ & _ & H4);
    try reflexivity; try discriminate.
  - by left.
  - apply (bool_decide_unpack _). reflexivity.
  - by exists s', s''.
Defined.

(** ** Copies of the flat type descriptors *)

(** X19: when the allocation succeeds, the copy of a value type, of a global
    type, of a table type or of a memory type is a fresh object with the same
    contents, and the original is unchanged; the two are independent
    objects, so deleting the copy leaves the original live. *)
Theorem flat_copy_independent (s : state) (b : positive) :
  mem s !! nextblock s = None →
  head (oom s) ≠ Some true →
  let nb := nextblock s in
  (∀ k,
     mem s !! b = Some [Vint k] →
     ∃ s' s'',
       wasm_valtype_copy (Ptr b 0) s = Ok (Ptr nb 0) s'
       ∧ mem s' !! nb = Some [Vint k] ∧ mem s' !! b = Some [Vint k]
       ∧ wasm_valtype_delete (Ptr nb 0) s' = Ok tt s''
       ∧ mem s'' !! nb = None ∧ mem s'' !! b = Some [Vint k])
  ∧ (∀ k mut,
       let obj := [Vint WASM_EXTERN_GLOBAL; Vint k; Vint mut] in
       mem s !! b = Some obj →
       ∃ s' s'',
         wasm_globaltype_copy (Ptr b 0) s = Ok (Ptr nb 0) s'
         ∧ mem s' !! nb = Some obj ∧ mem s' !! b = Some obj
         ∧ wasm_globaltype_delete (Ptr nb 0) s' = Ok tt s''
         ∧ mem s'' !! nb = None ∧ mem s'' !! b = Some obj)
  ∧ (∀ k lo hi,
       let obj := [Vint WASM_EXTERN_TABLE; Vint k; Vint lo; Vint hi] in
       mem s !! b = Some obj →
       ∃ s' s'',
         wasm_tabletype_copy (Ptr b 0) s = Ok (Ptr nb 0) s'
         ∧ mem s' !! nb = Some obj ∧ mem s' !! b = Some obj
         ∧ wasm_tabletype_delete (Ptr nb 0) s' = Ok tt s''
         ∧ mem s'' !! nb = None ∧ mem s'' !! b = Some obj)
  ∧ (∀ lo hi,
       let obj := [Vint WASM_EXTERN_MEMORY; Vint lo; Vint hi] in
       mem s !! b = Some obj →
       ∃ s' s'',
         wasm_memorytype_copy (Ptr b 0) s = Ok (Ptr nb 0) s'
         ∧ mem s' !! nb = Some obj ∧ mem s' !! b = Some obj
         ∧ wasm_memorytype_delete (Ptr nb 0) s' = Ok tt s''
         ∧ mem s'' !! nb = None ∧ mem s'' !! b = Some obj).
Proof.
  intros Hfresh Hoom. destruct s as [m nb o f]; cbn in *.
  unfold wasm_valtype_copy, wasm_valtype_delete,
    wasm_globaltype_copy, globaltype_ctor_copy, wasm_globaltype_delete,
    wasm_tabletype_copy, tabletype_ctor_copy, wasm_tabletype_delete,
    wasm_memorytype_copy, memorytype_ctor_copy, wasm_memorytype_delete,
    copy_limits, valtype_ctor_copy.
  layout.
  split; [|split; [|split]]; intros; assert (b ≠ nb) by congruence;
    eexists _, _;
    (split; [exec; reflexivity|]); cbn [mem];
    (split; [by lookups|]); (split; [by lookups|]);
    (split; [exec; reflexivity|]); cbn [mem]; split; by lookups.
Qed.

Lemma flat_copy_independent_witness :
  ∃ s' s'',
    wasm_globaltype_copy (Ptr 2 0) import_state = Ok (Ptr 3 0) s'
    ∧ mem s' !! 3%positive
      = Some [Vint WASM_EXTERN_GLOBAL; Vint WASM_I32; Vint WASM_CONST]
    ∧ wasm_globaltype_delete (Ptr 3 0) s' = Ok tt s''
    ∧ mem s'' !! 2%positive
      = Some [Vint WASM_EXTERN_GLOBAL; Vint WASM_I32; Vint WASM_CONST].
Proof.
  destruct (flat_copy_independent import_state 2%positive)
    as (_ & Hg & _); try reflexivity; try discriminate.
  destruct (Hg WASM_I32 WASM_CONST eq_refl)
    as (s' & s'' & H1 & H2 & _ & H3 & _ & H4).
  by exists s', s''.
Defined.

(** ** Vectors of live elements *)

Lemma lookup_release bs : ∀ m k,
  release bs m !! k = if decide (k ∈ bs) then None else m !! k.
Proof.
  induction bs as [|b bs IH]; intros m k; cbn.
  - by rewrite decide_False by apply not_elem_of_nil.
  - fold (release bs (delete b m)). rewrite IH.
    destruct (decide (k = b)) as [->|Hne].
    + rewrite (decide_True (P := b ∈ b :: bs)) by apply list_elem_of_here.
      case_decide; [done|]. by rewrite lookup_delete_eq.
    + rewrite lookup_delete_ne by done.
      repeat case_decide; try done.
      * exfalso. eauto using list_elem_of_further.
      * exfalso. by apply elem_of_cons in H0 as [|].
Qed.

(** The deletion loop over slots that point at distinct live objects
    releases each of them once. *)
Lemma delete_loop_live bv ov vcells bd dcells nb o f :
  vcells !! (ov + vec_data) = Some (Vptr bd 0) →
  ∀ rest i m,
    m !! bv = Some vcells →
    m !! bd = Some dcells →
    (∀ j b, rest !! j = Some b → dcells !! (i + j) = Some (Vptr b 0)) →
    NoDup rest → bv ∉ rest → bd ∉ rest →
    (∀ b, b ∈ rest → is_Some (m !! b)) →
    for_loop (length rest) i (fun i =>
      d <- load_ptr (Ptr bv ov) vec_data ;;
      e <- load_ptr d i ;;
      wasm_valtype_delete e) (State m nb o f)
    = Ok tt (State (release rest m) nb o f).
Proof.
  intros Hdata. induction rest as [|b rest IH];
    intros i m Hbv Hbd Hslots Hdup Hbvn Hbdn Hlive; [reflexivity|].
  apply NoDup_cons in Hdup as [Hb Hdup].
  apply not_elem_of_cons in Hbvn as [? ?].
  apply not_elem_of_cons in Hbdn as [? ?].
  destruct (Hlive b) as [cells Hcells]; [apply list_elem_of_here|].
  cbn [for_loop length].
  assert (Hbody :
    (d <- load_ptr (Ptr bv ov) vec_data ;;
     e <- load_ptr d i ;;
     wasm_valtype_delete e) (State m nb o f)
    = Ok tt (State (delete b m) nb o f)).
  { rewrite (bind_Ok _ _ _ _ _
               (load_ptr_cell bv ov vec_data vcells (Ptr bd 0)
                  (State m nb o f) Hbv Hdata)).
    assert (Hslot : dcells !! (0 + i) = Some (val_of_ptr (Ptr b 0))).
    { specialize (Hslots 0 b eq_refl). by rewrite Nat.add_0_r in Hslots. }
    rewrite (bind_Ok _ _ _ _ _
               (load_ptr_cell bd 0 i dcells (Ptr b 0)
                  (State m nb o f) Hbd Hslot)).
    unfold wasm_valtype_delete, free. cbn. by rewrite Hcells. }
  rewrite (bind_Ok _ _ _ _ _ Hbody).
  rewrite (IH (S i) (delete b m)); try done.
  - by rewrite lookup_delete_ne.
  - by rewrite lookup_delete_ne.
  - intros j b' Hj. specialize (Hslots (S j) b' Hj).
    by replace (S i + j) with (i + S j) by lia.
  - intros b' Hb'. rewrite lookup_delete_ne.
    + apply Hlive. by apply list_elem_of_further.
    + by intros ->.
Qed.

Lemma flat_ptr_vec_delete V :
  flat_ptr_vec V → wasm_ptr_vec_delete V = ptr_vec_delete wasm_valtype_delete.
Proof. by intros [-> | [-> | [-> | ->]]]. Qed.

(** The deletion of a vector of distinct live flat elements, as a state
    transformer. *)
Lemma ptr_vec_delete_exact m nb o f
    (bv : positive) (ov : nat) (vcells : list val)
    (bd : positive) (bs : list positive) :
  m !! bv = Some vcells →
  vcells !! (ov + vec_size) = Some (Vint (Z.of_nat (length bs))) →
  vcells !! (ov + vec_data) = Some (Vptr bd 0) →
  m !! bd = Some (ptrs_of bs) →
  bs ≠ [] →
  NoDup (bv :: bd :: bs) →
  (∀ b, b ∈ bs → is_Some (m !! b)) →
  ptr_vec_delete wasm_valtype_delete (Ptr bv ov) (State m nb o f)
  = Ok tt (State
             (<[bv := <[ov + vec_data := nullptr]>
                        (<[ov + vec_size := Vint 0]> vcells)]>
                (delete bd (release bs m))) nb o f).
Proof.
  intros Hbv Hsz Hdata Hbd Hne Hdup Hlive.
  apply NoDup_cons in Hdup as [Hbvn Hdup].
  apply NoDup_cons in Hdup as [Hbdn Hdup].
  apply not_elem_of_cons in Hbvn as [Hvd Hbvn].
  assert (Hpos : (0 < Z.of_nat (length bs))%Z) by (destruct bs; [done|cbn; lia]).
  pose proof (lookup_lt_Some _ _ _ Hdata) as Hl.
  unfold ptr_vec_delete. cbn [is_null].
  set (s := State m nb o f).
  rewrite (bind_Ok _ _ _ _ _ (load_int_cell bv ov vec_size vcells _ s Hbv Hsz)).
  rewrite (proj2 (Z.ltb_lt 0 _) Hpos).
  unfold bind at 1 2.
  rewrite (load_int_cell bv ov vec_size vcells _ s Hbv Hsz).
  rewrite Nat2Z.id. unfold bind at 1. subst s.
  assert (Hslots : ∀ j b, bs !! j = Some b →
                          ptrs_of bs !! (0 + j) = Some (Vptr b 0)).
  { intros j b Hj. unfold ptrs_of. cbn. by rewrite list_lookup_fmap, Hj. }
  rewrite (delete_loop_live bv ov vcells bd (ptrs_of bs) nb o f Hdata bs 0 m
             Hbv Hbd Hslots Hdup Hbvn Hbdn Hlive).
  assert (Hbv' : release bs m !! bv = Some vcells)
    by (by rewrite lookup_release, decide_False).
  assert (Hbd' : release bs m !! bd = Some (ptrs_of bs))
    by (by rewrite lookup_release, decide_False).
  layout. rewrite Nat.add_0_r in Hsz. by exec.
Qed.

(** X20: deleting a vector of value, global, table or memory types whose
    slots point at distinct live objects releases every element and the
    buffer, leaves the vector structure with size 0 and null data, and
    changes no other block. *)
Theorem ptr_vec_delete_releases (V : ptr_vec_type) (s : state)
    (bv : positive) (ov : nat) (vcells : list val)
    (bd : positive) (bs : list positive) :
  flat_ptr_vec V →
  mem s !! bv = Some vcells →
  vcells !! (ov + vec_size) = Some (Vint (Z.of_nat (length bs))) →
  vcells !! (ov + vec_data) = Some (Vptr bd 0) →
  mem s !! bd = Some (ptrs_of bs) →
  bs ≠ [] →
  NoDup (bv :: bd :: bs) →
  (∀ b, b ∈ bs → is_Some (mem s !! b)) →
  ∃ s',
    wasm_ptr_vec_delete V (Ptr bv ov) s = Ok tt s'
    ∧ (∀ b, b ∈ bs → mem s' !! b = None)
    ∧ mem s' !! bd = None
    ∧ loadf (Ptr bv ov) vec_size s' = Ok (Vint 0) s'
    ∧ loadf (Ptr bv ov) vec_data s' = Ok nullptr s'
    ∧ ∀ b, b ∉ bs → b ≠ bd → b ≠ bv → mem s' !! b = mem s !! b.
Proof.
  intros HV Hbv Hsz Hdata Hbd Hne Hdup Hlive.
  destruct s as [m nb o f]; cbn [mem] in *.
  rewrite (flat_ptr_vec_delete V HV).
  rewrite (ptr_vec_delete_exact m nb o f bv ov vcells bd bs) by done.
  apply NoDup_cons in Hdup as [Hbvn Hdup].
  apply NoDup_cons in Hdup as [Hbdn Hdup].
  apply not_elem_of_cons in Hbvn as [Hvd Hbvn].
  pose proof (lookup_lt_Some _ _ _ Hdata) as Hl.
  eexists. split; [reflexivity|]. cbn [mem].
  split; [|split; [|split; [|split]]].
  - intros b Hb. rewrite lookup_insert_ne by (by intros ->).
    rewrite lookup_delete_ne by (by intros ->).
    by rewrite lookup_release, decide_True.
  - by lookups.
  - layout. by exec.
  - layout. by exec.
  - intros b ? ? ?. lookups. by rewrite lookup_release, decide_False.
Qed.

Lemma ptr_vec_delete_releases_witness :
  ∃ s',
    wasm_valtype_vec_delete (Ptr 4 0) vec_state = Ok tt s'
    ∧ mem s' !! 1%positive = None
    ∧ mem s' !! 2%positive = None
    ∧ mem s' !! 3%positive = None.
Proof.
  destruct (ptr_vec_delete_releases VecValtype vec_state 4%positive 0
              [Vint 2; Vptr 3 0] 3%positive [1; 2]%positive)
    as (s' & H1 & H2 & H3 & _); try reflexivity; try discriminate.
  - by left.
  - apply (bool_decide_unpack _). reflexivity.
  - intros b Hb. apply elem_of_cons in Hb as [->|Hb]; [by eexists|].
    apply elem_of_cons in Hb as [->|Hb]; [by eexists|].
    by apply elem_of_nil in Hb.
  - exists s'. split; [exact H1|]. split; [|split; [|exact H3]].
    + apply H2. apply list_elem_of_here.
    + apply H2. apply list_elem_of_further, list_elem_of_here.
Defined.

Lemma loadf_cell b o k cells v s :
  mem s !! b = Some cells → cells !! (o + k) = Some v →
  loadf (Ptr b o) k s = Ok v s.
Proof. intros. unfold loadf. cbn [shift]. by eapply load_cell. Qed.

Lemma storef_cell b o k cells v m nb oo f :
  m !! b = Some cells → o + k < length cells →
  storef (Ptr b o) k v (State m nb oo f)
  = Ok tt (State (<[b := <[o + k := v]> cells]> m) nb oo f).
Proof.
  intros Hb Hl. unfold storef, store. cbn. rewrite Hb.
  by rewrite (proj2 (Nat.ltb_lt _ _) Hl).
Qed.

(** One element of a vector of value types is copied: a fresh object with
    the kind of the element, whose address goes into the slot. *)
Lemma valtype_copy_step bi oi icells bsrc scells bo oo ocells bd dcells
    i b k m cur o f :
  icells !! (oi + vec_data) = Some (Vptr bsrc 0) →
  ocells !! (oo + vec_data) = Some (Vptr bd 0) →
  m !! bi = Some icells → m !! bsrc = Some scells →
  m !! bo = Some ocells → m !! bd = Some dcells →
  scells !! i = Some (Vptr b 0) →
  m !! b = Some [Vint k] →
  i < length dcells →
  m !! cur = None →
  head o ≠ Some true →
  (src <- load_ptr (Ptr bi oi) vec_data ;;
   e <- load_ptr src i ;;
   c <- wasm_valtype_copy e ;;
   dst <- load_ptr (Ptr bo oo) vec_data ;;
   storef dst i (val_of_ptr c)) (State m cur o f)
  = Ok tt (State (<[bd := <[i := Vptr cur 0]> dcells]> (<[cur := [Vint k]]> m))
             (Pos.succ cur) (tail o) f).
Proof.
  intros Hidata Hodata Hbi Hbsrc Hbo Hbd Hslot Hb Hlen Hfresh Hoom.
  assert (bi ≠ cur) by congruence. assert (bsrc ≠ cur) by congruence.
  assert (bo ≠ cur) by congruence. assert (bd ≠ cur) by congruence.
  assert (b ≠ cur) by congruence.
  unfold wasm_valtype_copy, valtype_ctor_copy. layout. prims. block_maps.
  reflexivity.
Qed.

(** The copy loop over a vector of value types. *)
Lemma valtype_copy_loop bi oi icells bsrc scells bo oo ocells bd nb f :
  icells !! (oi + vec_data) = Some (Vptr bsrc 0) →
  ocells !! (oo + vec_data) = Some (Vptr bd 0) →
  bd ≠ bi → bd ≠ bsrc → bd ≠ bo →
  ∀ (rest : list (positive * Z)) i m dcells o,
    m !! bi = Some icells → m !! bsrc = Some scells →
    m !! bo = Some ocells → m !! bd = Some dcells →
    i + length rest ≤ length dcells →
    (∀ j b k, rest !! j = Some (b, k) →
       scells !! (i + j) = Some (Vptr b 0) ∧ m !! b = Some [Vint k]) →
    (∀ b, (block_after nb i ≤ b)%positive → m !! b = None) →
    Forall (λ x : bool, x = false) o →
    ∃ m' dcells' o',
      for_loop (length rest) i (fun i =>
        src <- load_ptr (Ptr bi oi) vec_data ;;
        e <- load_ptr src i ;;
        c <- wasm_valtype_copy e ;;
        dst <- load_ptr (Ptr bo oo) vec_data ;;
        storef dst i (val_of_ptr c)) (State m (block_after nb i) o f)
      = Ok tt (State m' (block_after nb (i + length rest)) o' f)
      ∧ m' !! bd = Some dcells'
      ∧ length dcells' = length dcells
      ∧ (∀ j, j < i → dcells' !! j = dcells !! j)
      ∧ (∀ j b k, rest !! j = Some (b, k) →
           dcells' !! (i + j) = Some (Vptr (block_after nb (i + j)) 0)
           ∧ m' !! block_after nb (i + j) = Some [Vint k])
      ∧ (∀ b, (b < block_after nb i)%positive → b ≠ bd → m' !! b = m !! b)
      ∧ (∀ b, (block_after nb (i + length rest) ≤ b)%positive →
           m' !! b = None)
      ∧ Forall (λ x : bool, x = false) o'.
Proof.
  intros Hidata Hodata Hd1 Hd2 Hd3.
  induction rest as [|[b k] rest IH];
    intros i m dcells o Hbi Hbsrc Hbo Hbd Hlen Hels Hfresh Hoom.
  - exists m, dcells, o. cbn [for_loop length]. rewrite Nat.add_0_r.
    repeat split; done.
  - cbn [length] in Hlen.
    destruct (Hels 0 b k eq_refl) as [Hslot Hb]. rewrite Nat.add_0_r in Hslot.
    set (cur := block_after nb i) in *.
    assert (Hcur : m !! cur = None) by (apply Hfresh; lia).
    assert (Hlive : ∀ x c, m !! x = Some c → (x < cur)%positive).
    { intros x c Hx. destruct (decide (cur ≤ x)%positive) as [Hle|]; [|lia].
      rewrite (Hfresh x Hle) in Hx. done. }
    pose proof (Hlive _ _ Hbi). pose proof (Hlive _ _ Hbsrc).
    pose proof (Hlive _ _ Hbo). pose proof (Hlive _ _ Hbd).
    pose proof (Hlive _ _ Hb).
    pose proof (valtype_copy_step bi oi icells bsrc scells bo oo ocells bd
                  dcells i b k m cur o f Hidata Hodata Hbi Hbsrc Hbo Hbd
                  Hslot Hb ltac:(lia) Hcur (no_oom_head _ Hoom)) as Hbody.
    replace (Pos.succ cur) with (block_after nb (S i)) in Hbody
      by (subst cur; unfold block_after; lia).
    set (dcells2 := <[i := Vptr cur 0]> dcells) in *.
    set (m2 := <[bd := dcells2]> (<[cur := [Vint k]]> m)) in *.
    assert (Hsucc : (cur < block_after nb (S i))%positive)
      by (subst cur; unfold block_after; lia).
    destruct (IH (S i) m2 dcells2 (tail o))
      as (m' & dcells' & o' & Hloop & Hbd' & Hlen' & Hpre & Hels' & Hframe
          & Hfresh' & Hoom').
    { subst m2. rewrite !lookup_insert_ne by lia. done. }
    { subst m2. rewrite !lookup_insert_ne by lia. done. }
    { subst m2. rewrite !lookup_insert_ne by lia. done. }
    { subst m2. by rewrite lookup_insert_eq. }
    { subst dcells2. rewrite length_insert. lia. }
    { intros j b' k' Hj. destruct (Hels (S j) b' k' Hj) as [Hs' Hb'].
      replace (S i + j) with (i + S j) by lia. split; [done|].
      pose proof (Hlive _ _ Hb'). subst m2.
      destruct (decide (b' = bd)) as [->|Hne].
      - rewrite Hbd in Hb'. injection Hb' as Hd. rewrite Hd in Hlen.
        destruct rest; [done|cbn in Hlen; lia].
      - rewrite !lookup_insert_ne by lia. done. }
    { intros x Hx. subst m2. rewrite !lookup_insert_ne by lia.
      apply Hfresh. lia. }
    { by apply no_oom_tail. }
    exists m', dcells', o'. split.
    { cbn [for_loop length]. rewrite (bind_Ok _ _ _ _ _ Hbody).
      rewrite Hloop. by replace (S i + length rest) with (i + S (length rest))
        by lia. }
    split; [done|]. split.
    { rewrite Hlen'. subst dcells2. by rewrite length_insert. }
    split.
    { intros j Hj. rewrite Hpre by lia. subst dcells2.
      by rewrite list_lookup_insert_ne by lia. }
    split.
    { intros [|j] b' k' Hj.
      - cbn in Hj. injection Hj as <- <-. rewrite Nat.add_0_r. fold cur.
        split.
        + rewrite Hpre by lia. subst dcells2.
          apply list_lookup_insert_eq. lia.
        + rewrite Hframe by lia. subst m2.
          rewrite lookup_insert_ne by lia. by rewrite lookup_insert_eq.
      - cbn in Hj. destruct (Hels' j b' k' Hj) as [Hd' Hm'].
        by replace (i + S j) with (S i + j) by lia. }
    split.
    { intros x Hx Hne. rewrite Hframe by lia. subst m2.
      rewrite !lookup_insert_ne by lia. done. }
    split; [|done].
    intros x Hx. apply Hfresh'.
    by replace (S i + length rest) with (i + S (length rest)) by lia.
Qed.

(** The copy of a non-empty pointer vector up to its loop: [out] gets the
    size and a fresh buffer, then the elements are copied one by one. *)
Lemma ptr_vec_copy_prefix (elem_copy : ptr → M ptr) m nb o f
    (bo : positive) (oo : nat) (ocells : list val)
    (bi : positive) (oi : nat) (icells : list val) (size : Z) :
  m !! bi = Some icells →
  icells !! (oi + vec_size) = Some (Vint size) →
  (0 < size)%Z →
  m !! bo = Some ocells →
  oo + vec_data < length ocells →
  bo ≠ bi → bo ≠ nb → bi ≠ nb →
  head o ≠ Some true →
  ptr_vec_copy elem_copy (Ptr bo oo) (Ptr bi oi) (State m nb o f)
  = for_loop (Z.to_nat size) 0 (fun i =>
      src <- load_ptr (Ptr bi oi) vec_data ;;
      e <- load_ptr src i ;;
      c <- elem_copy e ;;
      dst <- load_ptr (Ptr bo oo) vec_data ;;
      storef dst i (val_of_ptr c))
      (State (<[nb := replicate (Z.to_nat size) Vundef]>
                (<[bo := <[oo + vec_data := Vptr nb 0]>
                           (<[oo + vec_size := Vint size]> ocells)]> m))
             (Pos.succ nb) (tail o) f).
Proof.
  intros Hbi Hsz Hsize Hbo Hlen Hne1 Hne2 Hne3 Hoom.
  assert (Hlen0 : oo + vec_size < length ocells)
    by (unfold vec_size, vec_data in *; lia).
  unfold ptr_vec_copy. cbn [is_null orb].
  rewrite (bind_Ok _ _ _ _ _
             (loadf_cell bi oi vec_size icells _ (State m nb o f) Hbi Hsz)).
  rewrite (bind_Ok _ _ _ _ _
             (storef_cell bo oo vec_size ocells _ m nb o f Hbo Hlen0)).
  set (c1 := <[oo + vec_size := Vint size]> ocells).
  rewrite (bind_Ok _ _ _ _ _
             (storef_cell bo oo vec_data c1 nullptr (<[bo := c1]> m) nb o f
                ltac:(by rewrite lookup_insert_eq)
                ltac:(subst c1; by rewrite length_insert))).
  rewrite insert_insert_eq.
  set (m2 := <[bo := <[oo + vec_data := nullptr]> c1]> m).
  assert (Hbi2 : m2 !! bi = Some icells)
    by (subst m2; by rewrite lookup_insert_ne).
  rewrite (bind_Ok _ _ _ _ _
             (load_int_cell bi oi vec_size icells size (State m2 nb o f)
                Hbi2 Hsz)).
  rewrite (proj2 (Z.ltb_lt 0 size) Hsize).
  rewrite (bind_Ok _ _ _ _ _
             (load_int_cell bi oi vec_size icells size (State m2 nb o f)
                Hbi2 Hsz)).
  rewrite (bind_Ok _ _ _ _ _ (alloc_ok (Z.to_nat size) m2 nb o f Hoom)).
  set (m3 := <[nb := replicate (Z.to_nat size) Vundef]> m2).
  rewrite (bind_Ok _ _ _ _ _
             (storef_cell bo oo vec_data (<[oo + vec_data := nullptr]> c1)
                (val_of_ptr (Ptr nb 0)) m3 (Pos.succ nb) (tail o) f
                ltac:(subst m3 m2; rewrite lookup_insert_ne by done;
                      by rewrite lookup_insert_eq)
                ltac:(subst c1; by rewrite !length_insert))).
  rewrite list_insert_insert_eq.
  set (m4 := <[bo := _]> m3).
  assert (Hbi4 : m4 !! bi = Some icells).
  { subst m4 m3. by rewrite !lookup_insert_ne. }
  rewrite (bind_Ok _ _ _ _ _
             (load_int_cell bi oi vec_size icells size
                (State m4 (Pos.succ nb) (tail o) f) Hbi4 Hsz)).
  f_equal. f_equal. subst m4 m3 m2. cbn [val_of_ptr].
  apply map_eq. intros k.
  destruct (decide (k = nb)) as [->|]; [by lookups|].
  destruct (decide (k = bo)) as [->|]; by lookups.
Qed.

Lemma block_after_inj nb : Inj (=) (=) (block_after nb).
Proof. intros i j. unfold block_after. lia. Qed.

Lemma elem_of_blocks_after nb n b :
  b ∈ block_after nb <$> seq 0 n ↔ ∃ j, j < n ∧ b = block_after nb j.
Proof.
  rewrite list_elem_of_fmap. split.
  - intros (j & -> & Hj). apply elem_of_seq in Hj. exists j. split; [lia|done].
  - intros (j & Hj & ->). exists j. split; [done|]. apply elem_of_seq. lia.
Qed.

(** X21: when no allocation fails, copying a non-empty vector of value types
    is a deep copy: [out] gets the size of the source and a fresh buffer
    whose slots point at fresh value types, one per element and of the same
    kind, in order; every block that was live, apart from [out], is
    unchanged.  Deleting the copy afterwards releases exactly the blocks the
    copy allocated, so the source vector and its elements stay live. *)
Theorem valtype_vec_copy_deep (s : state)
    (bo : positive) (oo : nat) (ocells : list val)
    (bi : positive) (oi : nat) (icells : list val)
    (bsrc : positive) (elems : list (positive * Z)) :
  mem s !! bi = Some icells →
  icells !! (oi + vec_size) = Some (Vint (Z.of_nat (length elems))) →
  icells !! (oi + vec_data) = Some (Vptr bsrc 0) →
  mem s !! bsrc = Some (ptrs_of elems.*1) →
  (∀ j b k, elems !! j = Some (b, k) → mem s !! b = Some [Vint k]) →
  elems ≠ [] →
  mem s !! bo = Some ocells →
  oo + vec_data < length ocells →
  bo ≠ bi → bo ≠ bsrc → bo ∉ elems.*1 →
  (∀ b, (nextblock s ≤ b)%positive → mem s !! b = None) →
  no_oom s →
  let nb := nextblock s in
  let n := length elems in
  ∃ s' s'',
    wasm_valtype_vec_copy (Ptr bo oo) (Ptr bi oi) s = Ok tt s'
    ∧ loadf (Ptr bo oo) vec_size s' = Ok (Vint (Z.of_nat n)) s'
    ∧ loadf (Ptr bo oo) vec_data s' = Ok (Vptr nb 0) s'
    ∧ mem s' !! nb = Some (ptrs_of (block_after nb <$> seq 0 n))
    ∧ (∀ j b k, elems !! j = Some (b, k) →
         mem s' !! block_after nb j = Some [Vint k])
    ∧ (∀ b, (b < nb)%positive → b ≠ bo → mem s' !! b = mem s !! b)
    ∧ wasm_valtype_vec_delete (Ptr bo oo) s' = Ok tt s''
    ∧ (∀ b, (b < nb)%positive → b ≠ bo → mem s'' !! b = mem s !! b)
    ∧ (∀ b, (nb ≤ b)%positive → mem s'' !! b = None).
Proof.
  intros Hbi Hsz Hdata Hbsrc Hels Hne Hbo Hlen Hne1 Hne2 Hne3 Hfresh Hoom
    nb0 n.
  destruct s as [m nb o f]; cbn [mem nextblock oom] in *.
  unfold no_oom in Hoom; cbn [oom] in Hoom. subst nb0.
  assert (Hnpos : (0 < Z.of_nat n)%Z) by (subst n; destruct elems; [done|cbn; lia]).
  assert (Hlive : ∀ x c, m !! x = Some c → (x < nb)%positive).
  { intros x c Hx. destruct (decide (nb ≤ x)%positive) as [Hle|]; [|lia].
    by rewrite (Hfresh x Hle) in Hx. }
  pose proof (Hlive _ _ Hbi). pose proof (Hlive _ _ Hbo).
  pose proof (Hlive _ _ Hbsrc).
  unfold wasm_valtype_vec_copy.
  rewrite (ptr_vec_copy_prefix wasm_valtype_copy m nb o f bo oo ocells
             bi oi icells (Z.of_nat n)) by (done || lia || auto).
  rewrite Nat2Z.id.
  set (oc := <[oo + vec_data := Vptr nb 0]>
               (<[oo + vec_size := Vint (Z.of_nat n)]> ocells)).
  set (m4 := <[nb := replicate n Vundef]> (<[bo := oc]> m)).
  assert (Hoc_data : oc !! (oo + vec_data) = Some (Vptr nb 0)).
  { subst oc. apply list_lookup_insert_eq. by rewrite length_insert. }
  assert (Hoc_size : oc !! (oo + vec_size) = Some (Vint (Z.of_nat n))).
  { subst oc. unfold vec_size, vec_data in *.
    rewrite list_lookup_insert_ne by lia. apply list_lookup_insert_eq. lia. }
  replace (Pos.succ nb) with (block_after nb 0)
    by (unfold block_after; lia).
  destruct (valtype_copy_loop bi oi icells bsrc (ptrs_of elems.*1) bo oo oc nb
              nb f Hdata Hoc_data ltac:(lia) ltac:(lia) ltac:(lia)
              elems 0 m4 (replicate n Vundef) (tail o))
    as (m' & dcells' & o' & Hloop & Hbd' & Hlen' & _ & Hels' & Hframe
        & Hfresh' & Hoom').
  { subst m4. by rewrite !lookup_insert_ne by lia. }
  { subst m4. by rewrite !lookup_insert_ne by lia. }
  { subst m4. rewrite lookup_insert_ne by lia. by rewrite lookup_insert_eq. }
  { subst m4. by rewrite lookup_insert_eq. }
  { rewrite length_replicate. subst n. lia. }
  { intros j b k Hj. cbn [plus]. split.
    - unfold ptrs_of. by rewrite !list_lookup_fmap, Hj.
    - pose proof (Hels j b k Hj) as Hb. pose proof (Hlive _ _ Hb).
      subst m4. rewrite !lookup_insert_ne; [done|..].
      + intros ->. apply Hne3. apply list_elem_of_fmap.
        exists (b, k). split; [done|]. by eapply list_elem_of_lookup_2.
      + lia. }
  { intros b Hb. subst m4. unfold block_after in Hb.
    rewrite !lookup_insert_ne by lia. apply Hfresh. lia. }
  { by apply no_oom_tail. }
  cbn [plus] in *. fold n in Hloop, Hfresh'.
  rewrite length_replicate in Hlen'.
  set (bs := block_after nb <$> seq 0 n).
  assert (Hbuf : dcells' = ptrs_of bs).
  { apply list_eq. intros j. unfold ptrs_of. subst bs.
    rewrite !list_lookup_fmap.
    destruct (decide (j < n)) as [Hj|Hj].
    - destruct (lookup_lt_is_Some_2 elems j Hj) as [[b k] Hbk].
      rewrite (proj1 (Hels' j b k Hbk)). rewrite lookup_seq_lt by done.
      done.
    - rewrite lookup_seq_ge by lia. rewrite lookup_ge_None_2 by lia. done. }
  assert (Hbo' : m' !! bo = Some oc).
  { rewrite Hframe by (unfold block_after; lia). subst m4.
    rewrite lookup_insert_ne by lia. by rewrite lookup_insert_eq. }
  assert (Hold : ∀ b, (b < nb)%positive → b ≠ bo → m' !! b = m !! b).
  { intros b Hb Hbne. rewrite Hframe by (unfold block_after; lia). subst m4.
    by rewrite !lookup_insert_ne by lia. }
  assert (Hnew : ∀ j b k, elems !! j = Some (b, k) →
                          m' !! block_after nb j = Some [Vint k]).
  { intros j b k Hj. by destruct (Hels' j b k Hj). }
  assert (Hdup : NoDup (bo :: nb :: bs)).
  { apply NoDup_cons. split.
    - apply not_elem_of_cons. split; [lia|]. subst bs.
      rewrite elem_of_blocks_after. intros (j & _ & ->).
      unfold block_after in *. lia.
    - apply NoDup_cons. split.
      + subst bs. rewrite elem_of_blocks_after. intros (j & _ & Hj).
        unfold block_after in Hj. lia.
      + subst bs. apply NoDup_fmap_2; [apply block_after_inj|apply NoDup_seq]. }
  assert (Hlive' : ∀ b, b ∈ bs → is_Some (m' !! b)).
  { intros b Hb. subst bs. apply elem_of_blocks_after in Hb as (j & Hj & ->).
    destruct (lookup_lt_is_Some_2 elems j Hj) as [[b k] Hbk].
    rewrite (Hnew j b k Hbk). by eexists. }
  assert (Hsz' : oc !! (oo + vec_size) = Some (Vint (Z.of_nat (length bs)))).
  { subst bs. by rewrite length_fmap, length_seq. }
  rewrite Hbuf in Hbd'.
  eexists _, _. split; [exact Hloop|].
  split; [by eapply loadf_cell|]. split; [by eapply loadf_cell|].
  cbn [mem]. split; [done|]. split; [done|]. split; [done|].
  unfold wasm_valtype_vec_delete.
  rewrite (ptr_vec_delete_exact m' (block_after nb n) o' f bo oo oc nb bs)
    by (try done; subst bs n; by destruct elems).
  split; [reflexivity|]. cbn [mem]. split.
  - intros b Hb Hbne. rewrite lookup_insert_ne by done.
    rewrite lookup_delete_ne by lia.
    rewrite lookup_release, decide_False; [by apply Hold|].
    subst bs. rewrite elem_of_blocks_after. intros (j & _ & ->).
    unfold block_after in Hb. lia.
  - intros b Hb. rewrite lookup_insert_ne by lia.
    destruct (decide (b = nb)) as [->|Hbn]; [by rewrite lookup_delete_eq|].
    rewrite lookup_delete_ne by done. rewrite lookup_release.
    case_decide as Hin; [done|]. apply Hfresh'.
    destruct (decide (block_after nb n ≤ b)%positive) as [|Hlt]; [done|].
    exfalso. apply Hin. subst bs. apply elem_of_blocks_after.
    exists (Pos.to_nat b - Pos.to_nat nb - 1). unfold block_after in *.
    split; lia.
Qed.

Lemma valtype_vec_copy_deep_witness :
  ∃ s' s'',
    wasm_valtype_vec_copy (Ptr 5 0) (Ptr 4 0) vec_copy_state = Ok tt s'
    ∧ mem s' !! 6%positive = Some [Vptr 7 0; Vptr 8 0]
    ∧ mem s' !! 8%positive = Some [Vint WASM_I64]
    ∧ wasm_valtype_vec_delete (Ptr 5 0) s' = Ok tt s''
    ∧ mem s'' !! 2%positive = Some [Vint WASM_I64]
    ∧ mem s'' !! 8%positive = None.
Proof.
  destruct (valtype_vec_copy_deep vec_copy_state 5%positive 0 [Vundef; Vundef]
              4%positive 0 [Vint 2; Vptr 3 0] 3%positive
              [(1%positive, WASM_I32); (2%positive, WASM_I64)])
    as (s' & s'' & H1 & _ & _ & H2 & H3 & _ & H4 & H5 & H6);
    try reflexivity; try discriminate.
  - intros [|[|j]] b k Hj; cbn in Hj; try discriminate;
      injection Hj as <- <-; reflexivity.
  - unfold vec_data. cbn. lia.
  - cbn. rewrite !not_elem_of_cons. repeat split; try discriminate.
    apply not_elem_of_nil.
  - intros b Hb. unfold vec_copy_state in *. cbn [mem nextblock] in *.
    rewrite !lookup_insert_ne by lia. by rewrite lookup_singleton_ne by lia.
  - constructor.
  - exists s', s''. split; [exact H1|]. split; [exact H2|].
    split; [exact (H3 1 2%positive WASM_I64 eq_refl)|].
    split; [exact H4|]. split.
    + rewrite H5 by (cbn; lia || discriminate). reflexivity.
    + apply H6. cbn. lia.
Defined.

(** ** Function types over arbitrary signatures *)

Lemma fresh_from_live m nb b cells :
  fresh_from m nb → m !! b = Some cells → (b < nb)%positive.
Proof.
  intros Hfresh Hb. destruct (decide (nb ≤ b)%positive) as [Hle|]; [|lia].
  by rewrite (Hfresh b Hle) in Hb.
Qed.

(** Reading the kinds of the elements of a vector of value types. *)
Lemma valtype_vec_kinds_spec bv ov vcells bd dcells s :
  mem s !! bv = Some vcells →
  vcells !! (ov + vec_data) = Some (Vptr bd 0) →
  mem s !! bd = Some dcells →
  ∀ (rest : list (positive * Z)) i,
    (∀ j e k, rest !! j = Some (e, k) →
       dcells !! (i + j) = Some (Vptr e 0) ∧ mem s !! e = Some [Vint k]) →
    valtype_vec_kinds (length rest) i (Ptr bv ov) s = Ok rest.*2 s.
Proof.
  intros Hbv Hdata Hbd. induction rest as [|[e k] rest IH]; intros i Hels.
  - reflexivity.
  - destruct (Hels 0 e k eq_refl) as [Hslot He]. rewrite Nat.add_0_r in Hslot.
    cbn [length valtype_vec_kinds].
    rewrite (bind_Ok _ _ _ _ _
               (load_ptr_cell bv ov vec_data vcells (Ptr bd 0) s Hbv Hdata)).
    rewrite (bind_Ok _ _ _ _ _
               (load_ptr_cell bd 0 i dcells (Ptr e 0) s Hbd Hslot)).
    unfold wasm_valtype_kind. cbn [is_null].
    rewrite (bind_Ok _ _ _ _ _
               (load_int_cell e 0 valtype_kind [Vint k] k s He eq_refl)).
    assert (Hrest : ∀ j e' k', rest !! j = Some (e', k') →
              dcells !! (S i + j) = Some (Vptr e' 0)
              ∧ mem s !! e' = Some [Vint k']).
    { intros j e' k' Hj. specialize (Hels (S j) e' k' Hj).
      by replace (S i + j) with (i + S j) by lia. }
    by rewrite (bind_Ok _ _ _ _ _ (IH (S i) Hrest)).
Qed.

Lemma valtype_vec_read_spec s b o bd elems :
  valtype_vec_at (mem s) b o bd elems →
  valtype_vec_read (Ptr b o) s
  = Ok (Z.of_nat (length elems), elems.*2) s.
Proof.
  intros (cells & Hb & Hsz & Hdata & Hels).
  unfold valtype_vec_read.
  rewrite (bind_Ok _ _ _ _ _ (load_int_cell b o vec_size cells _ s Hb Hsz)).
  rewrite Nat2Z.id.
  destruct (decide (elems = [])) as [->|Hne]; [reflexivity|].
  destruct (Hdata Hne) as [Hd Hbd].
  assert (Hslots : ∀ j e k, elems !! j = Some (e, k) →
            ptrs_of elems.*1 !! (0 + j) = Some (Vptr e 0)
            ∧ mem s !! e = Some [Vint k]).
  { intros j e k Hj. split; [|by eapply Hels].
    unfold ptrs_of. cbn. by rewrite !list_lookup_fmap, Hj. }
  by rewrite (bind_Ok _ _ _ _ _
                (valtype_vec_kinds_spec b o cells bd _ s Hb Hd Hbd elems 0
                   Hslots)).
Qed.

(** Filling an array of the caller with freshly built value types. *)
Lemma fill_valtypes_spec ba f :
  ∀ (kinds : list Z) i m acells o,
    m !! ba = Some acells →
    i + length kinds ≤ length acells →
    fresh_from m (block_after ba i) →
    Forall (λ x : bool, x = false) o →
    ∃ m' acells' o',
      fill_valtypes kinds (Ptr ba 0) i (State m (block_after ba i) o f)
      = Ok tt (State m' (block_after ba (i + length kinds)) o' f)
      ∧ m' !! ba = Some acells'
      ∧ length acells' = length acells
      ∧ (∀ j, j < i → acells' !! j = acells !! j)
      ∧ (∀ j k, kinds !! j = Some k →
           acells' !! (i + j) = Some (Vptr (block_after ba (i + j)) 0)
           ∧ m' !! block_after ba (i + j) = Some [Vint k])
      ∧ (∀ b, (b < block_after ba i)%positive → b ≠ ba → m' !! b = m !! b)
      ∧ fresh_from m' (block_after ba (i + length kinds))
      ∧ Forall (λ x : bool, x = false) o'.
Proof.
  induction kinds as [|k kinds IH]; intros i m acells o Hba Hlen Hfresh Hoom.
  - exists m, acells, o. cbn [fill_valtypes length]. rewrite Nat.add_0_r.
    repeat split; done.
  - cbn [length] in Hlen.
    set (cur := block_after ba i) in *.
    assert (Hcur : m !! cur = None) by (apply Hfresh; lia).
    pose proof (fresh_from_live _ _ _ _ Hfresh Hba) as Hbalt.
    assert (Hnew :
      wasm_valtype_new k (State m cur o f)
      = Ok (Ptr cur 0)
           (State (<[cur := [Vint k]]> m) (Pos.succ cur) (tail o) f)).
    { pose proof (no_oom_head _ Hoom).
      unfold wasm_valtype_new. layout. prims. block_maps. reflexivity. }
    assert (Hbody :
      (storef (Ptr ba 0) i (val_of_ptr (Ptr cur 0)))
        (State (<[cur := [Vint k]]> m) (Pos.succ cur) (tail o) f)
      = Ok tt (State (<[ba := <[i := Vptr cur 0]> acells]>
                        (<[cur := [Vint k]]> m))
                 (Pos.succ cur) (tail o) f)).
    { rewrite (storef_cell ba 0 i acells) by
        (rewrite ?lookup_insert_ne by lia; first [done | cbn; lia]).
      reflexivity. }
    replace (Pos.succ cur) with (block_after ba (S i)) in Hnew
      by (subst cur; unfold block_after; lia).
    replace (Pos.succ cur) with (block_after ba (S i)) in Hbody
      by (subst cur; unfold block_after; lia).
    set (acells2 := <[i := Vptr cur 0]> acells) in *.
    set (m2 := <[ba := acells2]> (<[cur := [Vint k]]> m)) in *.
    assert (Hsucc : (cur < block_after ba (S i))%positive)
      by (subst cur; unfold block_after; lia).
    destruct (IH (S i) m2 acells2 (tail o))
      as (m' & acells' & o' & Hloop & Hba' & Hlen' & Hpre & Hels' & Hframe
          & Hfresh' & Hoom').
    { subst m2. by rewrite lookup_insert_eq. }
    { subst acells2. rewrite length_insert. lia. }
    { intros x Hx. subst m2. rewrite !lookup_insert_ne by lia.
      apply Hfresh. lia. }
    { by apply no_oom_tail. }
    exists m', acells', o'. split.
    { cbn [fill_valtypes length]. rewrite (bind_Ok _ _ _ _ _ Hnew).
      rewrite (bind_Ok _ _ _ _ _ Hbody). rewrite Hloop.
      by replace (S i + length kinds) with (i + S (length kinds)) by lia. }
    split; [done|]. split.
    { rewrite Hlen'. subst acells2. by rewrite length_insert. }
    split.
    { intros j Hj. rewrite Hpre by lia. subst acells2.
      by rewrite list_lookup_insert_ne by lia. }
    split.
    { intros [|j] k' Hj.
      - cbn in Hj. injection Hj as <-. rewrite Nat.add_0_r. fold cur.
        split.
        + rewrite Hpre by lia. subst acells2.
          apply list_lookup_insert_eq. lia.
        + rewrite Hframe by lia. subst m2.
          rewrite lookup_insert_ne by lia. by rewrite lookup_insert_eq.
      - cbn in Hj. destruct (Hels' j k' Hj) as [Hd' Hm'].
        by replace (i + S j) with (S i + j) by lia. }
    split.
    { intros x Hx Hne. rewrite Hframe by lia. subst m2.
      rewrite !lookup_insert_ne by lia. done. }
    split; [|done].
    intros x Hx. apply Hfresh'.
    by replace (S i + length kinds) with (i + S (length kinds)) by lia.
Qed.

(** [vec_new] with a size above zero: the size and a fresh buffer holding a
    copy of the caller's array. *)
Lemma vec_new_exact (width : nat) m nb o f
    (bo : positive) (oo : nat) (ocells : list val) (size : Z)
    (ba : positive) (oa : nat) (acells : list val) :
  m !! bo = Some ocells →
  oo + vec_data < length ocells →
  m !! ba = Some acells →
  oa + Z.to_nat size * width ≤ length acells →
  (0 < size)%Z →
  bo ≠ nb → ba ≠ nb → bo ≠ ba →
  head o ≠ Some true →
  vec_new width (Ptr bo oo) size (Ptr ba oa) (State m nb o f)
  = Ok tt (State
             (<[nb := take (Z.to_nat size * width) (drop oa acells)]>
                (<[bo := <[oo + vec_data := Vptr nb 0]>
                           (<[oo + vec_size := Vint size]> ocells)]> m))
             (Pos.succ nb) (tail o) f).
Proof.
  intros Hbo Hlen Hba Hla Hsize Hne1 Hne2 Hne3 Hoom.
  set (n := Z.to_nat size * width) in *.
  unfold vec_new. layout. prims. block_maps. fold n.
  rewrite (copy_n_spec n _ _ _ _ ba oa acells nb 0 (replicate n Vundef));
    [|done|by block_lookups|by block_lookups|done
     |rewrite length_replicate; lia].
  rewrite take_0, drop_replicate, Nat.sub_diag. cbn [app replicate plus].
  rewrite app_nil_r. do 2 f_equal.
  apply map_eq. intros k.
  destruct (decide (k = nb)) as [->|]; [by block_lookups|].
  destruct (decide (k = bo)) as [->|]; block_lookups.
  by rewrite list_insert_insert_eq.
Qed.

(** [vec_new] with size zero: no allocation, a null buffer. *)
Lemma vec_new_size_zero (width : nat) m nb o f
    (bo : positive) (oo : nat) (ocells : list val) (vals : ptr) :
  m !! bo = Some ocells →
  oo + vec_data < length ocells →
  vec_new width (Ptr bo oo) 0 vals (State m nb o f)
  = Ok tt (State
             (<[bo := <[oo + vec_data := Vint 0]>
                        (<[oo + vec_size := Vint 0]> ocells)]> m)
             nb o f).
Proof.
  intros Hbo Hlen. unfold vec_new. layout. prims. block_maps. reflexivity.
Qed.

(** The vector built by [make_valtype_vec]: a structure in a new block whose
    elements are new value types of the given kinds, in order; every block
    it consists of is new. *)
Lemma make_valtype_vec_spec kinds m nb o f :
  fresh_from m nb →
  Forall (λ x : bool, x = false) o →
  ∃ m' nb' o' bv bd elems data,
    make_valtype_vec kinds (State m nb o f)
    = Ok (Ptr bv 0) (State m' nb' o' f)
    ∧ elems.*2 = kinds
    ∧ m' !! bv = Some [Vint (Z.of_nat (length kinds)); data]
    ∧ valtype_vec_at m' bv 0 bd elems
    ∧ (nb ≤ bv < nb')%positive
    ∧ (nb ≤ bd < nb')%positive ∧ bd ≠ bv
    ∧ (∀ e, e ∈ elems.*1 → (nb ≤ e < nb')%positive ∧ e ≠ bv)
    ∧ (∀ b, (b < nb)%positive → m' !! b = m !! b)
    ∧ fresh_from m' nb'
    ∧ Forall (λ x : bool, x = false) o'.
Proof.
  intros Hfresh Hoom.
  set (n := length kinds).
  set (m1 := <[nb := replicate n Vundef]> m).
  destruct (fill_valtypes_spec nb f kinds 0 m1 (replicate n Vundef) o)
    as (m2 & acells & o2 & Hfill & Hba2 & Hlen2 & _ & Hels2 & Hframe2
        & Hfresh2 & Hoom2).
  { subst m1. by rewrite lookup_insert_eq. }
  { rewrite length_replicate. subst n. lia. }
  { intros b Hb. subst m1. unfold block_after in Hb.
    rewrite lookup_insert_ne by lia. apply Hfresh. lia. }
  { done. }
  rewrite length_replicate in Hlen2. cbn [plus] in Hfill, Hfresh2, Hels2. fold n in Hfill, Hfresh2, Hlen2.
  set (bv := block_after nb n) in *.
  set (elems := imap (λ j k, (block_after nb j, k)) kinds).
  assert (Hsnd : elems.*2 = kinds).
  { apply list_eq. intros j. subst elems.
    rewrite list_lookup_fmap, list_lookup_imap. by destruct (kinds !! j). }
  assert (Hfst : ptrs_of elems.*1 = acells).
  { apply list_eq. intros j. subst elems. unfold ptrs_of.
    rewrite !list_lookup_fmap, list_lookup_imap.
    destruct (kinds !! j) as [k|] eqn:Hk.
    - destruct (Hels2 j k Hk) as [-> _]. reflexivity.
    - apply lookup_ge_None in Hk. symmetry. apply lookup_ge_None. lia. }
  assert (Hel : ∀ j e k, elems !! j = Some (e, k) →
            e = block_after nb j ∧ kinds !! j = Some k).
  { intros j e k. subst elems. rewrite list_lookup_imap.
    destruct (kinds !! j); cbn; [|done]. by intros [= <- <-]. }
  assert (Hmem : ∀ e, e ∈ elems.*1 → ∃ j, j < n ∧ e = block_after nb j).
  { intros e He. apply list_elem_of_fmap in He as ([e' k] & -> & He).
    apply list_elem_of_lookup in He as [j Hj].
    destruct (Hel j e' k Hj) as [-> Hk]. exists j. split; [|done].
    apply lookup_lt_Some in Hk. done. }
  assert (Hlenel : length elems = n) by (subst elems; apply length_imap).
  assert (Hstart :
    (arr <- alloca n ;; fill_valtypes kinds arr 0 ;; vec <- alloca 2 ;;
     wasm_valtype_vec_new vec (Z.of_nat n) arr ;; ret vec)
      (State m nb o f)
    = (wasm_valtype_vec_new (Ptr bv 0) (Z.of_nat n) (Ptr nb 0) ;;
       ret (Ptr bv 0))
        (State (<[bv := [Vundef; Vundef]]> m2) (Pos.succ bv) o2 f)).
  { unfold alloca at 1. unfold bind at 1. cbn [mem nextblock oom finalized].
    fold m1. replace (Pos.succ nb) with (block_after nb 0)
      by (unfold block_after; lia).
    unfold bind at 1. rewrite Hfill. reflexivity. }
  unfold make_valtype_vec. fold n. rewrite Hstart. clear Hstart.
  assert (nb ≠ bv) by (subst bv; unfold block_after; lia).
  destruct (decide (n = 0)) as [Hn0|Hn0].
  - exists (<[bv := [Vint 0; Vint 0]]> m2), (Pos.succ bv), o2, bv, nb, elems,
      (Vint 0).
    assert (Hnil : elems = []) by (by apply length_zero_iff_nil; lia).
    split.
    { rewrite Hn0. unfold wasm_valtype_vec_new. change (Z.of_nat 0) with 0%Z.
      assert (Hvec := vec_new_size_zero 1 (<[bv := [Vundef; Vundef]]> m2)
                        (Pos.succ bv) o2 f bv 0 [Vundef; Vundef] (Ptr nb 0)).
      rewrite lookup_insert_eq in Hvec.
      rewrite (bind_Ok _ _ _ _ _ (Hvec eq_refl ltac:(unfold vec_data; cbn; lia))).
      unfold ret. by rewrite insert_insert_eq. }
    split; [done|]. split.
    { rewrite lookup_insert_eq. by rewrite Hn0. }
    split.
    { exists [Vint 0; Vint 0]. rewrite lookup_insert_eq, Hnil.
      split; [done|]. split; [done|]. split; [done|]. by intros []. }
    split; [subst bv; unfold block_after; lia|].
    split; [subst bv; unfold block_after; lia|].
    split; [done|].
    split; [rewrite Hnil; by intros e ?%elem_of_nil|].
    split.
    { intros b Hb. rewrite lookup_insert_ne
        by (subst bv; unfold block_after; lia).
      rewrite Hframe2 by (unfold block_after; lia).
      subst m1. by rewrite lookup_insert_ne by lia. }
    split; [|done].
    intros b Hb. rewrite lookup_insert_ne by lia. apply Hfresh2.
    fold bv. lia.
  - set (bd := Pos.succ bv).
    assert (Hbvlt : (nb < bv)%positive)
      by (subst bv; unfold block_after; lia).
    assert (Hm2bv : m2 !! bv = None) by (apply Hfresh2; lia).
    assert (Hm2bd : m2 !! bd = None) by (apply Hfresh2; subst bd; lia).
    exists (<[bd := acells]>
              (<[bv := [Vint (Z.of_nat n); Vptr bd 0]]> m2)),
      (Pos.succ bd), (tail o2), bv, bd, elems, (Vptr bd 0).
    split.
    { unfold wasm_valtype_vec_new.
      assert (Hvec : vec_new 1 (Ptr bv 0) (Z.of_nat n) (Ptr nb 0)
                (State (<[bv := [Vundef; Vundef]]> m2) (Pos.succ bv) o2 f)
              = Ok tt (State
                  (<[bd := take (Z.to_nat (Z.of_nat n) * 1) (drop 0 acells)]>
                     (<[bv := <[0 + vec_data := Vptr bd 0]>
                                (<[0 + vec_size := Vint (Z.of_nat n)]>
                                   [Vundef; Vundef])]>
                        (<[bv := [Vundef; Vundef]]> m2)))
                  (Pos.succ bd) (tail o2) f)).
      { apply vec_new_exact.
        - by rewrite lookup_insert_eq.
        - unfold vec_data. cbn. lia.
        - rewrite lookup_insert_ne by lia. done.
        - rewrite Nat2Z.id. lia.
        - lia.
        - lia.
        - lia.
        - lia.
        - by apply no_oom_head. }
      rewrite (bind_Ok _ _ _ _ _ Hvec).
      unfold ret. rewrite insert_insert_eq.
      rewrite Nat2Z.id, Nat.mul_1_r, drop_0, firstn_all2 by lia.
      reflexivity. }
    split; [done|]. split.
    { rewrite lookup_insert_ne by (subst bd; lia).
      by rewrite lookup_insert_eq. }
    assert (Helem_blocks : ∀ j, j < n →
              (nb < block_after nb j)%positive
              ∧ (block_after nb j < bv)%positive).
    { intros j Hj. subst bv. unfold block_after. lia. }
    split.
    { exists [Vint (Z.of_nat n); Vptr bd 0].
      split.
      { rewrite lookup_insert_ne by (subst bd; lia).
        by rewrite lookup_insert_eq. }
      split; [by rewrite Hlenel|]. split.
      { intros _. split; [done|]. rewrite lookup_insert_eq. by rewrite Hfst. }
      intros j e k Hj. destruct (Hel j e k Hj) as [-> Hk].
      pose proof (lookup_lt_Some _ _ _ Hk) as Hjn. fold n in Hjn.
      destruct (Helem_blocks j Hjn).
      rewrite !lookup_insert_ne by (subst bd; lia).
      by destruct (Hels2 j k Hk) as [_ ->]. }
    split; [subst bd; lia|].
    split; [subst bd; lia|].
    split; [subst bd; lia|].
    split.
    { intros e He. destruct (Hmem e He) as (j & Hj & ->).
      destruct (Helem_blocks j Hj). subst bd. lia. }
    split.
    { intros b Hb. rewrite !lookup_insert_ne by (subst bd; lia).
      rewrite Hframe2 by (unfold block_after; lia).
      subst m1. by rewrite lookup_insert_ne by lia. }
    split; [|by apply no_oom_tail].
    intros b Hb. rewrite !lookup_insert_ne by (subst bd; lia).
    apply Hfresh2. fold bv. subst bd. lia.
Qed.

(** [wasm_functype_new] on two distinct vector structures of the caller:
    the new object holds their contents, and they hold what the fresh
    members held. *)
Lemma functype_new_exact m nb o f bp br ps pd rs rd :
  m !! bp = Some [ps; pd] →
  m !! br = Some [rs; rd] →
  bp ≠ br → bp ≠ nb → br ≠ nb →
  head o ≠ Some true →
  wasm_functype_new (Ptr bp 0) (Ptr br 0) (State m nb o f)
  = Ok (Ptr nb 0)
       (State (<[br := [Vundef; Vundef]]>
                 (<[bp := [Vundef; Vundef]]>
                    (<[nb := [Vint WASM_EXTERN_FUNC; ps; pd; rs; rd]]> m)))
          (Pos.succ nb) (tail o) f).
Proof.
  intros Hbp Hbr Hne1 Hne2 Hne3 Hoom.
  unfold wasm_functype_new, functype_ctor, swap_vec. block_exec.
  cbn. block_maps.
  do 2 f_equal. apply map_eq. intros k.
  destruct (decide (k = br)) as [->|]; [by block_lookups|].
  destruct (decide (k = bp)) as [->|]; [by block_lookups|].
  destruct (decide (k = nb)) as [->|]; by block_lookups.
Qed.

(** A vector keeps its contents when its structure is moved to another
    place and its buffer and elements are left alone. *)
Lemma valtype_vec_at_moved m m' b o cells bd elems b' o' cells' :
  valtype_vec_at m b o bd elems →
  m !! b = Some cells →
  m' !! b' = Some cells' →
  cells' !! (o' + vec_size) = cells !! (o + vec_size) →
  cells' !! (o' + vec_data) = cells !! (o + vec_data) →
  (elems ≠ [] → m' !! bd = m !! bd) →
  (∀ e, e ∈ elems.*1 → m' !! e = m !! e) →
  valtype_vec_at m' b' o' bd elems.
Proof.
  intros (cells0 & Hb0 & Hsz0 & Hdata0 & Hels0) Hb Hb' Hsz Hdt Hbd Hels.
  assert (cells0 = cells) as -> by congruence.
  exists cells'. split; [done|]. split; [congruence|]. split.
  - intros Hne. destruct (Hdata0 Hne). specialize (Hbd Hne).
    split; congruence.
  - intros j e k Hj. rewrite Hels; [by eapply Hels0|].
    apply list_elem_of_fmap. exists (e, k). split; [done|].
    by eapply list_elem_of_lookup_2.
Qed.

(** X22: for any lists of parameter and result kinds, empty ones included,
    when no allocation fails a function type built by [wasm_functype_new]
    from vectors of fresh value types of these kinds reports, through
    [wasm_functype_params] and [wasm_functype_results], vectors whose sizes
    are the lengths of the two lists and whose elements have exactly these
    kinds in the same order; no block that was live before is changed. *)
Theorem functype_signature_read_back (params results : list Z) (s : state) :
  fresh_from (mem s) (nextblock s) →
  no_oom s →
  ∃ s',
    functype_scenario params results s
    = Ok ((Z.of_nat (length params), params),
          (Z.of_nat (length results), results)) s'
    ∧ ∀ b, (b < nextblock s)%positive → mem s' !! b = mem s !! b.
Proof.
  destruct s as [m nb o f]. unfold no_oom. cbn [mem nextblock oom].
  intros Hfresh Hoom.
  destruct (make_valtype_vec_spec params m nb o f Hfresh Hoom)
    as (m1 & nb1 & o1 & bv1 & bd1 & el1 & data1 & Hmk1 & Hk1 & Hbv1 & Hat1
        & Hr1 & Hrd1 & Hne1 & Hmem1 & Hframe1 & Hfresh1 & Hoom1).
  destruct (make_valtype_vec_spec results m1 nb1 o1 f Hfresh1 Hoom1)
    as (m2 & nb2 & o2 & bv2 & bd2 & el2 & data2 & Hmk2 & Hk2 & Hbv2 & Hat2
        & Hr2 & Hrd2 & Hne2 & Hmem2 & Hframe2 & Hfresh2 & Hoom2).
  set (fcells := [Vint WASM_EXTERN_FUNC; Vint (Z.of_nat (length params));
                  data1; Vint (Z.of_nat (length results)); data2]).
  set (m3 := <[bv2 := [Vundef; Vundef]]>
               (<[bv1 := [Vundef; Vundef]]> (<[nb2 := fcells]> m2))).
  set (s3 := State m3 (Pos.succ nb2) (tail o2) f).
  assert (Hbv1' : m2 !! bv1 = Some [Vint (Z.of_nat (length params)); data1])
    by (rewrite Hframe2 by lia; done).
  assert (Hnew : wasm_functype_new (Ptr bv1 0) (Ptr bv2 0)
                   (State m2 nb2 o2 f) = Ok (Ptr nb2 0) s3).
  { apply functype_new_exact; try done; try lia. by apply no_oom_head. }
  assert (Hf : m3 !! nb2 = Some fcells).
  { subst m3. rewrite !lookup_insert_ne by lia. by rewrite lookup_insert_eq. }
  assert (Hlen1 : length el1 = length params) by (by rewrite <- Hk1, length_fmap).
  assert (Hlen2 : length el2 = length results) by (by rewrite <- Hk2, length_fmap).
  assert (Hat1' : valtype_vec_at m3 nb2 functype_params bd1 el1).
  { eapply (valtype_vec_at_moved m1 m3 bv1 0 _ bd1 el1 nb2 functype_params
              fcells Hat1 Hbv1 Hf); try done.
    - intros _. subst m3. rewrite !lookup_insert_ne by lia.
      apply Hframe2. lia.
    - intros e He. destruct (Hmem1 e He). subst m3.
      rewrite !lookup_insert_ne by lia. apply Hframe2. lia. }
  assert (Hat2' : valtype_vec_at m3 nb2 functype_results bd2 el2).
  { eapply (valtype_vec_at_moved m2 m3 bv2 0 _ bd2 el2 nb2 functype_results
              fcells Hat2 Hbv2 Hf); try done.
    - intros _. subst m3. by rewrite !lookup_insert_ne by lia.
    - intros e He. destruct (Hmem2 e He). subst m3.
      by rewrite !lookup_insert_ne by lia. }
  exists s3. split.
  - unfold functype_scenario.
    rewrite (bind_Ok _ _ _ _ _ Hmk1), (bind_Ok _ _ _ _ _ Hmk2),
      (bind_Ok _ _ _ _ _ Hnew).
    unfold wasm_functype_params, wasm_functype_results, field.
    cbn [is_null shift]. unfold bind at 1. unfold ret at 1.
    rewrite (bind_Ok _ _ _ _ _ (valtype_vec_read_spec s3 _ _ _ _ Hat1')).
    unfold bind at 1. unfold ret at 1.
    rewrite (bind_Ok _ _ _ _ _ (valtype_vec_read_spec s3 _ _ _ _ Hat2')).
    unfold ret. by rewrite Hlen1, Hlen2, Hk1, Hk2.
  - intros b Hb. subst s3 m3. cbn [mem].
    rewrite !lookup_insert_ne by lia.
    rewrite Hframe2 by lia. by apply Hframe1.
Qed.

Lemma functype_signature_read_back_witness :
  ∃ s',
    functype_scenario [WASM_F64; WASM_I32; WASM_I32] [] initial_state
    = Ok ((3%Z, [WASM_F64; WASM_I32; WASM_I32]), (0%Z, [])) s'.
Proof.
  destruct (functype_signature_read_back [WASM_F64; WASM_I32; WASM_I32] []
              initial_state) as (s' & Hrun & _).
  - intros b _. apply lookup_empty.
  - constructor.
  - by exists s'.
Defined.

(** ** Function types: release and deep copy *)

(** The deletion of a vector of value types, empty or not: the vector is
    reset, what it owns is released and nothing else changes. *)
Lemma valtype_vec_delete_spec m nb o f bv ov cells bd elems :
  valtype_vec_at m bv ov bd elems →
  m !! bv = Some cells →
  ov + vec_data < length cells →
  NoDup (bv :: valtype_vec_blocks bd elems) →
  ∃ m',
    wasm_valtype_vec_delete (Ptr bv ov) (State m nb o f)
    = Ok tt (State m' nb o f)
    ∧ m' !! bv = Some (<[ov + vec_data := nullptr]>
                         (<[ov + vec_size := Vint 0]> cells))
    ∧ (∀ b, b ∈ valtype_vec_blocks bd elems → m' !! b = None)
    ∧ (∀ b, b ≠ bv → b ∉ valtype_vec_blocks bd elems → m' !! b = m !! b).
Proof.
  intros (cells0 & Hb0 & Hsz & Hdata & Hels) Hbv Hlen Hdup.
  assert (cells0 = cells) as -> by congruence.
  destruct (decide (elems = [])) as [->|Hne].
  - exists (<[bv := <[ov + vec_data := nullptr]>
                     (<[ov + vec_size := Vint 0]> cells)]> m).
    split; [|split; [by rewrite lookup_insert_eq|split]].
    + unfold wasm_valtype_vec_delete, ptr_vec_delete. cbn [is_null].
      rewrite (bind_Ok _ _ _ _ _
                 (load_int_cell bv ov vec_size cells _ (State m nb o f)
                    Hbv Hsz)).
      change (0 <? Z.of_nat (length (@nil (positive * Z))))%Z with false.
      unfold bind at 1. unfold ret at 1.
      assert (Hlen0 : ov + vec_size < length cells)
        by (unfold vec_size, vec_data in *; lia).
      rewrite (bind_Ok _ _ _ _ _
                 (storef_cell bv ov vec_size cells _ m nb o f Hbv Hlen0)).
      rewrite (storef_cell bv ov vec_data _ nullptr _ nb o f
                 ltac:(by rewrite lookup_insert_eq)
                 ltac:(by rewrite length_insert)).
      by rewrite insert_insert_eq.
    + by intros b ?%elem_of_nil.
    + intros b Hb _. by rewrite lookup_insert_ne.
  - destruct (Hdata Hne) as [Hd Hbd].
    assert (Hblocks : valtype_vec_blocks bd elems = bd :: elems.*1)
      by (by destruct elems).
    rewrite Hblocks in *.
    assert (Hne' : elems.*1 ≠ []) by (by destruct elems).
    assert (Hlive : ∀ b, b ∈ elems.*1 → is_Some (m !! b)).
    { intros b Hb. apply list_elem_of_fmap in Hb as ([e k] & -> & He).
      apply list_elem_of_lookup in He as [j Hj].
      cbn [fst]. rewrite (Hels j e k Hj). by eexists. }
    assert (Hsz' : cells !! (ov + vec_size)
                   = Some (Vint (Z.of_nat (length elems.*1))))
      by (by rewrite length_fmap).
    eexists. split.
    { unfold wasm_valtype_vec_delete.
      by rewrite (ptr_vec_delete_exact m nb o f bv ov cells bd elems.*1). }
    apply NoDup_cons in Hdup as [Hbvn Hdup].
    apply NoDup_cons in Hdup as [Hbdn Hdup].
    apply not_elem_of_cons in Hbvn as [Hvd Hbvn].
    split; [by rewrite lookup_insert_eq|]. split.
    + intros b Hb. rewrite lookup_insert_ne
        by (intros <-; apply elem_of_cons in Hb as [|]; done).
      apply elem_of_cons in Hb as [->|Hb]; [by rewrite lookup_delete_eq|].
      rewrite lookup_delete_ne by (by intros ->).
      by rewrite lookup_release, decide_True.
    + intros b Hb Hnin. apply not_elem_of_cons in Hnin as [? ?].
      rewrite lookup_insert_ne by done. rewrite lookup_delete_ne by done.
      by rewrite lookup_release, decide_False.
Qed.

(** The deletion of a function type releases its two vectors and the
    object, and nothing else. *)
Lemma functype_delete_spec m nb o f bf fcells bd1 el1 bd2 el2 :
  m !! bf = Some fcells →
  length fcells = sizeof_functype →
  valtype_vec_at m bf functype_params bd1 el1 →
  valtype_vec_at m bf functype_results bd2 el2 →
  NoDup (bf :: valtype_vec_blocks bd1 el1 ++ valtype_vec_blocks bd2 el2) →
  ∃ m',
    wasm_functype_delete (Ptr bf 0) (State m nb o f) = Ok tt (State m' nb o f)
    ∧ m' !! bf = None
    ∧ (∀ b, b ∈ valtype_vec_blocks bd1 el1 ++ valtype_vec_blocks bd2 el2 →
         m' !! b = None)
    ∧ (∀ b, b ≠ bf →
         b ∉ valtype_vec_blocks bd1 el1 ++ valtype_vec_blocks bd2 el2 →
         m' !! b = m !! b).
Proof.
  intros Hbf Hlen Hat1 Hat2 Hdup.
  apply NoDup_cons in Hdup as [Hbfn Hdup].
  apply NoDup_app in Hdup as (Hdup1 & Hdisj & Hdup2).
  apply not_elem_of_app in Hbfn as [Hbfn1 Hbfn2].
  destruct (valtype_vec_delete_spec m nb o f bf functype_params fcells bd1 el1
              Hat1 Hbf)
    as (m1 & Hrun1 & Hbf1 & Hgone1 & Hframe1).
  { rewrite Hlen. unfold functype_params, vec_data, sizeof_functype. lia. }
  { by apply NoDup_cons. }
  set (cells1 := <[functype_params + vec_data := nullptr]>
                   (<[functype_params + vec_size := Vint 0]> fcells)) in *.
  assert (Hat2' : valtype_vec_at m1 bf functype_results bd2 el2).
  { eapply (valtype_vec_at_moved m m1 bf functype_results fcells bd2 el2
              bf functype_results cells1 Hat2 Hbf Hbf1).
    - subst cells1. unfold functype_params, functype_results, vec_size,
        vec_data. by rewrite !list_lookup_insert_ne by lia.
    - subst cells1. unfold functype_params, functype_results, vec_size,
        vec_data. by rewrite !list_lookup_insert_ne by lia.
    - intros Hne. apply Hframe1.
      + intros ->. apply Hbfn2. destruct el2; [done|]. apply list_elem_of_here.
      + intros Hin. apply (Hdisj bd2 Hin). destruct el2; [done|].
        apply list_elem_of_here.
    - intros e He.
      assert (He2 : e ∈ valtype_vec_blocks bd2 el2).
      { destruct el2; [by apply elem_of_nil in He|].
        by apply list_elem_of_further. }
      apply Hframe1.
      + by intros ->.
      + intros Hin. by apply (Hdisj e Hin). }
  destruct (valtype_vec_delete_spec m1 nb o f bf functype_results cells1 bd2
              el2 Hat2' Hbf1)
    as (m2 & Hrun2 & Hbf2 & Hgone2 & Hframe2).
  { subst cells1. rewrite !length_insert, Hlen.
    unfold functype_results, vec_data, sizeof_functype. lia. }
  { by apply NoDup_cons. }
  exists (delete bf m2). split.
  { unfold wasm_functype_delete, functype_destroy, functype_dtor, field.
    cbn [is_null shift]. unfold bind at 1 2 3. unfold ret at 1. cbn [plus].
    change (Ptr bf 1) with (Ptr bf functype_params). rewrite Hrun1.
    unfold bind at 1. unfold ret at 1.
    change (Ptr bf 3) with (Ptr bf functype_results). rewrite Hrun2.
    unfold free. cbn [mem upd_mem nextblock oom finalized].
    by rewrite Hbf2. }
  split; [by rewrite lookup_delete_eq|]. split.
  - intros b Hb.
    destruct (decide (b = bf)) as [->|]; [by rewrite lookup_delete_eq|].
    rewrite lookup_delete_ne by done.
    destruct (decide (b ∈ valtype_vec_blocks bd2 el2)) as [Hin2|Hnin2];
      [by apply Hgone2|].
    rewrite Hframe2 by done. apply Hgone1.
    by apply elem_of_app in Hb as [|].
  - intros b Hb Hnin. apply not_elem_of_app in Hnin as [? ?].
    rewrite lookup_delete_ne by done.
    rewrite Hframe2 by done. by apply Hframe1.
Qed.

(** X23: deleting a function type whose parameter and result vectors hold
    distinct live value types releases the elements and the buffer of both
    vectors and then the object itself; an empty vector owns nothing and
    none of its fields is followed.  No other block changes. *)
Theorem wasm_functype_delete_releases (s : state) (bf : positive)
    (fcells : list val) (bd1 bd2 : positive)
    (el1 el2 : list (positive * Z)) :
  mem s !! bf = Some fcells →
  length fcells = sizeof_functype →
  valtype_vec_at (mem s) bf functype_params bd1 el1 →
  valtype_vec_at (mem s) bf functype_results bd2 el2 →
  NoDup (bf :: valtype_vec_blocks bd1 el1 ++ valtype_vec_blocks bd2 el2) →
  ∃ s',
    wasm_functype_delete (Ptr bf 0) s = Ok tt s'
    ∧ mem s' !! bf = None
    ∧ (∀ b, b ∈ valtype_vec_blocks bd1 el1 ++ valtype_vec_blocks bd2 el2 →
         mem s' !! b = None)
    ∧ (∀ b, b ≠ bf →
         b ∉ valtype_vec_blocks bd1 el1 ++ valtype_vec_blocks bd2 el2 →
         mem s' !! b = mem s !! b)
    ∧ finalized s' = finalized s.
Proof.
  destruct s as [m nb o f]. cbn [mem]. intros Hbf Hlen Hat1 Hat2 Hdup.
  destruct (functype_delete_spec m nb o f bf fcells bd1 el1 bd2 el2
              Hbf Hlen Hat1 Hat2 Hdup) as (m' & Hrun & Hgone & Hall & Hframe).
  exists (State m' nb o f). by repeat split.
Qed.

Lemma wasm_functype_delete_releases_witness :
  ∃ s',
    wasm_functype_delete (Ptr 4 0) functype_state = Ok tt s'
    ∧ mem s' = ∅.
Proof.
  destruct (wasm_functype_delete_releases functype_state 4%positive
              [Vint WASM_EXTERN_FUNC; Vint 2; Vptr 3 0; Vint 0; Vint 0]
              3%positive 1%positive
              [(1%positive, WASM_I32); (2%positive, WASM_I64)] [])
    as (s' & Hrun & H4 & Hall & Hframe & _).
  - reflexivity.
  - reflexivity.
  - eexists. split; [reflexivity|]. split; [reflexivity|].
    split; [by intros _|].
    intros [|[|j]] b k Hj; cbn in Hj; try discriminate;
      injection Hj as <- <-; reflexivity.
  - eexists. split; [reflexivity|]. split; [reflexivity|].
    split; [done|]. intros j b k Hj. discriminate.
  - apply (bool_decide_unpack _). reflexivity.
  - exists s'. split; [exact Hrun|]. apply map_eq. intros b.
    rewrite lookup_empty.
    destruct (decide (b = 4%positive)) as [->|]; [exact H4|].
    destruct (decide (b ∈ [3; 1; 2]%positive)) as [Hin|Hnin].
    + apply Hall. exact Hin.
    + rewrite Hframe by done. unfold functype_state. cbn [mem].
      repeat rewrite not_elem_of_cons in Hnin.
      destruct Hnin as (? & ? & ? & _).
      rewrite !lookup_insert_ne by done. by rewrite lookup_singleton_ne.
Defined.

(** The copy of a vector of value types, empty or not, into a vector
    structure [out] outside the source and its buffer: [out] describes a
    vector of fresh value types of the same kinds, in order; the blocks it
    owns are exactly the ones handed out by the copy, and only [out] changes
    among the blocks that were live. *)
Lemma valtype_vec_copy_spec m nb o f bo oo ocells bi oi bsrc elems :
  valtype_vec_at m bi oi bsrc elems →
  m !! bo = Some ocells →
  oo + vec_data < length ocells →
  bo ≠ bi →
  (elems ≠ [] → bo ≠ bsrc) →
  fresh_from m nb →
  Forall (λ x : bool, x = false) o →
  ∃ m' nb' o' elems' data,
    wasm_valtype_vec_copy (Ptr bo oo) (Ptr bi oi) (State m nb o f)
    = Ok tt (State m' nb' o' f)
    ∧ elems'.*2 = elems.*2
    ∧ m' !! bo
      = Some (<[oo + vec_data := data]>
                (<[oo + vec_size := Vint (Z.of_nat (length elems))]> ocells))
    ∧ valtype_vec_at m' bo oo nb elems'
    ∧ (nb ≤ nb')%positive
    ∧ (∀ e, e ∈ valtype_vec_blocks nb elems' ↔ (nb ≤ e < nb')%positive)
    ∧ NoDup (valtype_vec_blocks nb elems')
    ∧ (∀ b, (b < nb)%positive → b ≠ bo → m' !! b = m !! b)
    ∧ fresh_from m' nb'
    ∧ Forall (λ x : bool, x = false) o'.
Proof.
  intros (icells & Hbi & Hsz & Hdata & Hels) Hbo Hlen Hne1 Hbosrc Hfresh Hoom.
  assert (Hlen0 : oo + vec_size < length ocells)
    by (unfold vec_size, vec_data in *; lia).
  pose proof (fresh_from_live _ _ _ _ Hfresh Hbi).
  pose proof (fresh_from_live _ _ _ _ Hfresh Hbo).
  set (n := length elems) in *.
  destruct (decide (elems = [])) as [Hnil|Hne].
  - exists (<[bo := <[oo + vec_data := nullptr]>
                     (<[oo + vec_size := Vint 0]> ocells)]> m),
      nb, o, [], nullptr.
    assert (Hn : n = 0) by (subst n; by rewrite Hnil).
    rewrite Hn in *. change (Z.of_nat 0) with 0%Z in *.
    split.
    { unfold wasm_valtype_vec_copy, ptr_vec_copy. cbn [is_null orb].
      rewrite (bind_Ok _ _ _ _ _
                 (loadf_cell bi oi vec_size icells _ (State m nb o f)
                    Hbi Hsz)).
      rewrite (bind_Ok _ _ _ _ _
                 (storef_cell bo oo vec_size ocells _ m nb o f Hbo Hlen0)).
      set (c1 := <[oo + vec_size := Vint 0]> ocells).
      rewrite (bind_Ok _ _ _ _ _
                 (storef_cell bo oo vec_data c1 nullptr (<[bo := c1]> m)
                    nb o f
                    ltac:(by rewrite lookup_insert_eq)
                    ltac:(subst c1; by rewrite length_insert))).
      rewrite insert_insert_eq.
      set (m2 := <[bo := <[oo + vec_data := nullptr]> c1]> m).
      assert (Hbi2 : m2 !! bi = Some icells)
        by (subst m2; by rewrite lookup_insert_ne).
      rewrite (bind_Ok _ _ _ _ _
                 (load_int_cell bi oi vec_size icells 0 (State m2 nb o f)
                    Hbi2 Hsz)).
      reflexivity. }
    split; [by rewrite Hnil|].
    split; [by rewrite lookup_insert_eq|]. split.
    { eexists. split; [by rewrite lookup_insert_eq|]. split.
      - unfold vec_size, vec_data in *.
        rewrite list_lookup_insert_ne by lia.
        apply list_lookup_insert_eq. lia.
      - split; [done|]. intros j e k Hj. discriminate. }
    split; [lia|]. split.
    { intros e. split; [by intros ?%elem_of_nil|lia]. }
    split; [constructor|]. split.
    { intros b Hb Hbne. by rewrite lookup_insert_ne. }
    split; [|done].
    intros b Hb. rewrite lookup_insert_ne by lia. by apply Hfresh.
  - destruct (Hdata Hne) as [Hd Hbsrc].
    pose proof (fresh_from_live _ _ _ _ Hfresh Hbsrc).
    assert (Hnpos : (0 < Z.of_nat n)%Z)
      by (subst n; destruct elems; [done|cbn; lia]).
    set (oc := <[oo + vec_data := Vptr nb 0]>
                 (<[oo + vec_size := Vint (Z.of_nat n)]> ocells)).
    set (m4 := <[nb := replicate n Vundef]> (<[bo := oc]> m)).
    assert (Hoc_data : oc !! (oo + vec_data) = Some (Vptr nb 0)).
    { subst oc. apply list_lookup_insert_eq. by rewrite length_insert. }
    assert (Hoc_size : oc !! (oo + vec_size) = Some (Vint (Z.of_nat n))).
    { subst oc. unfold vec_size, vec_data in *.
      rewrite list_lookup_insert_ne by lia. apply list_lookup_insert_eq. lia. }
    assert (Hprefix := ptr_vec_copy_prefix wasm_valtype_copy m nb o f bo oo
                         ocells bi oi icells (Z.of_nat n) Hbi Hsz Hnpos Hbo
                         Hlen Hne1 ltac:(lia) ltac:(lia) (no_oom_head _ Hoom)).
    rewrite Nat2Z.id in Hprefix. fold oc m4 in Hprefix.
    replace (Pos.succ nb) with (block_after nb 0) in Hprefix
      by (unfold block_after; lia).
    assert (Hbon : ∀ j b k, elems !! j = Some (b, k) → b ≠ bo ∧ b ≠ nb).
    { intros j b k Hj. pose proof (Hels j b k Hj) as Hb.
      pose proof (fresh_from_live _ _ _ _ Hfresh Hb). split; [|lia].
      intros ->. rewrite Hbo in Hb. injection Hb as ->.
      unfold vec_data in Hlen. cbn in Hlen. lia. }
    specialize (Hbosrc Hne).
    destruct (valtype_copy_loop bi oi icells bsrc (ptrs_of elems.*1) bo oo oc
                nb nb f Hd Hoc_data ltac:(lia) ltac:(lia) ltac:(lia)
                elems 0 m4 (replicate n Vundef) (tail o))
      as (m' & dcells' & o' & Hloop & Hbd' & Hlen' & _ & Hels' & Hframe
          & Hfresh' & Hoom').
    { subst m4. by rewrite !lookup_insert_ne by lia. }
    { subst m4. by rewrite !lookup_insert_ne by lia. }
    { subst m4. rewrite lookup_insert_ne by lia. by rewrite lookup_insert_eq. }
    { subst m4. by rewrite lookup_insert_eq. }
    { rewrite length_replicate. subst n. lia. }
    { intros j b k Hj. cbn [plus]. split.
      - unfold ptrs_of. by rewrite !list_lookup_fmap, Hj.
      - destruct (Hbon j b k Hj). subst m4.
        rewrite !lookup_insert_ne by done. by eapply Hels. }
    { intros b Hb. subst m4. unfold block_after in Hb.
      rewrite !lookup_insert_ne by lia. apply Hfresh. lia. }
    { by apply no_oom_tail. }
    cbn [plus] in Hloop, Hels', Hframe, Hfresh'.
    fold n in Hloop, Hfresh'. rewrite length_replicate in Hlen'.
    set (elems' := imap (λ j (bk : positive * Z), (block_after nb j, bk.2))
                     elems).
    assert (Hel' : ∀ j e k, elems' !! j = Some (e, k) →
              e = block_after nb j ∧ ∃ b, elems !! j = Some (b, k)).
    { intros j e k. subst elems'. rewrite list_lookup_imap.
      destruct (elems !! j) as [[b k']|]; cbn; [|done].
      intros [= <- <-]. eauto. }
    assert (Hlenel : length elems' = n) by (subst elems'; apply length_imap).
    assert (Hfst : elems'.*1 = block_after nb <$> seq 0 n).
    { apply list_eq. intros j. subst elems'.
      rewrite !list_lookup_fmap, list_lookup_imap.
      destruct (decide (j < n)) as [Hj|Hj].
      - destruct (lookup_lt_is_Some_2 elems j Hj) as [[b k] ->].
        by rewrite lookup_seq_lt.
      - rewrite lookup_seq_ge by lia.
        by rewrite (lookup_ge_None_2 elems j) by (fold n; lia). }
    assert (Hbuf : dcells' = ptrs_of elems'.*1).
    { rewrite Hfst. apply list_eq. intros j. unfold ptrs_of.
      rewrite !list_lookup_fmap.
      destruct (decide (j < n)) as [Hj|Hj].
      - destruct (lookup_lt_is_Some_2 elems j Hj) as [[b k] Hbk].
        rewrite (proj1 (Hels' j b k Hbk)). by rewrite lookup_seq_lt.
      - rewrite lookup_seq_ge by lia. by rewrite lookup_ge_None_2 by lia. }
    assert (Hne' : elems' ≠ []).
    { intros Hx. rewrite Hx in Hlenel. cbn in Hlenel.
      subst n. destruct elems; [done|cbn in Hlenel; lia]. }
    assert (Hblocks : valtype_vec_blocks nb elems' = nb :: elems'.*1)
      by (by destruct elems').
    assert (Hbo' : m' !! bo = Some oc).
    { rewrite Hframe by (unfold block_after; lia). subst m4.
      rewrite lookup_insert_ne by lia. by rewrite lookup_insert_eq. }
    exists m', (block_after nb n), o', elems', (Vptr nb 0).
    split; [unfold wasm_valtype_vec_copy; by rewrite Hprefix|].
    split.
    { apply list_eq. intros j. subst elems'.
      rewrite !list_lookup_fmap, list_lookup_imap.
      by destruct (elems !! j) as [[b k]|]. }
    split; [done|]. split.
    { exists oc. split; [done|]. split; [by rewrite Hlenel|]. split.
      - intros _. split; [done|]. by rewrite <- Hbuf.
      - intros j e k Hj. destruct (Hel' j e k Hj) as (-> & b & Hb).
        by destruct (Hels' j b k Hb). }
    split; [unfold block_after; lia|]. split.
    { intros e. rewrite Hblocks, Hfst. split.
      - intros He.
        apply elem_of_cons in He as [->|He]; [unfold block_after; lia|].
        apply elem_of_blocks_after in He as (j & Hj & ->).
        unfold block_after. lia.
      - intros He. destruct (decide (e = nb)) as [->|Hen];
          [apply list_elem_of_here|].
        apply list_elem_of_further, elem_of_blocks_after.
        exists (Pos.to_nat e - Pos.to_nat nb - 1). unfold block_after in *.
        split; lia. }
    split.
    { rewrite Hblocks, Hfst. apply NoDup_cons. split.
      - rewrite elem_of_blocks_after. intros (j & _ & Hj).
        unfold block_after in Hj. lia.
      - apply NoDup_fmap_2; [apply block_after_inj|apply NoDup_seq]. }
    split.
    { intros b Hb Hbne. rewrite Hframe by (unfold block_after; lia).
      subst m4. by rewrite !lookup_insert_ne by lia. }
    split; done.
Qed.

(** X24: when no allocation fails, [wasm_functype_copy] is a deep copy: the
    new function type has kind FUNC and its parameter and result vectors
    read back with the sizes and the kinds, in order, of the source, while
    no block that was live is changed.  Deleting the copy afterwards
    releases exactly the blocks the copy allocated, so the source stays as
    it was. *)
Theorem wasm_functype_copy_deep (s : state) (bf : positive)
    (fcells : list val) (bd1 bd2 : positive)
    (el1 el2 : list (positive * Z)) :
  mem s !! bf = Some fcells →
  valtype_vec_at (mem s) bf functype_params bd1 el1 →
  valtype_vec_at (mem s) bf functype_results bd2 el2 →
  fresh_from (mem s) (nextblock s) →
  no_oom s →
  let nb := nextblock s in
  ∃ s' s'',
    wasm_functype_copy (Ptr bf 0) s = Ok (Ptr nb 0) s'
    ∧ wasm_externtype_kind (Ptr nb 0) s' = Ok WASM_EXTERN_FUNC s'
    ∧ (p <- wasm_functype_params (Ptr nb 0) ;; valtype_vec_read p) s'
      = Ok (Z.of_nat (length el1), el1.*2) s'
    ∧ (r <- wasm_functype_results (Ptr nb 0) ;; valtype_vec_read r) s'
      = Ok (Z.of_nat (length el2), el2.*2) s'
    ∧ (∀ b, (b < nb)%positive → mem s' !! b = mem s !! b)
    ∧ wasm_functype_delete (Ptr nb 0) s' = Ok tt s''
    ∧ (∀ b, (b < nb)%positive → mem s'' !! b = mem s !! b)
    ∧ (∀ b, (nb ≤ b)%positive → mem s'' !! b = None).
Proof.
  destruct s as [m nb o f]. unfold no_oom. cbn [mem nextblock oom].
  intros Hbf Hat1 Hat2 Hfresh Hoom.
  pose proof (fresh_from_live _ _ _ _ Hfresh Hbf) as Hbflt.
  assert (Hlive1 : ∀ e, e ∈ valtype_vec_blocks bd1 el1 → (e < nb)%positive).
  { destruct Hat1 as (c & _ & _ & Hd & Hels). intros e He.
    destruct (decide (el1 = [])) as [Hnil|Hne];
      [rewrite Hnil in He; by apply elem_of_nil in He|].
    destruct (Hd Hne) as [_ Hbd].
    assert (Hb : valtype_vec_blocks bd1 el1 = bd1 :: el1.*1)
      by (by destruct el1).
    rewrite Hb in He. apply elem_of_cons in He as [->|He].
    - by eapply fresh_from_live.
    - apply list_elem_of_fmap in He as ([e' k] & -> & He).
      apply list_elem_of_lookup in He as [j Hj].
      eapply fresh_from_live; [done|]. by eapply Hels. }
  assert (Hlive2 : ∀ e, e ∈ valtype_vec_blocks bd2 el2 → (e < nb)%positive).
  { destruct Hat2 as (c & _ & _ & Hd & Hels). intros e He.
    destruct (decide (el2 = [])) as [Hnil|Hne];
      [rewrite Hnil in He; by apply elem_of_nil in He|].
    destruct (Hd Hne) as [_ Hbd].
    assert (Hb : valtype_vec_blocks bd2 el2 = bd2 :: el2.*1)
      by (by destruct el2).
    rewrite Hb in He. apply elem_of_cons in He as [->|He].
    - by eapply fresh_from_live.
    - apply list_elem_of_fmap in He as ([e' k] & -> & He).
      apply list_elem_of_lookup in He as [j Hj].
      eapply fresh_from_live; [done|]. by eapply Hels. }
  assert (Hin1 : ∀ e, e ∈ el1.*1 → e ∈ valtype_vec_blocks bd1 el1).
  { intros e He. destruct el1; [by apply elem_of_nil in He|].
    by apply list_elem_of_further. }
  assert (Hin2 : ∀ e, e ∈ el2.*1 → e ∈ valtype_vec_blocks bd2 el2).
  { intros e He. destruct el2; [by apply elem_of_nil in He|].
    by apply list_elem_of_further. }
  assert (Hbd1 : el1 ≠ [] → bd1 ∈ valtype_vec_blocks bd1 el1)
    by (destruct el1; [done|intros _; apply list_elem_of_here]).
  assert (Hbd2 : el2 ≠ [] → bd2 ∈ valtype_vec_blocks bd2 el2)
    by (destruct el2; [done|intros _; apply list_elem_of_here]).
  set (c0 := <[externtype_kind := Vint WASM_EXTERN_FUNC]>
               (replicate sizeof_functype Vundef)).
  set (m1 := <[nb := c0]> m).
  assert (Hm1 : ∀ b, b ≠ nb → m1 !! b = m !! b)
    by (intros b Hb; subst m1; by rewrite lookup_insert_ne).
  assert (Hnb1 : m1 !! nb = Some c0) by (subst m1; by rewrite lookup_insert_eq).
  assert (Hbf1 : m1 !! bf = Some fcells) by (rewrite Hm1 by lia; done).
  assert (Hfresh1 : fresh_from m1 (Pos.succ nb)).
  { intros b Hb. rewrite Hm1 by lia. apply Hfresh. lia. }
  assert (Hat1a : valtype_vec_at m1 bf functype_params bd1 el1).
  { eapply (valtype_vec_at_moved m m1 bf functype_params fcells bd1 el1
              bf functype_params fcells Hat1 Hbf Hbf1); try done.
    - intros Hne. apply Hm1. specialize (Hlive1 bd1 (Hbd1 Hne)). lia.
    - intros e He. apply Hm1. specialize (Hlive1 e (Hin1 e He)). lia. }
  destruct (valtype_vec_copy_spec m1 (Pos.succ nb) (tail o) f nb
              functype_params c0 bf functype_params bd1 el1 Hat1a Hnb1)
    as (m2 & nb2 & o2 & el1' & data1 & Hrun1 & Hk1 & Hnb2 & Hat1b & Hle2
        & Hbl1 & Hdup1 & Hframe2 & Hfresh2 & Hoom2).
  { subst c0. rewrite length_insert, length_replicate.
    unfold functype_params, vec_data, sizeof_functype. lia. }
  { lia. }
  { intros Hne. specialize (Hlive1 bd1 (Hbd1 Hne)). lia. }
  { done. }
  { by apply no_oom_tail. }
  set (c2 := <[functype_params + vec_data := data1]>
               (<[functype_params + vec_size
                  := Vint (Z.of_nat (length el1))]> c0)) in *.
  assert (Hm2 : ∀ b, (b < nb)%positive → m2 !! b = m !! b).
  { intros b Hb. rewrite Hframe2 by lia. apply Hm1. lia. }
  assert (Hbf2 : m2 !! bf = Some fcells) by (rewrite Hm2 by lia; done).
  assert (Hat2a : valtype_vec_at m2 bf functype_results bd2 el2).
  { eapply (valtype_vec_at_moved m m2 bf functype_results fcells bd2 el2
              bf functype_results fcells Hat2 Hbf Hbf2); try done.
    - intros Hne. apply Hm2. exact (Hlive2 bd2 (Hbd2 Hne)).
    - intros e He. apply Hm2. exact (Hlive2 e (Hin2 e He)). }
  destruct (valtype_vec_copy_spec m2 nb2 o2 f nb functype_results c2 bf
              functype_results bd2 el2 Hat2a Hnb2)
    as (m3 & nb3 & o3 & el2' & data2 & Hrun2 & Hk2 & Hnb3 & Hat2b & Hle3
        & Hbl2 & Hdup2 & Hframe3 & Hfresh3 & Hoom3).
  { subst c2 c0. rewrite !length_insert, length_replicate.
    unfold functype_results, vec_data, sizeof_functype. lia. }
  { lia. }
  { intros Hne. specialize (Hlive2 bd2 (Hbd2 Hne)). lia. }
  { done. }
  { done. }
  set (c3 := <[functype_results + vec_data := data2]>
               (<[functype_results + vec_size
                  := Vint (Z.of_nat (length el2))]> c2)) in *.
  set (s3 := State m3 nb3 o3 f).
  assert (Hcopy : wasm_functype_copy (Ptr bf 0) (State m nb o f)
                  = Ok (Ptr nb 0) s3).
  { assert (Hctor : functype_ctor_copy (Ptr bf 0) (Ptr nb 0)
                      (State (<[nb := replicate sizeof_functype Vundef]> m)
                         (Pos.succ nb) (tail o) f)
                    = Ok tt s3).
    { unfold functype_ctor_copy.
      rewrite (bind_Ok _ _ _ _ _
                 (storef_cell nb 0 externtype_kind
                    (replicate sizeof_functype Vundef) _ _ _ _ _
                    ltac:(by rewrite lookup_insert_eq)
                    ltac:(cbn; unfold externtype_kind; lia))).
      rewrite insert_insert_eq.
      change ((wasm_valtype_vec_copy (Ptr nb functype_params)
                 (Ptr bf functype_params) ;;
               wasm_valtype_vec_copy (Ptr nb functype_results)
                 (Ptr bf functype_results))
                (State m1 (Pos.succ nb) (tail o) f) = Ok tt s3).
      by rewrite (bind_Ok _ _ _ _ _ Hrun1). }
    unfold wasm_functype_copy, new_nothrow. cbn [is_null].
    rewrite (bind_Ok _ _ _ _ _
               (alloc_ok sizeof_functype m nb o f (no_oom_head _ Hoom))).
    cbn [is_null]. by rewrite (bind_Ok _ _ _ _ _ Hctor). }
  assert (Hat1c : valtype_vec_at m3 nb functype_params (Pos.succ nb) el1').
  { eapply (valtype_vec_at_moved m2 m3 nb functype_params c2 (Pos.succ nb)
              el1' nb functype_params c3 Hat1b Hnb2 Hnb3).
    - subst c3. unfold functype_params, functype_results, vec_size,
        vec_data. by rewrite !list_lookup_insert_ne by lia.
    - subst c3. unfold functype_params, functype_results, vec_size,
        vec_data. by rewrite !list_lookup_insert_ne by lia.
    - intros Hne.
      assert (Hin : Pos.succ nb ∈ valtype_vec_blocks (Pos.succ nb) el1')
        by (destruct el1'; [done|apply list_elem_of_here]).
      apply Hbl1 in Hin. apply Hframe3; lia.
    - intros e He.
      assert (Hin : e ∈ valtype_vec_blocks (Pos.succ nb) el1').
      { destruct el1'; [by apply elem_of_nil in He|].
        by apply list_elem_of_further. }
      apply Hbl1 in Hin. apply Hframe3; lia. }
  assert (Hlen1 : length el1' = length el1)
    by (by rewrite <- (length_fmap snd el1'), Hk1, length_fmap).
  assert (Hlen2 : length el2' = length el2)
    by (by rewrite <- (length_fmap snd el2'), Hk2, length_fmap).
  assert (Hold3 : ∀ b, (b < nb)%positive → m3 !! b = m !! b).
  { intros b Hb. rewrite Hframe3 by lia. by apply Hm2. }
  assert (Hc3len : length c3 = sizeof_functype).
  { subst c3 c2 c0. by rewrite !length_insert, length_replicate. }
  assert (Hdup : NoDup (nb :: valtype_vec_blocks (Pos.succ nb) el1'
                           ++ valtype_vec_blocks nb2 el2')).
  { apply NoDup_cons. split.
    - intros Hin. apply elem_of_app in Hin as [Hin|Hin].
      + apply Hbl1 in Hin. lia.
      + apply Hbl2 in Hin. lia.
    - apply NoDup_app. split; [done|]. split; [|done].
      intros e He1 He2. apply Hbl1 in He1. apply Hbl2 in He2. lia. }
  destruct (functype_delete_spec m3 nb3 o3 f nb c3 (Pos.succ nb) el1' nb2 el2'
              Hnb3 Hc3len Hat1c Hat2b Hdup)
    as (m4 & Hdel & Hgone & Hall & Hframe4).
  exists s3, (State m4 nb3 o3 f).
  split; [done|]. split.
  { unfold wasm_externtype_kind. cbn [is_null].
    eapply load_int_cell; [exact Hnb3|].
    subst c3 c2 c0. unfold functype_params, functype_results, vec_size,
      vec_data, externtype_kind, sizeof_functype. reflexivity. }
  split.
  { unfold wasm_functype_params, field. cbn [is_null shift plus].
    unfold bind at 1. unfold ret at 1.
    rewrite (valtype_vec_read_spec s3 _ _ _ _ Hat1c).
    by rewrite Hlen1, Hk1. }
  split.
  { unfold wasm_functype_results, field. cbn [is_null shift plus].
    unfold bind at 1. unfold ret at 1.
    rewrite (valtype_vec_read_spec s3 _ _ _ _ Hat2b).
    by rewrite Hlen2, Hk2. }
  split; [done|]. split; [done|]. cbn [mem]. split.
  - intros b Hb. rewrite Hframe4; [by apply Hold3|lia|].
    intros Hin. apply elem_of_app in Hin as [Hin|Hin].
    + apply Hbl1 in Hin. lia.
    + apply Hbl2 in Hin. lia.
  - intros b Hb. destruct (decide (b = nb)) as [->|Hbn]; [done|].
    destruct (decide (b < nb2)%positive) as [Hlt2|Hge2].
    + apply Hall. apply elem_of_app. left. apply Hbl1. lia.
    + destruct (decide (b < nb3)%positive) as [Hlt3|Hge3].
      * apply Hall. apply elem_of_app. right. apply Hbl2. lia.
      * rewrite Hframe4; [apply Hfresh3; lia|done|].
        intros Hin. apply elem_of_app in Hin as [Hin|Hin].
        -- apply Hbl1 in Hin. lia.
        -- apply Hbl2 in Hin. lia.
Qed.

Lemma wasm_functype_copy_deep_witness :
  ∃ s' s'',
    wasm_functype_copy (Ptr 4 0) functype_state = Ok (Ptr 5 0) s'
    ∧ (p <- wasm_functype_params (Ptr 5 0) ;; valtype_vec_read p) s'
      = Ok (2%Z, [WASM_I32; WASM_I64]) s'
    ∧ (r <- wasm_functype_results (Ptr 5 0) ;; valtype_vec_read r) s'
      = Ok (0%Z, []) s'
    ∧ wasm_functype_delete (Ptr 5 0) s' = Ok tt s''
    ∧ mem s'' !! 3%positive = Some [Vptr 1 0; Vptr 2 0]
    ∧ mem s'' !! 6%positive = None.
Proof.
  destruct (wasm_functype_copy_deep functype_state 4%positive
              [Vint WASM_EXTERN_FUNC; Vint 2; Vptr 3 0; Vint 0; Vint 0]
              3%positive 1%positive
              [(1%positive, WASM_I32); (2%positive, WASM_I64)] [])
    as (s' & s'' & H1 & _ & H2 & H3 & _ & H4 & H5 & H6).
  - reflexivity.
  - eexists. split; [reflexivity|]. split; [reflexivity|].
    split; [by intros _|].
    intros [|[|j]] b k Hj; cbn in Hj; try discriminate;
      injection Hj as <- <-; reflexivity.
  - eexists. split; [reflexivity|]. split; [reflexivity|].
    split; [done|]. intros j b k Hj. discriminate.
  - intros b Hb. unfold functype_state in *. cbn [mem nextblock] in *.
    rewrite !lookup_insert_ne by lia. by rewrite lookup_singleton_ne by lia.
  - constructor.
  - exists s', s''. split; [exact H1|]. split; [exact H2|].
    split; [exact H3|]. split; [exact H4|]. split.
    + rewrite H5 by (cbn; lia). reflexivity.
    + apply H6. cbn. lia.
Defined.

(** X25: the copy of a pointer vector does not test the buffer it asked
    for: when the source is a non-empty vector of value types and the
    allocation of the buffer fails, [wasm_valtype_vec_copy] stores the first
    copied element through the null buffer, a null dereference, whether or
    not the allocation of that element succeeds. *)
Theorem valtype_vec_copy_buffer_failure (s : state)
    (bo : positive) (oo : nat) (ocells : list val)
    (bi : positive) (oi : nat) (bsrc : positive)
    (elems : list (positive * Z)) :
  valtype_vec_at (mem s) bi oi bsrc elems →
  elems ≠ [] →
  mem s !! bo = Some ocells →
  oo + vec_data < length ocells →
  bo ≠ bi → bo ≠ bsrc →
  mem s !! nextblock s = None →
  head (oom s) = Some true →
  wasm_valtype_vec_copy (Ptr bo oo) (Ptr bi oi) s = Fault NullDeref.
Proof.
  destruct s as [m nb o f]. cbn [mem nextblock oom].
  intros (icells & Hbi & Hsz & Hdata & Hels) Hne Hbo Hlen Hne1 Hne2 Hnb Hoom.
  destruct (Hdata Hne) as [Hd Hbsrc].
  destruct elems as [|[b k] rest]; [done|]. clear Hne Hdata.
  pose proof (Hels 0 b k eq_refl) as Hb.
  destruct o as [|[] o]; try discriminate.
  assert (Hlen0 : oo + vec_size < length ocells)
    by (unfold vec_size, vec_data in *; lia).
  assert (Hpos : (0 < Z.of_nat (length ((b, k) :: rest)))%Z) by (cbn; lia).
  set (size := Z.of_nat (length ((b, k) :: rest))) in *.
  assert (b ≠ bo).
  { intros ->. rewrite Hbo in Hb. injection Hb as ->.
    unfold vec_data in Hlen. cbn in Hlen. lia. }
  assert (bo ≠ nb) by congruence. assert (bi ≠ nb) by congruence.
  assert (bsrc ≠ nb) by congruence.
  unfold wasm_valtype_vec_copy, ptr_vec_copy. cbn [is_null orb].
  rewrite (bind_Ok _ _ _ _ _
             (loadf_cell bi oi vec_size icells _ (State m nb _ f) Hbi Hsz)).
  rewrite (bind_Ok _ _ _ _ _
             (storef_cell bo oo vec_size ocells _ m nb _ f Hbo Hlen0)).
  set (c1 := <[oo + vec_size := Vint size]> ocells).
  rewrite (bind_Ok _ _ _ _ _
             (storef_cell bo oo vec_data c1 nullptr (<[bo := c1]> m) nb _ f
                ltac:(by rewrite lookup_insert_eq)
                ltac:(subst c1; by rewrite length_insert))).
  rewrite insert_insert_eq.
  set (c2 := <[oo + vec_data := nullptr]> c1).
  set (m2 := <[bo := c2]> m).
  assert (Hbi2 : m2 !! bi = Some icells)
    by (subst m2; by rewrite lookup_insert_ne).
  assert (Hbo2 : m2 !! bo = Some c2) by (subst m2; by rewrite lookup_insert_eq).
  rewrite (bind_Ok _ _ _ _ _
             (load_int_cell bi oi vec_size icells size (State m2 nb _ f)
                Hbi2 Hsz)).
  rewrite (proj2 (Z.ltb_lt 0 size) Hpos).
  rewrite (bind_Ok _ _ _ _ _
             (load_int_cell bi oi vec_size icells size (State m2 nb _ f)
                Hbi2 Hsz)).
  rewrite (bind_Ok _ _ _ _ _ (alloc_fail (Z.to_nat size) m2 nb o f)).
  rewrite (bind_Ok _ _ _ _ _
             (storef_cell bo oo vec_data c2 (val_of_ptr Null) m2 nb o f Hbo2
                ltac:(subst c2 c1; by rewrite !length_insert))).
  subst m2. rewrite insert_insert_eq.
  set (c3 := <[oo + vec_data := val_of_ptr Null]> c2).
  set (m3 := <[bo := c3]> m).
  assert (Hbi3 : m3 !! bi = Some icells)
    by (subst m3; by rewrite lookup_insert_ne).
  assert (Hbsrc3 : m3 !! bsrc = Some (ptrs_of ((b, k) :: rest).*1))
    by (subst m3; by rewrite lookup_insert_ne).
  assert (Hdata3 : c3 !! (oo + vec_data) = Some (val_of_ptr Null)).
  { subst c3. apply list_lookup_insert_eq. subst c2 c1.
    by rewrite !length_insert. }
  rewrite (bind_Ok _ _ _ _ _
             (load_int_cell bi oi vec_size icells size (State m3 nb o f)
                Hbi3 Hsz)).
  subst size. rewrite Nat2Z.id. cbn [length for_loop].
  unfold bind at 1.
  rewrite (bind_Ok _ _ _ _ _
             (load_ptr_cell bi oi vec_data icells (Ptr bsrc 0)
                (State m3 nb o f) Hbi3 Hd)).
  rewrite (bind_Ok _ _ _ _ _
             (load_ptr_cell bsrc 0 0 _ (Ptr b 0) (State m3 nb o f) Hbsrc3
                eq_refl)).
  assert (Hcopy : ∃ c s4,
            wasm_valtype_copy (Ptr b 0) (State m3 nb o f) = Ok c s4
            ∧ mem s4 !! bo = Some c3).
  { assert (b ≠ nb) by congruence.
    assert (Hb3 : m3 !! b = Some [Vint k])
      by (subst m3; by rewrite lookup_insert_ne).
    assert (Hok : ∀ o', head o' ≠ Some true →
              wasm_valtype_copy (Ptr b 0) (State m3 nb o' f)
              = Ok (Ptr nb 0)
                   (State (<[nb := [Vint k]]> m3) (Pos.succ nb) (tail o') f)).
    { intros o' Ho'. unfold wasm_valtype_copy, valtype_ctor_copy.
      layout. prims. block_maps. reflexivity. }
    destruct o as [|[] o].
    - eexists _, _. split; [by apply Hok|]. cbn [mem].
      subst m3. rewrite lookup_insert_ne by done. by rewrite lookup_insert_eq.
    - exists Null, (State m3 nb o f). split; [reflexivity|]. cbn [mem].
      subst m3. by rewrite lookup_insert_eq.
    - eexists _, _. split; [by apply Hok|]. cbn [mem].
      subst m3. rewrite lookup_insert_ne by done. by rewrite lookup_insert_eq. }
  destruct Hcopy as (c & [m4 nb4 o4 f4] & Hcopy & Hbo4). cbn [mem] in Hbo4.
  rewrite (bind_Ok _ _ _ _ _ Hcopy).
  rewrite (bind_Ok _ _ _ _ _
             (load_ptr_cell bo oo vec_data c3 Null (State m4 nb4 o4 f4)
                Hbo4 Hdata3)).
  reflexivity.
Qed.

Lemma valtype_vec_copy_buffer_failure_witness :
  wasm_valtype_vec_copy (Ptr 5 0) (Ptr 4 0)
    (State (mem vec_copy_state) 6 [true] [])
  = Fault NullDeref.
Proof.
  apply (valtype_vec_copy_buffer_failure
           (State (mem vec_copy_state) 6 [true] []) 5%positive 0
           [Vundef; Vundef] 4%positive 0 3%positive
           [(1%positive, WASM_I32); (2%positive, WASM_I64)]);
    try reflexivity; try discriminate.
  - eexists. split; [reflexivity|]. split; [reflexivity|].
    split; [by intros _|].
    intros [|[|j]] b k Hj; cbn in Hj; try discriminate;
      injection Hj as <- <-; reflexivity.
  - unfold vec_data. cbn. lia.
Defined.
